(** * Mirror-and-publish pipeline of fabric-devbox

    A shallow embedding of the mirror scripts
    [fabric-tools/jfrog_to_fabric_sync.py],
    [fabric-tools/azure_devops_to_fabric_sync.py] and of the upload/publish
    manager [fabric-tools/upload_wheel_to_fabric.py].

    Python dictionaries are finite maps with string keys, exceptions are
    an explicit outcome, and everything the scripts observe of the outside
    (HTTP responses, disk faults, request durations) is read from an
    environment indexed by the number of external calls made so far. *)

From Stdlib Require Import ZArith List Ascii String Lia Sorted.
From stdpp Require Import base gmap strings list fin_maps pretty.

Local Open Scope string_scope.
Local Open Scope list_scope.
Local Open Scope Z_scope.

(** ** Python values *)

(** The values of type [Any] that reach the ledger and the result
    dictionaries: JSON-like data. *)
#[warnings="-register-all"]
Inductive pyval : Type :=
| PNone
| PBool (b : bool)
| PInt (z : Z)
| PStr (s : string)
| PList (l : list pyval)
| PDict (d : gmap string pyval).

Abbreviation dict := (gmap string pyval).

(** Truth value of a dictionary: empty is false. *)
Definition dict_truthy (d : dict) : bool :=
  match map_to_list d with
  | [] => false
  | _ :: _ => true
  end.

(** [v == s] for a [str] s, where [v] is the result of [d.get(k)]. *)
Definition get_eq_str (v : option pyval) (s : string) : bool :=
  match v with
  | Some (PStr t) => bool_decide (t = s)
  | _ => false
  end.

(** [v is True], where [v] is the result of [d.get(k)]. *)
Definition get_is_True (v : option pyval) : bool :=
  match v with
  | Some (PBool true) => true
  | _ => false
  end.

(** Truthiness of [d.get(k)]. *)
Definition get_truthy (v : option pyval) : bool :=
  match v with
  | None | Some PNone => false
  | Some (PBool b) => b
  | Some (PInt z) => negb (z =? 0)
  | Some (PStr s) => negb (bool_decide (s = ""))
  | Some (PList l) => negb (bool_decide (length l = 0%nat))
  | Some (PDict d) => dict_truthy d
  end.

(** ** Strings

    [str] values are kept as byte strings; [lower] folds the ASCII letters,
    which is what [str.lower] does on the extensions compared here. *)

Definition lower_ascii (c : ascii) : ascii :=
  let n := nat_of_ascii c in
  if ((65 <=? n) && (n <=? 90))%nat then ascii_of_nat (n + 32) else c.

Fixpoint lower (s : string) : string :=
  match s with
  | EmptyString => EmptyString
  | String c s' => String (lower_ascii c) (lower s')
  end.

(** [s.endswith(suf)]: some tail of [s] is [suf]. *)
Fixpoint endswith (s suf : string) : bool :=
  if bool_decide (s = suf) then true
  else match s with
       | EmptyString => false
       | String _ s' => endswith s' suf
       end.

(** [s.endswith(sufs)] for a tuple of suffixes. *)
Definition endswith_any (s : string) (sufs : list string) : bool :=
  existsb (endswith s) sufs.

(** [s.startswith(pre)]. *)
Fixpoint startswith (s pre : string) : bool :=
  match pre, s with
  | EmptyString, _ => true
  | String a pre', String b s' => bool_decide (a = b) && startswith s' pre'
  | String _ _, EmptyString => false
  end.

(** [s.rstrip("/")]. *)
Fixpoint rstrip_slash (s : string) : string :=
  match s with
  | EmptyString => EmptyString
  | String c s' =>
      match rstrip_slash s' with
      | EmptyString => if bool_decide (c = "/"%char) then EmptyString
                       else String c EmptyString
      | r => String c r
      end
  end.

(** [s.split(sep)[0]] for a one-character separator. *)
Fixpoint before_first (sep : ascii) (s : string) : string :=
  match s with
  | EmptyString => EmptyString
  | String c s' =>
      if bool_decide (c = sep) then EmptyString
      else String c (before_first sep s')
  end.

Fixpoint after_last (sep : ascii) (acc s : string) : string :=
  match s with
  | EmptyString => acc
  | String c s' =>
      if bool_decide (c = sep) then after_last sep EmptyString s'
      else after_last sep (acc +:+ String c EmptyString) s'
  end.

(** [os.path.basename(p)] (POSIX): what follows the last slash. *)
Definition basename (p : string) : string := after_last "/"%char "" p.

(** [os.path.join(a, b)] (POSIX). *)
Definition path_join (a b : string) : string :=
  if startswith b "/" then b
  else if bool_decide (a = "") || endswith a "/" then a +:+ b
  else a +:+ "/" +:+ b.

(** [str(n)] for an [int]. *)
Definition str_of_int (z : Z) : string := pretty z.

(** ** Exceptions, files, events and the environment *)

(** Every exception raised in the modelled code is an [Exception]; only
    its class and message are kept. *)
Inductive exn : Type :=
| FileNotFoundError (msg : string)
| RequestException (msg : string)
| OSError (msg : string)
| ValueError (msg : string).

(** [str(e)]. *)
Definition exn_str (e : exn) : string :=
  match e with
  | FileNotFoundError m | RequestException m | OSError m | ValueError m => m
  end.

(** An HTTP response as [requests] exposes it: [json] is [None] when
    [response.json()] raises. *)
Record response : Type := Response {
  status_code : Z;
  headers : list (string * string);
  json : option pyval;
  text : string
}.

(** Where a streamed download breaks, if it does. *)
Inductive fault : Type :=
| NoFault
| RequestFault (e : exn)            (* [session.get] or [raise_for_status] *)
| OpenFault (e : exn)               (* [open(tmp, "wb")] *)
| StreamFault (n : nat) (e : exn)   (* after [n] chunks were delivered *)
| MoveFault (e : exn).              (* [shutil.move] *)

Record stream : Type := Stream {
  chunks : list string;
  stream_fault : fault
}.

(** Where [MirrorState.save] breaks, if it does; [SaveWriteFault n] leaves
    the first [n] bytes of the document in the temporary file. *)
Inductive save_fault : Type :=
| SaveOk
| SaveOpenFault (e : exn)
| SaveWriteFault (n : nat) (e : exn)
| SaveMoveFault (e : exn).

(** The journal of a run: requests issued, calls of the uploader and
    sleeps, in program order. *)
Inductive event : Type :=
| EvIndex (pkg_name : string)       (* GET of the simple index *)
| EvStorage                         (* GET of the Artifactory storage listing *)
| EvFeed                            (* GET of the Azure DevOps feed listing *)
| EvGet (url : string)              (* streamed GET of a distribution *)
| EvUploadWheel (wheel_path : string) (* call of [upload_wheel] *)
| EvPost (wheel_path : string)      (* POST of a file to staging *)
| EvPublish                         (* POST to staging/publish *)
| EvPoll (operation_id : string)    (* GET of the operation status *)
| EvSleep (seconds : Z).            (* time.sleep(seconds) *)

(** What the program observes of the outside. The first argument of every
    field is the number of external calls already made, so that answers may
    change over time. The last three fields are library functions kept
    abstract. *)
Record Env : Type := {
  env_simple_index : nat -> string -> exn + list string;
  env_storage_list : nat -> exn + list (option string);
  env_feed_packages : nat -> exn + list string;
  env_get_stream : nat -> string -> stream;
  env_post_file : nat -> string -> exn + response;
  env_post_publish : nat -> exn + response;
  env_get_operation : nat -> string -> exn + response;
  env_save_fault : nat -> save_fault;
  env_duration : nat -> nat;          (* seconds the call takes *)
  env_sha256 : string -> string;      (* hashlib.sha256(..).hexdigest() *)
  env_json_dump : gmap string dict -> string;
  env_json_load : string -> option (gmap string dict);
  env_repr : pyval -> string          (* formatting of a container *)
}.

(** The state a run threads through: the files, every earlier state of the
    files (newest first), the wall clock, the number of external calls
    made, the journal, and the [_data] dictionary of the one [MirrorState]
    object. *)
Record world : Type := World {
  w_fs : gmap string string;
  w_hist : list (gmap string string);
  w_clock : Z;
  w_tick : nat;
  w_events : list event;
  w_data : gmap string dict
}.

(** The arguments of [time.sleep] in a journal, in order. *)
Definition sleeps_of (evs : list event) : list Z :=
  omap (fun ev => match ev with EvSleep n => Some n | _ => None end) evs.

Inductive outcome (A : Type) : Type :=
| Ret (a : A)
| Raise (e : exn)
| OutOfFuel.
Arguments Ret {A} a.
Arguments Raise {A} e.
Arguments OutOfFuel {A}.

Definition M (A : Type) : Type := world -> outcome A * world.

Definition ret {A} (a : A) : M A := fun w => (Ret a, w).

Definition raise {A} (e : exn) : M A := fun w => (Raise e, w).

Definition bind {A B} (m : M A) (k : A -> M B) : M B :=
  fun w =>
    match m w with
    | (Ret a, w') => k a w'
    | (Raise e, w') => (Raise e, w')
    | (OutOfFuel, w') => (OutOfFuel, w')
    end.

(** [try: m  except Exception as e: h e]. *)
Definition catch {A} (m : M A) (h : exn -> M A) : M A :=
  fun w =>
    match m w with
    | (Raise e, w') => h e w'
    | r => r
    end.

Notation "'let*' x ':=' c1 'in' c2" := (bind c1 (fun x => c2))
  (at level 10, x name, c1 at level 100, c2 at level 200).
Notation "c1 '>>' c2" := (bind c1 (fun _ => c2))
  (at level 100, c2 at level 200, right associativity).

(** [f"{v}"] and [str(v)]. *)
Definition py_str (env : Env) (v : pyval) : string :=
  match v with
  | PNone => "None"
  | PBool true => "True"
  | PBool false => "False"
  | PInt z => str_of_int z
  | PStr s => s
  | PList _ | PDict _ => env_repr env v
  end.

(** *** Primitive effects *)

Definition get_world : M world := fun w => (Ret w, w).

(** [time.time()]. *)
Definition time_time : M Z := fun w => (Ret (w_clock w), w).

(** [time.sleep(n)]. *)
Definition time_sleep (n : Z) : M unit := fun w =>
  (Ret tt, World (w_fs w) (w_hist w) (w_clock w + n) (w_tick w)
                 (w_events w ++ [EvSleep n]) (w_data w)).

(** An external call: journals the event, lets the clock run for the
    duration of the call and returns the index under which the environment
    answers. *)
Definition external (ev : event) (env : Env) : M nat := fun w =>
  (Ret (w_tick w),
   World (w_fs w) (w_hist w)
         (w_clock w + Z.of_nat (env_duration env (w_tick w)))
         (S (w_tick w)) (w_events w ++ [ev]) (w_data w)).

(** A journal entry that is not a request. *)
Definition journal (ev : event) : M unit := fun w =>
  (Ret tt, World (w_fs w) (w_hist w) (w_clock w) (w_tick w)
                 (w_events w ++ [ev]) (w_data w)).

Definition set_fs (fs : gmap string string) : M unit := fun w =>
  (Ret tt, World fs (w_fs w :: w_hist w) (w_clock w) (w_tick w)
                 (w_events w) (w_data w)).

(** [os.path.exists(p)]. *)
Definition path_exists (p : string) : M bool := fun w =>
  (Ret (bool_decide (is_Some (w_fs w !! p))), w).

(** [open(p, "wb")] and [open(p, "w")]: create or truncate. *)
Definition file_create (p : string) : M unit := fun w =>
  set_fs (<[p := ""]> (w_fs w)) w.

(** [f.write(b)] on the file opened at [p]. *)
Definition file_append (p b : string) : M unit := fun w =>
  set_fs (<[p := default "" (w_fs w !! p) +:+ b]> (w_fs w)) w.

(** [shutil.move(src, dst)] between two files of one directory: a rename. *)
Definition file_move (src dst : string) : M unit := fun w =>
  match w_fs w !! src with
  | None => (Raise (FileNotFoundError src), w)
  | Some b => set_fs (<[dst := b]> (delete src (w_fs w))) w
  end.

(** Reading a whole file. *)
Definition file_read (p : string) : M string := fun w =>
  match w_fs w !! p with
  | None => (Raise (FileNotFoundError p), w)
  | Some b => (Ret b, w)
  end.

(** The next answer of the environment for an effect that is not a
    request. *)
Definition next_tick : M nat := fun w =>
  (Ret (w_tick w),
   World (w_fs w) (w_hist w) (w_clock w) (S (w_tick w))
         (w_events w) (w_data w)).

Definition set_data (d : gmap string dict) : M unit := fun w =>
  (Ret tt, World (w_fs w) (w_hist w) (w_clock w) (w_tick w)
                 (w_events w) d).

(** ** The mirror ledger: class MirrorState

    [MirrorState._data : Dict[str, Dict[str, Any]]] is the field [w_data]
    of the world. The class is the same text in both mirror scripts. *)
Module MirrorState.

Definition key (pkg_name filename : string) : string :=
  pkg_name +:+ ":" +:+ filename.

Definition is_uploaded (data : gmap string dict)
    (pkg_name filename sha256 : string) : bool :=
  match data !! key pkg_name filename with
  | None => false
  | Some rec =>
      dict_truthy rec
      && get_eq_str (rec !! "sha256") sha256
      && get_is_True (rec !! "uploaded")
  end.

(** The record written by [mark_uploaded]; [ts] is [int(time.time())]. *)
Definition record (sha256 : string) (upload_meta : dict) (ts : Z) : dict :=
  <["sha256" := PStr sha256]>
    (<["uploaded" := PBool true]>
       (<["upload_meta" := PDict upload_meta]>
          (<["ts" := PInt ts]> ∅))).

(** The assignment [self._data[key] = {...}] of [mark_uploaded]. *)
Definition set_uploaded (data : gmap string dict)
    (pkg_name filename sha256 : string) (upload_meta : dict) (ts : Z)
    : gmap string dict :=
  <[key pkg_name filename := record sha256 upload_meta ts]> data.

(** [save]: the document goes to [path + ".tmp"], which is then moved
    onto [path]. *)
Definition save (env : Env) (path : string) : M unit :=
  let tmp := path +:+ ".tmp" in
  let* w := get_world in
  let doc := env_json_dump env (w_data w) in
  let* t := next_tick in
  match env_save_fault env t with
  | SaveOpenFault e => raise e
  | SaveWriteFault n e =>
      file_create tmp >> file_append tmp (substring 0 n doc) >> raise e
  | SaveMoveFault e =>
      file_create tmp >> file_append tmp doc >> raise e
  | SaveOk =>
      file_create tmp >> file_append tmp doc >> file_move tmp path
  end.

(** [__init__]: a missing or unreadable file gives the empty ledger. *)
Definition init (env : Env) (path : string) : M unit :=
  let* w := get_world in
  match w_fs w !! path with
  | None => set_data ∅
  | Some b =>
      match env_json_load env b with
      | Some d => set_data d
      | None => set_data ∅
      end
  end.

Definition mark_uploaded (env : Env) (path : string)
    (pkg_name filename sha256 : string) (upload_meta : dict) : M unit :=
  let* w := get_world in
  let* now := time_time in
  set_data (set_uploaded (w_data w) pkg_name filename sha256 upload_meta now)
  >> save env path.

End MirrorState.

(** ** download_url_to_path (the same text in both mirror scripts) *)

(** The loop [for chunk in r.iter_content(..): if chunk: f.write(chunk)]. *)
Fixpoint write_chunks (tmp : string) (cs : list string) : M unit :=
  match cs with
  | [] => ret tt
  | c :: cs' =>
      (if bool_decide (c = "") then ret tt else file_append tmp c)
      >> write_chunks tmp cs'
  end.

(** One pass through the [try] block. *)
Definition download_attempt (env : Env) (url dest_path : string) : M unit :=
  let* t := external (EvGet url) env in
  let s := env_get_stream env t url in
  let tmp := dest_path +:+ ".part" in
  match stream_fault s with
  | RequestFault e => raise e
  | OpenFault e => raise e
  | StreamFault n e =>
      file_create tmp >> write_chunks tmp (take n (chunks s)) >> raise e
  | MoveFault e =>
      file_create tmp >> write_chunks tmp (chunks s) >> raise e
  | NoFault =>
      file_create tmp >> write_chunks tmp (chunks s)
      >> file_move tmp dest_path
  end.

(** [while attempts < max_retries]; [n] bounds the iterations left. *)
Fixpoint download_loop (env : Env) (url dest_path : string)
    (max_retries : Z) (n : nat) (attempts : Z) : M unit :=
  match n with
  | O => ret tt
  | S n' =>
      if attempts <? max_retries then
        let attempts := attempts + 1 in
        catch (download_attempt env url dest_path)
          (fun e =>
             if attempts >=? max_retries then raise e
             else time_sleep (2 ^ (attempts - 1))
                  >> download_loop env url dest_path max_retries n' attempts)
      else ret tt
  end.

Definition download_url_to_path (env : Env) (url dest_path : string)
    (max_retries : Z) : M unit :=
  download_loop env url dest_path max_retries (Z.to_nat max_retries) 0.

(** [sha256_of_file]. *)
Definition sha256_of_file (env : Env) (path : string) : M string :=
  let* b := file_read path in ret (env_sha256 env b).

(** ** class FabricEnvironmentManager (upload_wheel_to_fabric.py) *)

(** A dictionary literal. *)
Definition mkdict (l : list (string * pyval)) : dict := list_to_map l.

(** [v == s] for a value [v] and a [str] literal [s]. *)
Definition py_eq_str (v : pyval) (s : string) : bool :=
  match v with
  | PStr t => bool_decide (t = s)
  | _ => false
  end.

(** [response.headers.get(name)]: header names compare without case. *)
Fixpoint headers_get (hs : list (string * string)) (name : string)
    : option string :=
  match hs with
  | [] => None
  | (k, v) :: hs' =>
      if bool_decide (lower k = lower name) then Some v
      else headers_get hs' name
  end.

(** [range(n)]. *)
Definition range (n : Z) : list Z := map Z.of_nat (seq 0 (Z.to_nat n)).

(** The text appended after [" - "] in an error message: the decoded body,
    or the raw text (cut to [limit] characters when there is a limit). *)
Definition error_detail (env : Env) (r : response) (limit : option nat)
    : string :=
  match json r with
  | Some v => py_str env v
  | None =>
      match limit with
      | Some n => substring 0 n (text r)
      | None => text r
      end
  end.

(** What [_attempt_upload] returns for a response. *)
Definition upload_result_of (env : Env) (wheel_name : string) (r : response)
    : dict :=
  if status_code r =? 200 then
    mkdict [("success", PBool true);
            ("message", PStr ("Library " +:+ wheel_name +:+ " uploaded to staging"));
            ("status_code", PInt (status_code r));
            ("wheel_name", PStr wheel_name)]
  else
    let error_msg :=
      "Upload failed: HTTP " +:+ str_of_int (status_code r)
      +:+ " - " +:+ error_detail env r (Some 200%nat) in
    mkdict [("success", PBool false);
            ("error", PStr error_msg);
            ("status_code", PInt (status_code r));
            ("wheel_name", PStr wheel_name)].

Definition _attempt_upload (env : Env) (wheel_path wheel_name : string)
    : M dict :=
  let* _ := file_read wheel_path in
  let* t := external (EvPost wheel_path) env in
  match env_post_file env t wheel_path with
  | inl e => raise e
  | inr r => ret (upload_result_of env wheel_name r)
  end.

(** The result built in the [except] branch of the last attempt. *)
Definition upload_exhausted (max_retries : Z) (wheel_name : string) (e : exn)
    : dict :=
  mkdict [("success", PBool false);
          ("error", PStr ("Upload failed after " +:+ str_of_int max_retries
                          +:+ " attempts: " +:+ exn_str e));
          ("wheel_name", PStr wheel_name)].

(** The result after the [for] loop. *)
Definition upload_fallthrough (max_retries : Z) (wheel_name : string) : dict :=
  mkdict [("success", PBool false);
          ("error", PStr ("Upload failed after " +:+ str_of_int max_retries
                          +:+ " attempts"));
          ("wheel_name", PStr wheel_name)].

(** The body of the [for attempt in range(max_retries)] loop: [Some d]
    is [return d], [None] goes on to the next attempt. *)
Definition upload_step (env : Env) (wheel_path wheel_name : string)
    (max_retries attempt : Z) : M (option dict) :=
  catch
    (let* result := _attempt_upload env wheel_path wheel_name in
     if get_truthy (result !! "success") then ret (Some result)
     else if attempt =? max_retries - 1 then ret (Some result)
     else time_sleep (2 ^ attempt) >> ret None)
    (fun e =>
       if attempt =? max_retries - 1
       then ret (Some (upload_exhausted max_retries wheel_name e))
       else time_sleep (2 ^ attempt) >> ret None).

Fixpoint upload_loop (env : Env) (wheel_path wheel_name : string)
    (max_retries : Z) (attempts : list Z) : M dict :=
  match attempts with
  | [] => ret (upload_fallthrough max_retries wheel_name)
  | attempt :: rest =>
      let* r := upload_step env wheel_path wheel_name max_retries attempt in
      match r with
      | Some d => ret d
      | None => upload_loop env wheel_path wheel_name max_retries rest
      end
  end.

(** The first step only journals the call. *)
Definition upload_wheel (env : Env) (wheel_path : string) (max_retries : Z)
    : M dict :=
  journal (EvUploadWheel wheel_path) >>
  let* found := path_exists wheel_path in
  if negb found
  then raise (FileNotFoundError ("Wheel file not found: " +:+ wheel_path))
  else
    let wheel_name := basename wheel_path in
    upload_loop env wheel_path wheel_name max_retries (range max_retries).

(** The results of the polling loop. *)
Definition publish_succeeded (operation_status : dict) : dict :=
  mkdict [("success", PBool true);
          ("message", PStr "Environment published and active");
          ("operation_status", PDict operation_status)].

Definition publish_failed (env : Env) (operation_status : dict) : dict :=
  let error_msg :=
    default (PStr "Unknown error") (operation_status !! "error") in
  mkdict [("success", PBool false);
          ("error", PStr ("Publish operation failed: " +:+ py_str env error_msg));
          ("operation_status", PDict operation_status)].

Definition publish_timeout : dict :=
  mkdict [("success", PBool false);
          ("error", PStr "Timeout waiting for publish completion");
          ("message", PStr "Check Fabric UI for publish status")].

(** One pass through the [try] block of the polling loop: [Some d] is
    [return d], [None] goes back to the loop test. *)
Definition poll_step (env : Env) (operation_id : string) : M (option dict) :=
  catch
    (let* t := external (EvPoll operation_id) env in
     match env_get_operation env t operation_id with
     | inl e => raise e
     | inr r =>
         if status_code r =? 200 then
           match json r with
           | Some (PDict operation_status) =>
               let status :=
                 default (PStr "Unknown") (operation_status !! "status") in
               if py_eq_str status "Succeeded"
               then ret (Some (publish_succeeded operation_status))
               else if py_eq_str status "Failed"
               then ret (Some (publish_failed env operation_status))
               else if py_eq_str status "Running"
                       || py_eq_str status "NotStarted"
               then time_sleep 10 >> ret None
               else time_sleep 10 >> ret None
           | _ => raise (ValueError "operation status is not a JSON object")
           end
         else time_sleep 10 >> ret None
     end)
    (fun _ => time_sleep 10 >> ret None).

(** [while time.time() - start_time < max_wait]. The loop is not bounded
    by a counter in the source; [fuel] bounds the iterations here. *)
Fixpoint wait_loop (env : Env) (operation_id : string) (max_wait start_time : Z)
    (fuel : nat) : M dict :=
  match fuel with
  | O => fun w => (OutOfFuel, w)
  | S fuel' =>
      let* now := time_time in
      if now - start_time <? max_wait then
        let* r := poll_step env operation_id in
        match r with
        | Some d => ret d
        | None => wait_loop env operation_id max_wait start_time fuel'
        end
      else ret publish_timeout
  end.

(** Iterations that always suffice: every pass that does not return
    sleeps ten seconds. *)
Definition poll_fuel (max_wait : Z) : nat := S (Z.to_nat max_wait).

Definition _wait_for_publish_completion (env : Env) (operation_id : string)
    (max_wait : Z) : M dict :=
  if bool_decide (operation_id = "")
  then ret (mkdict [("success", PBool true);
                    ("message", PStr "Publish completed (no operation ID)")])
  else
    let* start_time := time_time in
    wait_loop env operation_id max_wait start_time (poll_fuel max_wait).

Definition publish_environment (env : Env) : M dict :=
  let* t := external EvPublish env in
  match env_post_publish env t with
  | inl e => raise e
  | inr r =>
      if (status_code r =? 200) || (status_code r =? 202) then
        if status_code r =? 202 then
          match headers_get (headers r) "x-ms-operation-id" with
          | Some operation_id =>
              if negb (bool_decide (operation_id = ""))
              then _wait_for_publish_completion env operation_id 300
              else ret (mkdict
                     [("success", PBool true);
                      ("message", PStr "Environment published successfully (no operation ID)");
                      ("status_code", PInt (status_code r))])
          | None =>
              ret (mkdict
                     [("success", PBool true);
                      ("message", PStr "Environment published successfully (no operation ID)");
                      ("status_code", PInt (status_code r))])
          end
        else
          ret (mkdict [("success", PBool true);
                       ("message", PStr "Environment published successfully");
                       ("status_code", PInt (status_code r))])
      else
        let error_msg :=
          "Publish failed: HTTP " +:+ str_of_int (status_code r)
          +:+ " - " +:+ error_detail env r None in
        ret (mkdict [("success", PBool false);
                     ("error", PStr error_msg);
                     ("status_code", PInt (status_code r))])
  end.

(** ** The mirror scripts *)

Definition VALID_DISTS : list string := [".whl"; ".tar.gz"; ".zip"].

(** An entry [{"url": .., "filename": ..}]. *)
Record entry : Type := Entry { url : string; filename : string }.

(** The options of a run that the mirroring functions receive. *)
Record config : Type := Config {
  cache_dir : string;
  state_path : string;            (* os.path.join(cache_dir, STATE_FILENAME) *)
  upload_wheels_only : bool;
  publish_after : bool
}.

Fixpoint for_each {A} (body : A -> M unit) (l : list A) : M unit :=
  match l with
  | [] => ret tt
  | x :: l' => body x >> for_each body l'
  end.

(** [{"url": u, "filename": os.path.basename(u.split("?")[0])}]. *)
Definition entry_of_url (u : string) : entry :=
  Entry u (basename (before_first "?"%char u)).

(** [[e for e in entries if e["filename"].lower().endswith(VALID_DISTS)]]. *)
Definition candidates (entries : list entry) : list entry :=
  List.filter (fun e => endswith_any (lower (filename e)) VALID_DISTS) entries.

(** The body of [for e in entries]; both scripts have the same text up to
    the wording of the messages. Returning [tt] early is [continue]. *)
Definition process_entry (env : Env) (cfg : config) (pkg_name : string)
    (e : entry) : M unit :=
  let local_path := path_join (cache_dir cfg) (filename e) in
  let* found := path_exists local_path in
  let* present :=
    (if found then ret true
     else catch (download_url_to_path env (url e) local_path 3 >> ret true)
                (fun _ => ret false)) in
  if negb present then ret tt
  else
    let* sha256 := sha256_of_file env local_path in
    let* w := get_world in
    if MirrorState.is_uploaded (w_data w) pkg_name (filename e) sha256
    then ret tt
    else if upload_wheels_only cfg && negb (endswith (lower (filename e)) ".whl")
    then ret tt
    else
      catch
        (let* upload_result := upload_wheel env local_path 3 in
         if get_truthy (upload_result !! "success")
         then MirrorState.mark_uploaded env (state_path cfg) pkg_name
                (filename e) sha256 upload_result
         else ret tt)
        (fun _ => ret tt).

(** The [if publish_after:] block that ends both mirroring functions. *)
Definition publish_step (env : Env) (cfg : config) : M unit :=
  if publish_after cfg
  then catch (let* pub := publish_environment env in ret tt) (fun _ => ret tt)
  else ret tt.

(** What both mirroring functions do once [entries] is built. *)
Definition mirror_entries (env : Env) (cfg : config) (pkg_name : string)
    (entries : list entry) : M unit :=
  let entries := candidates entries in
  match entries with
  | [] => ret tt
  | _ :: _ =>
      for_each (process_entry env cfg pkg_name) entries >> publish_step env cfg
  end.

(** [pypi_simple_list] and [azure_pypi_simple_index]: the links of the
    index page, as the environment serves them. *)
Definition simple_index (env : Env) (pkg_name : string) : M (list string) :=
  let* t := external (EvIndex pkg_name) env in
  match env_simple_index env t pkg_name with
  | inl e => raise e
  | inr urls => ret urls
  end.

Module Jfrog.

(** [artifactory_list]: the [uri] field of every listed file. *)
Definition artifactory_list (env : Env) : M (list (option string)) :=
  let* t := external EvStorage env in
  match env_storage_list env t with
  | inl e => raise e
  | inr files => ret files
  end.

Definition determine_files_from_artifactory_entry (base_url repo : string)
    (uri : option string) : option entry :=
  match uri with
  | None => None
  | Some u =>
      if bool_decide (u = "") then None
      else Some (Entry (rstrip_slash base_url +:+ "/" +:+ repo +:+ u)
                       (basename u))
  end.

Definition mirror_package_from_jfrog (env : Env) (cfg : config)
    (jfrog_base repo pkg_name : string) : M unit :=
  let* entries :=
    catch
      (let* urls := simple_index env pkg_name in
       ret (map entry_of_url urls))
      (fun _ =>
         let* files := artifactory_list env in
         ret (omap (determine_files_from_artifactory_entry jfrog_base repo)
                   files)) in
  mirror_entries env cfg pkg_name entries.

(** The loop [for pkg in pkg_iter] of [main]. *)
Definition mirror_all (env : Env) (cfg : config) (jfrog_base repo : string)
    (pkgs : list string) : M unit :=
  for_each (mirror_package_from_jfrog env cfg jfrog_base repo) pkgs.

End Jfrog.

Module Azure.

Definition azure_devops_list_packages_via_api (env : Env)
    : M (list string) :=
  let* t := external EvFeed env in
  match env_feed_packages env t with
  | inl e => raise e
  | inr names => ret names
  end.

(** The two nested [try] blocks that build [entries]; [None] is the
    [return] of the fallback. *)
Definition resolve (env : Env) (pkg_name : string)
    : M (option (list entry)) :=
  catch
    (let* urls := simple_index env pkg_name in
     ret (Some (map entry_of_url urls)))
    (fun _ =>
       catch
         (let* names := azure_devops_list_packages_via_api env in
          if negb (bool_decide (pkg_name ∈ names)) then ret None
          else
            let* urls := simple_index env pkg_name in
            ret (Some (map entry_of_url urls)))
         (fun _ => ret None)).

Definition mirror_package_from_azure (env : Env) (cfg : config)
    (pkg_name : string) : M unit :=
  let* r := resolve env pkg_name in
  match r with
  | None => ret tt
  | Some entries => mirror_entries env cfg pkg_name entries
  end.

Definition mirror_all (env : Env) (cfg : config) (pkgs : list string)
    : M unit :=
  for_each (mirror_package_from_azure env cfg) pkgs.

End Azure.

(** * Vocabulary of the properties *)

(** [m] relates every world to the world it leaves. *)
Definition preserves (R : world -> world -> Prop) {A} (m : M A) : Prop :=
  forall w, R w (snd (m w)).

(** The ledger dictionary is the same. *)
Definition same_data (w w' : world) : Prop := w_data w' = w_data w.

(** The journal grew by events that all satisfy [P]. *)
Definition emits (P : event -> Prop) (w w' : world) : Prop :=
  exists new, w_events w' = w_events w ++ new /\ Forall P new.

(** Under the wheels-only policy, the only files handed to the uploader
    are cache files whose name ends in [.whl]. *)
Definition only_wheels (cfg : config) (ev : event) : Prop :=
  match ev with
  | EvUploadWheel p | EvPost p =>
      exists f, p = path_join (cache_dir cfg) f
                /\ endswith (lower f) ".whl" = true
  | _ => True
  end.

(** The journal grew by [ev], followed by events that all satisfy [P]. *)
Definition starts_with (ev : event) (P : event -> Prop) (w w' : world)
    : Prop :=
  exists rest, w_events w' = w_events w ++ ev :: rest /\ Forall P rest.

(** Only GETs of the entry's URL, and sleeps. *)
Definition only_get (e : entry) (ev : event) : Prop :=
  match ev with
  | EvGet u => u = url e
  | EvSleep _ => True
  | _ => False
  end.

(** The journal of [a] attempts [ev] whose first has index [k]: between two
    attempts lies the sleep of the earlier one. *)
Fixpoint retry_journal (ev : event) (k : Z) (a : nat) : list event :=
  match a with
  | O => []
  | S a' =>
      ev :: match a' with
            | O => []
            | S _ => EvSleep (2 ^ k) :: retry_journal ev (k + 1) a'
            end
  end.

(** A transfer attempt fails: the request raises, or the status is not 200. *)
Definition attempt_fails (o : exn + response) : Prop :=
  match o with
  | inl _ => True
  | inr r => status_code r <> 200
  end.

(** The failure that [upload_wheel] reports for a failed last attempt. *)
Definition failure_of (env : Env) (max_retries : Z) (wheel_name : string)
    (o : exn + response) : dict :=
  match o with
  | inl e => upload_exhausted max_retries wheel_name e
  | inr r => upload_result_of env wheel_name r
  end.

(** What follows the GET in [download_attempt]. *)
Definition after_get (env : Env) (url dest_path : string) (t : nat) : M unit :=
  let s := env_get_stream env t url in
  let tmp := dest_path +:+ ".part" in
  match stream_fault s with
  | RequestFault e => raise e
  | OpenFault e => raise e
  | StreamFault n e =>
      file_create tmp >> write_chunks tmp (take n (chunks s)) >> raise e
  | MoveFault e =>
      file_create tmp >> write_chunks tmp (chunks s) >> raise e
  | NoFault =>
      file_create tmp >> write_chunks tmp (chunks s)
      >> file_move tmp dest_path
  end.

(** The schedule 1, 2, 4, ...: the sleep of index [i] lasts [2 ^ i]
    seconds, and the durations never decrease. *)
Definition doubling (m : nat) : list Z :=
  map (fun i => 2 ^ Z.of_nat i) (seq 0 m).

(** The endpoint answers the poll of index [t] with HTTP 200 and the JSON
    object [d], whose [status] field is [status]. *)
Definition reports (env : Env) (t : nat) (operation_id : string)
    (d : dict) (status : string) : Prop :=
  exists r,
    env_get_operation env t operation_id = inr r
    /\ status_code r = 200
    /\ json r = Some (PDict d)
    /\ d !! "status" = Some (PStr status).

(** The world after a poll. *)
Definition polled (env : Env) (operation_id : string) (w : world) : world :=
  snd (external (EvPoll operation_id) env w).

(** The world after a poll followed by the sleep of ten seconds. *)
Definition polled_slept (env : Env) (operation_id : string) (w : world)
    : world :=
  snd (time_sleep 10 (polled env operation_id w)).

(** The journal of [k] polls that each found the operation unfinished. *)
Fixpoint poll_journal (id : string) (k : nat) : list event :=
  match k with
  | O => []
  | S k' => EvPoll id :: EvSleep 10 :: poll_journal id k'
  end.

(** The bytes of a stream that was read to its end. *)
Definition body_of (cs : list string) : string := foldr String.append "" cs.

(** Every state of the files the world has been in, newest first. *)
Definition states (w : world) : list (gmap string string) := w_fs w :: w_hist w.

(** The computation leaves the file at [dest] alone. *)
Definition keeps (dest : string) (w w' : world) : Prop :=
  exists new,
    states w' = new ++ states w
    /\ Forall (fun fs => fs !! dest = w_fs w !! dest) new.

(** The file at [dest] holds all the bytes of a stream that ended well. *)
Definition complete (env : Env) (url dest : string)
    (fs : gmap string string) : Prop :=
  exists t,
    stream_fault (env_get_stream env t url) = NoFault
    /\ fs !! dest = Some (body_of (chunks (env_get_stream env t url))).

(** The file at [dest] is what it was at first, or a complete download. *)
Definition intact (env : Env) (url dest : string) (orig : option string)
    (fs : gmap string string) : Prop :=
  fs !! dest = orig \/ complete env url dest fs.

(** From an intact state, the computation goes through intact states
    only. *)
Definition atomic (env : Env) (url dest : string) (orig : option string)
    (w w' : world) : Prop :=
  intact env url dest orig (w_fs w) ->
  exists new,
    states w' = new ++ states w /\ Forall (intact env url dest orig) new.

(** The computation changes no file but [dest] and [dest + ".part"]. *)
Definition confined (dest : string) (w w' : world) : Prop :=
  exists new,
    states w' = new ++ states w
    /\ Forall (fun fs => forall p, p <> dest -> p <> dest +:+ ".part" ->
                                   fs !! p = w_fs w !! p) new.

(** * Sample environments and worlds *)

(** A ledger that recorded [pkg-1.0-py3.whl] with digest [old]. *)
Definition stale_ledger : gmap string dict :=
  MirrorState.set_uploaded ∅ "pkg" "pkg-1.0-py3.whl" "old" ∅ 1700000000.

(** An environment in which every request is refused. *)
Definition offline : Env := {|
  env_simple_index := fun _ _ => inl (RequestException "connection refused");
  env_storage_list := fun _ => inl (RequestException "connection refused");
  env_feed_packages := fun _ => inl (RequestException "connection refused");
  env_get_stream := fun _ _ =>
    Stream [] (RequestFault (RequestException "connection refused"));
  env_post_file := fun _ _ => inl (RequestException "connection refused");
  env_post_publish := fun _ => inl (RequestException "connection refused");
  env_get_operation := fun _ _ => inl (RequestException "connection refused");
  env_save_fault := fun _ => SaveOk;
  env_duration := fun _ => 0%nat;
  env_sha256 := fun b => "sha256:" +:+ b;
  env_json_dump := fun _ => "{}";
  env_json_load := fun _ => None;
  env_repr := fun _ => "{...}"
|}.

(** The world at the start of a run with an empty cache. *)
Definition empty_world : world := World ∅ [] 0 0 [] ∅.

(** The default options: wheels only, no publish. *)
Definition demo_cfg : config :=
  Config "cache" "cache/jfrog_mirror_state.json" true false.

(** A registry that lists three files for every package and serves each of
    them in three chunks, and a staging endpoint that accepts every file. *)
Definition demo_env : Env := {|
  env_simple_index := fun _ _ =>
    inr ["https://r/pkg-1.0-py3.whl"; "https://r/pkg-1.0.tar.gz?x=1";
         "https://r/pkg-1.0.exe"];
  env_storage_list := fun _ => inl (RequestException "connection refused");
  env_feed_packages := fun _ => inl (RequestException "connection refused");
  env_get_stream := fun _ _ => Stream ["by"; ""; "tes"] NoFault;
  env_post_file := fun _ _ => inr (Response 200 [] None "");
  env_post_publish := fun _ => inl (RequestException "connection refused");
  env_get_operation := fun _ _ => inl (RequestException "connection refused");
  env_save_fault := fun _ => SaveOk;
  env_duration := fun _ => 0%nat;
  env_sha256 := fun b => "sha256:" +:+ b;
  env_json_dump := fun _ => "{}";
  env_json_load := fun _ => None;
  env_repr := fun _ => "{...}"
|}.

(** A registry whose index has no page for [p2] and whose storage listing
    is refused; every other package has one wheel. *)
Definition broken_env : Env := {|
  env_simple_index := fun _ pkg =>
    if bool_decide (pkg = "p2")
    then inl (RequestException "404 Client Error: Not Found")
    else inr ["https://r/" +:+ pkg +:+ "-1.0-py3.whl"];
  env_storage_list := fun _ =>
    inl (RequestException "500 Server Error");
  env_feed_packages := fun _ =>
    inl (RequestException "500 Server Error");
  env_get_stream := fun _ _ => Stream ["by"; ""; "tes"] NoFault;
  env_post_file := fun _ _ => inr (Response 200 [] None "");
  env_post_publish := fun _ => inl (RequestException "connection refused");
  env_get_operation := fun _ _ => inl (RequestException "connection refused");
  env_save_fault := fun _ => SaveOk;
  env_duration := fun _ => 0%nat;
  env_sha256 := fun b => "sha256:" +:+ b;
  env_json_dump := fun _ => "{}";
  env_json_load := fun _ => None;
  env_repr := fun _ => "{...}"
|}.

(** A staging endpoint that answers 500 to every file. *)
Definition rejecting_env : Env := {|
  env_simple_index := env_simple_index demo_env;
  env_storage_list := env_storage_list demo_env;
  env_feed_packages := env_feed_packages demo_env;
  env_get_stream := env_get_stream demo_env;
  env_post_file := fun _ _ =>
    inr (Response 500 [] None "Internal Server Error");
  env_post_publish := env_post_publish demo_env;
  env_get_operation := env_get_operation demo_env;
  env_save_fault := env_save_fault demo_env;
  env_duration := env_duration demo_env;
  env_sha256 := env_sha256 demo_env;
  env_json_dump := env_json_dump demo_env;
  env_json_load := env_json_load demo_env;
  env_repr := env_repr demo_env
|}.

(** A world whose only file is one wheel. *)
Definition wheel_world : world :=
  World {["dist/pkg-1.0-py3.whl" := "bytes"]} [] 0 0 [] ∅.

(** An operation endpoint that answers with the given status. *)
Definition status_response (status : string) : response :=
  Response 200 [] (Some (PDict {["status" := PStr status]})) "".

(** The publish request is accepted with operation id [op-1]; the first two
    polls find the operation running, the later ones find it succeeded. *)
Definition three_polls_env : Env := {|
  env_simple_index := env_simple_index demo_env;
  env_storage_list := env_storage_list demo_env;
  env_feed_packages := env_feed_packages demo_env;
  env_get_stream := env_get_stream demo_env;
  env_post_file := env_post_file demo_env;
  env_post_publish := fun _ =>
    inr (Response 202 [("x-ms-operation-id", "op-1")] None "");
  env_get_operation := fun t _ =>
    inr (status_response (if (t <? 2)%nat then "Running" else "Succeeded"));
  env_save_fault := env_save_fault demo_env;
  env_duration := env_duration demo_env;
  env_sha256 := env_sha256 demo_env;
  env_json_dump := env_json_dump demo_env;
  env_json_load := env_json_load demo_env;
  env_repr := env_repr demo_env
|}.

(** The operation never leaves the running state. *)
Definition running_env : Env := {|
  env_simple_index := env_simple_index demo_env;
  env_storage_list := env_storage_list demo_env;
  env_feed_packages := env_feed_packages demo_env;
  env_get_stream := env_get_stream demo_env;
  env_post_file := env_post_file demo_env;
  env_post_publish := fun _ =>
    inr (Response 202 [("x-ms-operation-id", "op-1")] None "");
  env_get_operation := fun _ _ => inr (status_response "Running");
  env_save_fault := env_save_fault demo_env;
  env_duration := env_duration demo_env;
  env_sha256 := env_sha256 demo_env;
  env_json_dump := env_json_dump demo_env;
  env_json_load := env_json_load demo_env;
  env_repr := env_repr demo_env
|}.

(** The publish request is accepted, but the answer names no operation. *)
Definition anonymous_accept_env : Env := {|
  env_simple_index := env_simple_index demo_env;
  env_storage_list := env_storage_list demo_env;
  env_feed_packages := env_feed_packages demo_env;
  env_get_stream := env_get_stream demo_env;
  env_post_file := env_post_file demo_env;
  env_post_publish := fun _ =>
    inr (Response 202 [("Content-Length", "0")] None "");
  env_get_operation := fun _ _ => inr (status_response "Failed");
  env_save_fault := env_save_fault demo_env;
  env_duration := env_duration demo_env;
  env_sha256 := env_sha256 demo_env;
  env_json_dump := env_json_dump demo_env;
  env_json_load := env_json_load demo_env;
  env_repr := env_repr demo_env
|}.

(** A download whose first stream breaks after one chunk and whose second
    stream ends well. *)
Definition flaky_stream_env : Env := {|
  env_simple_index := env_simple_index demo_env;
  env_storage_list := env_storage_list demo_env;
  env_feed_packages := env_feed_packages demo_env;
  env_get_stream := fun t _ =>
    Stream ["by"; ""; "tes"]
      (if (t <? 1)%nat
       then StreamFault 1 (RequestException "Connection broken")
       else NoFault);
  env_post_file := env_post_file demo_env;
  env_post_publish := env_post_publish demo_env;
  env_get_operation := env_get_operation demo_env;
  env_save_fault := env_save_fault demo_env;
  env_duration := env_duration demo_env;
  env_sha256 := env_sha256 demo_env;
  env_json_dump := env_json_dump demo_env;
  env_json_load := env_json_load demo_env;
  env_repr := env_repr demo_env
|}.

(** * Vocabulary of the further properties *)

(** The ledger file at [path] is what it was at first, or the whole of the
    document [doc]. *)
Definition ledger_intact (path : string) (orig : option string) (doc : string)
    (fs : gmap string string) : Prop :=
  fs !! path = orig \/ fs !! path = Some doc.

(** A JSON codec that reads back every ledger as it wrote it, through one
    fixed text; only the round trip matters. *)
Definition echo_env (d : gmap string dict) : Env := {|
  env_simple_index := env_simple_index offline;
  env_storage_list := env_storage_list offline;
  env_feed_packages := env_feed_packages offline;
  env_get_stream := env_get_stream offline;
  env_post_file := env_post_file offline;
  env_post_publish := env_post_publish offline;
  env_get_operation := env_get_operation offline;
  env_save_fault := fun _ => SaveOk;
  env_duration := env_duration offline;
  env_sha256 := env_sha256 offline;
  env_json_dump := fun _ => "{pkg:pkg-1.0-py3.whl: {...}}";
  env_json_load := fun _ => Some d;
  env_repr := env_repr offline
|}.

(** The computation never runs out of fuel. *)
Definition finishes {A} (m : M A) : Prop := forall w, fst (m w) <> OutOfFuel.

(** The computation never raises either: it always returns a value. *)
Definition returns {A} (m : M A) : Prop := forall w, exists a, fst (m w) = Ret a.

(** What [process_entry] does once the file is in the cache. *)
Definition entry_tail (env : Env) (cfg : config) (pkg_name : string)
    (e : entry) : M unit :=
  let local_path := path_join (cache_dir cfg) (filename e) in
  let* sha256 := sha256_of_file env local_path in
  let* w := get_world in
  if MirrorState.is_uploaded (w_data w) pkg_name (filename e) sha256
  then ret tt
  else if upload_wheels_only cfg && negb (endswith (lower (filename e)) ".whl")
  then ret tt
  else
    catch
      (let* upload_result := upload_wheel env local_path 3 in
       if get_truthy (upload_result !! "success")
       then MirrorState.mark_uploaded env (state_path cfg) pkg_name
              (filename e) sha256 upload_result
       else ret tt)
      (fun _ => ret tt).

(** The publish request is answered 204. *)
Definition no_content_env : Env := {|
  env_simple_index := env_simple_index demo_env;
  env_storage_list := env_storage_list demo_env;
  env_feed_packages := env_feed_packages demo_env;
  env_get_stream := env_get_stream demo_env;
  env_post_file := env_post_file demo_env;
  env_post_publish := fun _ => inr (Response 204 [] None "");
  env_get_operation := fun _ _ => inr (status_response "Succeeded");
  env_save_fault := env_save_fault demo_env;
  env_duration := env_duration demo_env;
  env_sha256 := env_sha256 demo_env;
  env_json_dump := env_json_dump demo_env;
  env_json_load := env_json_load demo_env;
  env_repr := env_repr demo_env
|}.

(** A staging endpoint that refuses the first two files it is sent and
    accepts the later ones. *)
Definition third_time_env : Env := {|
  env_simple_index := env_simple_index demo_env;
  env_storage_list := env_storage_list demo_env;
  env_feed_packages := env_feed_packages demo_env;
  env_get_stream := env_get_stream demo_env;
  env_post_file := fun t _ =>
    if (t <? 2)%nat then inr (Response 503 [] None "Service Unavailable")
    else inr (Response 200 [] None "");
  env_post_publish := env_post_publish demo_env;
  env_get_operation := env_get_operation demo_env;
  env_save_fault := env_save_fault demo_env;
  env_duration := env_duration demo_env;
  env_sha256 := env_sha256 demo_env;
  env_json_dump := env_json_dump demo_env;
  env_json_load := env_json_load demo_env;
  env_repr := env_repr demo_env
|}.

(** The exception of a fault. *)
Definition fault_exn (f : fault) : option exn :=
  match f with
  | NoFault => None
  | RequestFault e | OpenFault e | StreamFault _ e | MoveFault e => Some e
  end.

(** How the attempts of [upload_wheel] end, the first being made at tick
    [t] and [n] being allowed: after [a] of them the result is [d]. The
    attempts before the last one failed, and either the last one was
    answered 200 and [d] reports it, or all [n] failed. *)
Definition stops_after (env : Env) (path name : string) (t n a : nat)
    (d : dict) : Prop :=
  (a <= n)%nat
  /\ (forall i, (S i < a)%nat ->
                attempt_fails (env_post_file env (t + i)%nat path))
  /\ ((exists r,
         (1 <= a)%nat
         /\ env_post_file env (t + a - 1)%nat path = inr r
         /\ status_code r = 200
         /\ d = upload_result_of env name r)
      \/ (a = n
          /\ get_truthy (d !! "success") = false
          /\ forall i, (i < a)%nat ->
                       attempt_fails (env_post_file env (t + i)%nat path))).

(** What a stream that breaks leaves in the [.part] file: the chunks
    delivered before the break, or the whole body when the move fails. *)
Definition leftover (s : stream) : option string :=
  match stream_fault s with
  | StreamFault n _ => Some (body_of (take n (chunks s)))
  | MoveFault _ => Some (body_of (chunks s))
  | _ => None
  end.

(** How a download of [url] to [dest] ends, the first attempt being made at
    tick [t] and [remaining] attempts being allowed: [a] attempts were made,
    the file at [dest] was [before], and the run ended in [r]. Every
    attempt before the last one broke. When the run returns, the last
    stream ended well, its body is at [dest] and no [.part] file is left.
    When it raises, every allowed attempt was made, the exception is the one
    of the last break, [dest] is what it was, and what the last stream
    delivered is still in the [.part] file. *)
Definition ends_after (env : Env) (url dest : string) (t : nat)
    (remaining : Z) (before : option string) (a : nat)
    (r : outcome unit * world) : Prop :=
  (1 <= a)%nat /\ Z.of_nat a <= remaining
  /\ (forall i, (S i < a)%nat ->
                stream_fault (env_get_stream env (t + i)%nat url) <> NoFault)
  /\ let s := env_get_stream env (t + a - 1)%nat url in
     match fst r with
     | Ret _ =>
         stream_fault s = NoFault
         /\ w_fs (snd r) !! dest = Some (body_of (chunks s))
         /\ w_fs (snd r) !! (dest +:+ ".part") = None
     | Raise e =>
         Z.of_nat a = remaining
         /\ fault_exn (stream_fault s) = Some e
         /\ w_fs (snd r) !! dest = before
         /\ forall b, leftover s = Some b ->
                      w_fs (snd r) !! (dest +:+ ".part") = Some b
     | OutOfFuel => False
     end.

(** The events of the loop over the entries: downloads and uploads. *)
Definition transfer_event (ev : event) : Prop :=
  match ev with
  | EvGet _ | EvSleep _ | EvUploadWheel _ | EvPost _ => True
  | _ => False
  end.

(** The events that follow a publish request: polls and sleeps. *)
Definition polling_event (ev : event) : Prop :=
  match ev with
  | EvPoll _ | EvSleep _ => True
  | _ => False
  end.

(** [c in s]. *)
Fixpoint has_char (c : ascii) (s : string) : bool :=
  match s with
  | EmptyString => false
  | String a s' => bool_decide (a = c) || has_char c s'
  end.

(** A registry without simple index, whose storage listing holds the files
    of two packages, a folder-like entry without [uri] and one with an empty
    [uri]. *)
Definition storage_env : Env := {|
  env_simple_index := fun _ _ =>
    inl (RequestException "404 Client Error: Not Found");
  env_storage_list := fun _ =>
    inr [Some "/other/other-2.0-py3.whl"; Some "/pkg/pkg-1.0.tar.gz";
         None; Some ""];
  env_feed_packages := env_feed_packages demo_env;
  env_get_stream := env_get_stream demo_env;
  env_post_file := env_post_file demo_env;
  env_post_publish := env_post_publish demo_env;
  env_get_operation := env_get_operation demo_env;
  env_save_fault := env_save_fault demo_env;
  env_duration := env_duration demo_env;
  env_sha256 := env_sha256 demo_env;
  env_json_dump := env_json_dump demo_env;
  env_json_load := env_json_load demo_env;
  env_repr := env_repr demo_env
|}.

(** * The command lines *)

(** ** upload_wheel_to_fabric.py: [_get_token] and [main] *)

(** What [azure.identity] offers: whether the package was imported, and
    the answer of [get_token] for a service principal (tenant, client,
    secret) and for the default credential. *)
Record identity : Type := {
  AZURE_IDENTITY_AVAILABLE : bool;
  client_secret_credential : string -> string -> string -> exn + string;
  default_azure_credential : exn + string
}.

(** The exceptions that leave [_get_token]: an [Exception] raised by the
    function itself, or the one of a credential. *)
Inductive auth_error : Type :=
| AuthException (msg : string)
| CredentialError (e : exn).

(** Truth value of an [Optional[str]]. *)
Definition str_truthy (o : option string) : bool :=
  match o with
  | Some s => negb (bool_decide (s = ""))
  | None => false
  end.

Definition _get_token (idn : identity) (use_default_credential : bool)
    (token client_id client_secret tenant_id : option string)
    : auth_error + string :=
  if str_truthy token then inr (default "" token)
  else if str_truthy client_id && str_truthy client_secret
          && str_truthy tenant_id then
    if negb (AZURE_IDENTITY_AVAILABLE idn) then
      inl (AuthException
             "Service principal authentication requires the 'azure-identity' package. Install it in your environment with: pip install azure-identity")
    else
      match client_secret_credential idn (default "" tenant_id)
              (default "" client_id) (default "" client_secret) with
      | inl e => inl (CredentialError e)
      | inr t => inr t
      end
  else if use_default_credential then
    if negb (AZURE_IDENTITY_AVAILABLE idn) then
      inl (AuthException
             "DefaultAzureCredential requires the 'azure-identity' package. Install it with: pip install azure-identity and ensure you have a valid login (az login) or managed identity.")
    else
      match default_azure_credential idn with
      | inl e => inl (CredentialError e)
      | inr t => inr t
      end
  else
    inl (AuthException
           "No authentication method available. Provide --token, or supply service principal credentials (--client-id, --client-secret, --tenant-id), or install 'azure-identity' and use --use-default-credential.").

Module UploadCli.

(** The parsed command line. *)
Record args : Type := Args {
  file : string;
  publish : bool;
  retries : Z;
  token : option string;
  client_id : option string;
  client_secret : option string;
  tenant_id : option string;
  use_default_credential : bool
}.

(** [main], by its exit status: [0] when it returns, [1] for
    [sys.exit(1)]. [SystemExit] is not an [Exception], so the [sys.exit(1)]
    of the [try] block goes through the handler; every exception, the one
    of [_get_token] included, ends in the handler's [sys.exit(1)]. *)
Definition main (env : Env) (idn : identity) (a : args) : M Z :=
  match _get_token idn (use_default_credential a) (token a) (client_id a)
          (client_secret a) (tenant_id a) with
  | inl _ => ret 1
  | inr _ =>
      catch
        (let* upload_result := upload_wheel env (file a) (retries a) in
         if negb (get_truthy (upload_result !! "success")) then ret 1
         else if publish a then
           let* publish_result := publish_environment env in
           if negb (get_truthy (publish_result !! "success")) then ret 1
           else ret 0
         else ret 0)
        (fun _ => ret 1)
  end.

End UploadCli.

(** No [azure.identity], and a usable one. *)
Definition no_identity : identity := {|
  AZURE_IDENTITY_AVAILABLE := false;
  client_secret_credential := fun _ _ _ => inl (ValueError "unavailable");
  default_azure_credential := inl (ValueError "unavailable")
|}.

(** ** The two mirror scripts: [main] *)

(** [c.isspace()] for an ASCII character. *)
Definition is_space (c : ascii) : bool :=
  let n := nat_of_ascii c in
  ((9 <=? n) && (n <=? 13) || (28 <=? n) && (n <=? 32))%nat.

(** [s.lstrip()], [s.rstrip()] and [s.strip()] on ASCII text. *)
Fixpoint lstrip (s : string) : string :=
  match s with
  | EmptyString => EmptyString
  | String c s' => if is_space c then lstrip s' else s
  end.

Fixpoint rstrip (s : string) : string :=
  match s with
  | EmptyString => EmptyString
  | String c s' =>
      match rstrip s' with
      | EmptyString => if is_space c then EmptyString else String c EmptyString
      | r => String c r
      end
  end.

Definition strip (s : string) : string := lstrip (rstrip s).

(** The lines of a file opened in text mode, without their terminators,
    which [strip] removes anyway: a line ends at a line feed or at a
    carriage return. The empty strings this gives between the two
    characters of a CR LF are dropped by the comprehension below. *)
Fixpoint lines_from (acc s : string) : list string :=
  match s with
  | EmptyString => if bool_decide (acc = "") then [] else [acc]
  | String c s' =>
      if bool_decide (c = "010"%char) || bool_decide (c = "013"%char)
      then acc :: lines_from "" s'
      else lines_from (acc +:+ String c EmptyString) s'
  end.

(** [[ln.strip() for ln in f if ln.strip()]]. *)
Definition package_names (text : string) : list string :=
  map strip
    (List.filter (fun ln => negb (bool_decide (strip ln = "")))
       (lines_from "" text)).

(** The options both scripts share. [upload_wheels_only_given] tells
    whether [--upload-wheels-only] is on the command line. *)
Record mirror_args : Type := MirrorArgs {
  package_name : option string;
  package_list_file : option string;
  cache : string;
  publish : bool;
  upload_wheels_only_given : bool;
  fabric_token : option string;
  fabric_client_id : option string;
  fabric_client_secret : option string;
  fabric_tenant_id : option string
}.

(** [args.upload_wheels_only]: the option is a [store_true] whose default
    is [True]. *)
Definition args_upload_wheels_only (a : mirror_args) : bool :=
  if upload_wheels_only_given a then true else true.

(** How a run of [main] ends when it does not raise one of the exceptions
    of the run: it returns, it calls [sys.exit], or the exception of
    [_get_token] leaves it. *)
Inductive run_end : Type :=
| Completed
| Exit (code : Z)
| AuthFailed (err : auth_error).

(** [pkg_iter]; [None] is the branch that exits. *)
Definition pkg_iter (a : mirror_args) : M (option (list string)) :=
  if str_truthy (package_name a)
  then ret (Some [default "" (package_name a)])
  else if str_truthy (package_list_file a) then
    let* text := file_read (default "" (package_list_file a)) in
    ret (Some (package_names text))
  else ret None.

(** The configuration [main] runs the packages with. *)
Definition config_of (state_filename : string) (a : mirror_args) : config :=
  Config (cache a) (path_join (cache a) state_filename)
         (args_upload_wheels_only a) (publish a).

(** The text both [main] functions share, [mirror_all] being the loop over
    the packages; [manager_imported] is [FabricEnvironmentManager is not
    None]. *)
Definition mirror_main (state_filename : string)
    (mirror_all : config -> list string -> M unit)
    (env : Env) (idn : identity) (manager_imported : bool) (a : mirror_args)
    : M run_end :=
  if negb manager_imported then ret (Exit 2)
  else
    match _get_token idn false (fabric_token a) (fabric_client_id a)
            (fabric_client_secret a) (fabric_tenant_id a) with
    | inl err => ret (AuthFailed err)
    | inr _ =>
        let cfg := config_of state_filename a in
        MirrorState.init env (state_path cfg) >>
        let* pkgs := pkg_iter a in
        match pkgs with
        | None => ret (Exit 2)
        | Some l => mirror_all cfg l >> ret Completed
        end
    end.

Module JfrogCli.

Definition STATE_FILENAME : string := "jfrog_mirror_state.json".

Definition main (env : Env) (idn : identity) (manager_imported : bool)
    (jfrog_base repo : string) (a : mirror_args) : M run_end :=
  mirror_main STATE_FILENAME
    (fun cfg => Jfrog.mirror_all env cfg jfrog_base repo)
    env idn manager_imported a.

End JfrogCli.

Module AzureCli.

Definition STATE_FILENAME : string := "azure_devops_mirror_state.json".

Definition main (env : Env) (idn : identity) (manager_imported : bool)
    (a : mirror_args) : M run_end :=
  mirror_main STATE_FILENAME (fun cfg => Azure.mirror_all env cfg)
    env idn manager_imported a.

End AzureCli.


(** The world the loop [for e in entries] leaves: the body is run on the
    entries in order, each from the world the one before it left. *)
Definition run_entries (env : Env) (cfg : config) (pkg_name : string)
    (l : list entry) (w : world) : world :=
  fold_left (fun w e => snd (process_entry env cfg pkg_name e w)) l w.

(** The only files fetched are those of the entries [l], and no listing is
    requested. *)
Definition fetches_only (l : list entry) (ev : event) : Prop :=
  match ev with
  | EvGet u => exists e, In e l /\ u = url e
  | EvIndex _ | EvStorage | EvFeed => False
  | _ => True
  end.

(** * Properties *)

(** ** Dictionaries and strings *)

Lemma dict_truthy_lookup (d : dict) (k : string) (v : pyval) :
  d !! k = Some v -> dict_truthy d = true.
Proof.
  intros Hk. unfold dict_truthy.
  destruct (map_to_list d) as [|p l] eqn:Hl; [|reflexivity].
  apply map_to_list_empty_iff in Hl. subst d.
  rewrite lookup_empty in Hk. discriminate.
Qed.

Lemma get_eq_str_true (v : option pyval) (s : string) :
  get_eq_str v s = true <-> v = Some (PStr s).
Proof.
  unfold get_eq_str. destruct v as [[| | |t| |]|]; try (split; congruence).
  rewrite bool_decide_eq_true. split; congruence.
Qed.

Lemma get_is_True_true (v : option pyval) :
  get_is_True v = true <-> v = Some (PBool true).
Proof.
  unfold get_is_True.
  destruct v as [[|[]| | | |]|]; split; congruence.
Qed.

(** ** The ledger *)

Lemma is_uploaded_true (data : gmap string dict) (pkg filename digest : string) :
  MirrorState.is_uploaded data pkg filename digest = true <->
  exists rec : dict,
    data !! MirrorState.key pkg filename = Some rec
    /\ rec !! "sha256" = Some (PStr digest)
    /\ rec !! "uploaded" = Some (PBool true).
Proof.
  unfold MirrorState.is_uploaded.
  destruct (data !! MirrorState.key pkg filename) as [rec|].
  - rewrite !andb_true_iff, get_eq_str_true, get_is_True_true. split.
    + intros [[_ Hs] Hu]. exists rec. auto.
    + intros (rec' & Heq & Hs & Hu). injection Heq as <-.
      split; [split|]; auto. eapply dict_truthy_lookup; eassumption.
  - split; [discriminate|]. intros (rec & Heq & _). discriminate.
Qed.

(** C3. [is_uploaded(pkg, filename, digest)] is true exactly when the
    ledger holds a record under the key of [(pkg, filename)] whose [sha256]
    field is [digest] and whose [uploaded] field is [True]; a record that
    holds another digest under the same key therefore answers false. *)
Theorem is_uploaded_spec (data : gmap string dict)
    (pkg filename digest : string) :
  (MirrorState.is_uploaded data pkg filename digest = true <->
   exists rec : dict,
     data !! MirrorState.key pkg filename = Some rec
     /\ rec !! "sha256" = Some (PStr digest)
     /\ rec !! "uploaded" = Some (PBool true))
  /\ (forall (rec : dict) (old : string),
        data !! MirrorState.key pkg filename = Some rec ->
        rec !! "sha256" = Some (PStr old) ->
        old <> digest ->
        MirrorState.is_uploaded data pkg filename digest = false).
Proof.
  split; [apply is_uploaded_true|].
  intros rec old Hrec Hold Hne.
  destruct (MirrorState.is_uploaded data pkg filename digest) eqn:E; [|reflexivity].
  apply is_uploaded_true in E. destruct E as (rec' & Hrec' & Hs & _).
  congruence.
Qed.

Lemma is_uploaded_spec_witness :
  MirrorState.is_uploaded stale_ledger "pkg" "pkg-1.0-py3.whl" "old" = true
  /\ MirrorState.is_uploaded stale_ledger "pkg" "pkg-1.0-py3.whl" "new" = false.
Proof.
  split.
  - apply (proj1 (is_uploaded_spec stale_ledger "pkg" "pkg-1.0-py3.whl" "old")).
    exists (MirrorState.record "old" ∅ 1700000000).
    split; [|split]; vm_compute; reflexivity.
  - apply (proj2 (is_uploaded_spec stale_ledger "pkg" "pkg-1.0-py3.whl" "new")
             (MirrorState.record "old" ∅ 1700000000) "old").
    + vm_compute; reflexivity.
    + vm_compute; reflexivity.
    + discriminate.
Defined.

Lemma set_uploaded_is_uploaded (data : gmap string dict)
    (pkg filename digest : string) (meta : dict) (ts : Z) :
  MirrorState.is_uploaded
    (MirrorState.set_uploaded data pkg filename digest meta ts)
    pkg filename digest = true.
Proof.
  apply is_uploaded_true. exists (MirrorState.record digest meta ts).
  unfold MirrorState.set_uploaded. rewrite lookup_insert_eq.
  split; [reflexivity|]. unfold MirrorState.record. split.
  - apply lookup_insert_eq.
  - rewrite lookup_insert_ne by discriminate. apply lookup_insert_eq.
Qed.

(** ** Relations kept by every step of a computation *)

Section Preserve.
Variable R : world -> world -> Prop.
Hypothesis R_refl : forall w, R w w.
Hypothesis R_trans : forall w1 w2 w3, R w1 w2 -> R w2 w3 -> R w1 w3.

Lemma preserves_ret {A} (a : A) : preserves R (ret a).
Proof. intros w. apply R_refl. Qed.

Lemma preserves_raise {A} (e : exn) : preserves R (@raise A e).
Proof. intros w. apply R_refl. Qed.

Lemma preserves_get_world : preserves R get_world.
Proof. intros w. apply R_refl. Qed.

Lemma preserves_time_time : preserves R time_time.
Proof. intros w. apply R_refl. Qed.

Lemma preserves_path_exists p : preserves R (path_exists p).
Proof. intros w. apply R_refl. Qed.

Lemma preserves_file_read p : preserves R (file_read p).
Proof. intros w. unfold file_read. destruct (w_fs w !! p); apply R_refl. Qed.

Lemma preserves_bind {A B} (m : M A) (k : A -> M B) :
  preserves R m -> (forall a, preserves R (k a)) -> preserves R (bind m k).
Proof.
  intros Hm Hk w. unfold bind. specialize (Hm w).
  destruct (m w) as [[a| |] w1]; simpl in *; auto.
  eapply R_trans; [exact Hm|]. apply Hk.
Qed.

Lemma preserves_catch {A} (m : M A) (h : exn -> M A) :
  preserves R m -> (forall e, preserves R (h e)) -> preserves R (catch m h).
Proof.
  intros Hm Hh w. unfold catch. specialize (Hm w).
  destruct (m w) as [[a|e|] w1]; simpl in *; auto.
  eapply R_trans; [exact Hm|]. apply Hh.
Qed.

Lemma preserves_for_each {A} (body : A -> M unit) (l : list A) :
  (forall x, preserves R (body x)) -> preserves R (for_each body l).
Proof.
  intros Hb. induction l as [|x l IH]; simpl.
  - apply preserves_ret.
  - apply preserves_bind; auto.
Qed.

Lemma preserves_if {A} (b : bool) (m1 m2 : M A) :
  preserves R m1 -> preserves R m2 -> preserves R (if b then m1 else m2).
Proof. destruct b; auto. Qed.
End Preserve.

(** Steps common to all the relations below. *)
Ltac preserve_step :=
  cbv beta;
  lazymatch goal with
  | |- preserves _ (ret _) => apply preserves_ret; solve [eauto]
  | |- preserves _ (raise _) => apply preserves_raise; solve [eauto]
  | |- preserves _ get_world => apply preserves_get_world; solve [eauto]
  | |- preserves _ time_time => apply preserves_time_time; solve [eauto]
  | |- preserves _ (path_exists _) => apply preserves_path_exists; solve [eauto]
  | |- preserves _ (file_read _) => apply preserves_file_read; solve [eauto]
  | |- preserves _ (bind _ _) =>
      apply preserves_bind; [solve [eauto] | | intros ?]
  | |- preserves _ (catch _ _) =>
      apply preserves_catch; [solve [eauto] | | intros ?]
  | |- preserves _ (for_each _ _) =>
      apply preserves_for_each; [solve [eauto] | solve [eauto] | intros ?]
  | |- preserves _ (if _ then _ else _) => apply preserves_if
  | |- _ => solve [auto 2]
  end.

(** *** The ledger dictionary changes only through [set_data] *)

Lemma same_data_refl w : same_data w w.
Proof. reflexivity. Qed.

Lemma same_data_trans w1 w2 w3 :
  same_data w1 w2 -> same_data w2 w3 -> same_data w1 w3.
Proof. unfold same_data. congruence. Qed.

#[local] Hint Resolve same_data_refl same_data_trans : core.

Lemma same_data_set_fs fs : preserves same_data (set_fs fs).
Proof. intros w. reflexivity. Qed.

Lemma same_data_file_create p : preserves same_data (file_create p).
Proof. intros w. reflexivity. Qed.

Lemma same_data_file_append p b : preserves same_data (file_append p b).
Proof. intros w. reflexivity. Qed.

Lemma same_data_file_move p q : preserves same_data (file_move p q).
Proof. intros w. unfold file_move. destruct (w_fs w !! p); reflexivity. Qed.

Lemma same_data_next_tick : preserves same_data next_tick.
Proof. intros w. reflexivity. Qed.

#[local] Hint Resolve same_data_file_create same_data_file_append
  same_data_file_move same_data_next_tick : core.

Lemma same_data_save env path : preserves same_data (MirrorState.save env path).
Proof.
  unfold MirrorState.save. cbv zeta.
  preserve_step; [preserve_step|].
  preserve_step; [auto|].
  destruct (env_save_fault env _); repeat preserve_step; auto.
Qed.

Lemma mark_uploaded_data (env : Env) (path : string) (w : world)
    (pkg filename digest : string) (metadata : dict) :
  w_data (snd (MirrorState.mark_uploaded env path pkg filename digest
                 metadata w))
  = MirrorState.set_uploaded (w_data w) pkg filename digest metadata (w_clock w).
Proof.
  unfold MirrorState.mark_uploaded, bind at 1 2 3. simpl.
  pose proof (same_data_save env path
    (World (w_fs w) (w_hist w) (w_clock w) (w_tick w) (w_events w)
       (MirrorState.set_uploaded (w_data w) pkg filename digest metadata
          (w_clock w)))) as Hs.
  unfold same_data in Hs. simpl in Hs.
  destruct (MirrorState.save env path _) as [[[]|e|] w1] eqn:E; simpl in *;
    exact Hs.
Qed.

(** C5. After [mark_uploaded(pkg, filename, digest, metadata)], whether or
    not writing the ledger file went through, [is_uploaded(pkg, filename,
    digest)] is true on the ledger object. *)
Theorem mark_uploaded_is_uploaded (env : Env) (path : string) (w : world)
    (pkg filename digest : string) (metadata : dict) :
  MirrorState.is_uploaded
    (w_data (snd (MirrorState.mark_uploaded env path pkg filename digest
                    metadata w)))
    pkg filename digest = true.
Proof. rewrite mark_uploaded_data. apply set_uploaded_is_uploaded. Qed.

(** C9. Records are addressed by [pkg + ":" + filename] alone: when two
    pairs give the same string, marking one makes the other read as
    uploaded, although it was never uploaded. *)
Theorem ledger_key_aliasing (env : Env) (path : string) (w : world)
    (p1 f1 p2 f2 d : string) (m : dict) :
  p1 +:+ ":" +:+ f1 = p2 +:+ ":" +:+ f2 ->
  MirrorState.is_uploaded
    (w_data (snd (MirrorState.mark_uploaded env path p1 f1 d m w)))
    p2 f2 d = true.
Proof.
  intros Hk. rewrite mark_uploaded_data.
  pose proof (set_uploaded_is_uploaded (w_data w) p1 f1 d m (w_clock w)) as H.
  unfold MirrorState.is_uploaded, MirrorState.key in *.
  rewrite <- Hk. exact H.
Qed.

Lemma ledger_key_aliasing_witness :
  ("a:b", "c") <> ("a", "b:c")
  /\ MirrorState.is_uploaded
       (w_data (snd (MirrorState.mark_uploaded offline "state.json"
                       "a:b" "c" "d1" ∅ empty_world)))
       "a" "b:c" "d1" = true.
Proof.
  split; [discriminate|].
  apply (ledger_key_aliasing offline "state.json" empty_world
           "a:b" "c" "a" "b:c" "d1" ∅).
  reflexivity.
Defined.

(** ** Events added by a computation *)

Lemma emits_refl P w : emits P w w.
Proof. exists []. rewrite app_nil_r. auto. Qed.

Lemma emits_trans P w1 w2 w3 : emits P w1 w2 -> emits P w2 w3 -> emits P w1 w3.
Proof.
  intros (n1 & E1 & F1) (n2 & E2 & F2). exists (n1 ++ n2).
  rewrite E2, E1, app_assoc. split; [reflexivity|]. apply Forall_app; auto.
Qed.

#[local] Hint Resolve emits_refl emits_trans : core.

Lemma emits_same_events P w w' : w_events w' = w_events w -> emits P w w'.
Proof. intros E. exists []. rewrite app_nil_r. auto. Qed.

Lemma emits_time_sleep (P : event -> Prop) n :
  P (EvSleep n) -> preserves (emits P) (time_sleep n).
Proof. intros H w. exists [EvSleep n]. simpl. auto. Qed.

Lemma emits_set_fs P fs : preserves (emits P) (set_fs fs).
Proof. intros w. apply emits_same_events. reflexivity. Qed.

Lemma emits_file_create P p : preserves (emits P) (file_create p).
Proof. intros w. apply emits_same_events. reflexivity. Qed.

Lemma emits_file_append P p b : preserves (emits P) (file_append p b).
Proof. intros w. apply emits_same_events. reflexivity. Qed.

Lemma emits_file_move P p q : preserves (emits P) (file_move p q).
Proof.
  intros w. apply emits_same_events. unfold file_move.
  destruct (w_fs w !! p); reflexivity.
Qed.

Lemma emits_next_tick P : preserves (emits P) next_tick.
Proof. intros w. apply emits_same_events. reflexivity. Qed.

Lemma emits_set_data P d : preserves (emits P) (set_data d).
Proof. intros w. apply emits_same_events. reflexivity. Qed.

Lemma emits_external (P : event -> Prop) ev env :
  P ev -> preserves (emits P) (external ev env).
Proof. intros H w. exists [ev]. simpl. auto. Qed.

Lemma emits_journal (P : event -> Prop) ev :
  P ev -> preserves (emits P) (journal ev).
Proof. intros H w. exists [ev]. simpl. auto. Qed.

#[local] Hint Resolve emits_time_sleep emits_set_fs emits_file_create
  emits_file_append emits_file_move emits_next_tick emits_set_data
  emits_external emits_journal : core.

Lemma emits_write_chunks P tmp cs : preserves (emits P) (write_chunks tmp cs).
Proof.
  induction cs as [|c cs IH]; simpl; repeat preserve_step; auto.
Qed.

#[local] Hint Resolve emits_write_chunks : core.

Lemma emits_download_attempt (P : event -> Prop) env url dest :
  P (EvGet url) -> preserves (emits P) (download_attempt env url dest).
Proof.
  intros H. unfold download_attempt. cbv zeta.
  preserve_step; [auto|].
  destruct (stream_fault _); repeat preserve_step; auto.
Qed.

Lemma emits_download_loop (P : event -> Prop) env url dest max_retries n :
  (forall n, P (EvSleep n)) ->
  P (EvGet url) ->
  forall attempts,
    preserves (emits P) (download_loop env url dest max_retries n attempts).
Proof.
  intros Hs.
  intros H. induction n as [|n IH]; intros attempts; simpl.
  - preserve_step.
  - preserve_step; [|preserve_step]. cbv zeta.
    preserve_step; [apply emits_download_attempt; auto|].
    repeat preserve_step; auto.
Qed.

Lemma emits_download (P : event -> Prop) env url dest max_retries :
  (forall n, P (EvSleep n)) ->
  P (EvGet url) ->
  preserves (emits P) (download_url_to_path env url dest max_retries).
Proof.
  intros Hs. intros H. apply emits_download_loop; auto. Qed.

Lemma emits_save P env path : preserves (emits P) (MirrorState.save env path).
Proof.
  unfold MirrorState.save. cbv zeta.
  preserve_step; [preserve_step|].
  preserve_step; [auto|].
  destruct (env_save_fault env _); repeat preserve_step; auto.
Qed.

#[local] Hint Resolve emits_download emits_save : core.

Lemma emits_mark_uploaded P env path pkg f d m :
  preserves (emits P) (MirrorState.mark_uploaded env path pkg f d m).
Proof. unfold MirrorState.mark_uploaded. repeat preserve_step. Qed.

Lemma emits_attempt_upload (P : event -> Prop) env path name :
  P (EvPost path) -> preserves (emits P) (_attempt_upload env path name).
Proof.
  intros H. unfold _attempt_upload.
  preserve_step; [preserve_step|].
  preserve_step; [auto|].
  destruct (env_post_file _ _ _); preserve_step.
Qed.

Lemma emits_upload_step (P : event -> Prop) env path name max_retries attempt :
  (forall n, P (EvSleep n)) ->
  P (EvPost path) ->
  preserves (emits P) (upload_step env path name max_retries attempt).
Proof.
  intros Hs.
  intros H. unfold upload_step.
  preserve_step.
  - preserve_step; [apply emits_attempt_upload; auto|].
    repeat preserve_step; auto.
  - repeat preserve_step; auto.
Qed.

Lemma emits_upload_loop (P : event -> Prop) env path name max_retries l :
  (forall n, P (EvSleep n)) ->
  P (EvPost path) ->
  preserves (emits P) (upload_loop env path name max_retries l).
Proof.
  intros Hs.
  intros H. induction l as [|a l IH]; simpl.
  - preserve_step.
  - preserve_step; [apply emits_upload_step; auto|].
    destruct a0; [preserve_step|auto].
Qed.

Lemma emits_upload_wheel (P : event -> Prop) env path max_retries :
  (forall n, P (EvSleep n)) ->
  P (EvUploadWheel path) -> P (EvPost path) ->
  preserves (emits P) (upload_wheel env path max_retries).
Proof.
  intros Hs.
  intros H1 H2. unfold upload_wheel.
  preserve_step; [auto|].
  preserve_step; [preserve_step|].
  preserve_step; [preserve_step|].
  apply emits_upload_loop; auto.
Qed.

#[local] Hint Resolve emits_mark_uploaded emits_upload_wheel : core.

Lemma emits_poll_step (P : event -> Prop) env id :
  (forall n, P (EvSleep n)) ->
  P (EvPoll id) -> preserves (emits P) (poll_step env id).
Proof.
  intros Hs.
  intros H. unfold poll_step.
  preserve_step; [|repeat preserve_step].
  preserve_step; [auto|].
  destruct (env_get_operation _ _ _) as [e|r]; [preserve_step|].
  preserve_step; [|repeat preserve_step].
  destruct (json r) as [[| | | | |d]|]; cbv zeta; repeat preserve_step.
Qed.

Lemma emits_wait_loop (P : event -> Prop) env id max_wait start fuel :
  (forall n, P (EvSleep n)) ->
  P (EvPoll id) -> preserves (emits P) (wait_loop env id max_wait start fuel).
Proof.
  intros Hs.
  intros H. induction fuel as [|fuel IH]; simpl.
  - intros w. apply emits_refl.
  - preserve_step; [preserve_step|].
    preserve_step; [|preserve_step].
    preserve_step; [apply emits_poll_step; auto|].
    destruct a0; [preserve_step|auto].
Qed.

Lemma emits_wait_for_publish (P : event -> Prop) env id max_wait :
  (forall n, P (EvSleep n)) ->
  P (EvPoll id) ->
  preserves (emits P) (_wait_for_publish_completion env id max_wait).
Proof.
  intros Hs.
  intros H. unfold _wait_for_publish_completion.
  preserve_step; [preserve_step|].
  preserve_step; [preserve_step|]. apply emits_wait_loop; auto.
Qed.

Lemma emits_publish_environment (P : event -> Prop) env :
  (forall n, P (EvSleep n)) ->
  P EvPublish -> (forall id, P (EvPoll id)) ->
  preserves (emits P) (publish_environment env).
Proof.
  intros Hs.
  intros H1 H2. unfold publish_environment.
  preserve_step; [auto|].
  destruct (env_post_publish _ _) as [e|r]; [preserve_step|].
  preserve_step; [|cbv zeta; preserve_step].
  preserve_step; [|preserve_step].
  destruct (headers_get _ _); [|preserve_step].
  preserve_step; [|preserve_step].
  apply emits_wait_for_publish; auto.
Qed.

Lemma only_wheels_process_entry env cfg pkg e :
  upload_wheels_only cfg = true ->
  preserves (emits (only_wheels cfg)) (process_entry env cfg pkg e).
Proof.
  intros Hpol. unfold process_entry. cbv zeta.
  preserve_step; [preserve_step|].
  preserve_step.
  { preserve_step; [preserve_step|].
    preserve_step; [|intros; preserve_step].
    preserve_step; [|preserve_step]. apply emits_download; simpl; auto. }
  preserve_step; [preserve_step|].
  preserve_step; [unfold sha256_of_file; repeat preserve_step|].
  preserve_step; [preserve_step|].
  preserve_step; [preserve_step|].
  rewrite Hpol. cbn [andb].
  destruct (endswith (lower (filename e)) ".whl") eqn:Hw; cbn [negb];
    [|preserve_step].
  assert (Hp : forall ev, ev = EvUploadWheel (path_join (cache_dir cfg) (filename e))
                       \/ ev = EvPost (path_join (cache_dir cfg) (filename e)) ->
                       only_wheels cfg ev).
  { intros ev [-> | ->]; simpl; eauto. }
  preserve_step; [|preserve_step].
  preserve_step; [apply emits_upload_wheel; simpl; eauto|].
  preserve_step; preserve_step.
Qed.

Lemma only_wheels_publish_step env cfg :
  preserves (emits (only_wheels cfg)) (publish_step env cfg).
Proof.
  unfold publish_step. preserve_step; [|preserve_step].
  preserve_step; [|preserve_step].
  preserve_step; [|preserve_step].
  apply emits_publish_environment; simpl; auto.
Qed.

Lemma only_wheels_mirror_entries env cfg pkg entries :
  upload_wheels_only cfg = true ->
  preserves (emits (only_wheels cfg)) (mirror_entries env cfg pkg entries).
Proof.
  intros Hpol. unfold mirror_entries. cbv zeta.
  destruct (candidates entries) as [|e l]; [preserve_step|].
  preserve_step; [|apply only_wheels_publish_step].
  apply preserves_for_each; eauto.
  intros x. apply only_wheels_process_entry; auto.
Qed.

Lemma emits_simple_index (P : event -> Prop) env pkg :
  P (EvIndex pkg) -> preserves (emits P) (simple_index env pkg).
Proof.
  intros H. unfold simple_index. preserve_step; [auto|].
  destruct (env_simple_index _ _ _); preserve_step.
Qed.

Lemma only_wheels_mirror_package_from_jfrog env cfg base repo pkg :
  upload_wheels_only cfg = true ->
  preserves (emits (only_wheels cfg))
    (Jfrog.mirror_package_from_jfrog env cfg base repo pkg).
Proof.
  intros Hpol. unfold Jfrog.mirror_package_from_jfrog.
  preserve_step; [|apply only_wheels_mirror_entries; auto].
  preserve_step.
  - preserve_step; [apply emits_simple_index; exact I|preserve_step].
  - preserve_step; [|preserve_step].
    unfold Jfrog.artifactory_list. preserve_step; [apply emits_external; exact I|].
    destruct (env_storage_list _ _); preserve_step.
Qed.

Lemma only_wheels_mirror_package_from_azure env cfg pkg :
  upload_wheels_only cfg = true ->
  preserves (emits (only_wheels cfg))
    (Azure.mirror_package_from_azure env cfg pkg).
Proof.
  intros Hpol. unfold Azure.mirror_package_from_azure.
  preserve_step.
  - unfold Azure.resolve. preserve_step.
    + preserve_step; [apply emits_simple_index; exact I|preserve_step].
    + preserve_step; [|preserve_step].
      preserve_step.
      * unfold Azure.azure_devops_list_packages_via_api.
        preserve_step; [apply emits_external; exact I|].
        destruct (env_feed_packages _ _); preserve_step.
      * preserve_step; [preserve_step|].
        preserve_step; [apply emits_simple_index; exact I|preserve_step].
  - destruct a; [apply only_wheels_mirror_entries; auto|preserve_step].
Qed.

(** ** Extension filtering *)

Lemma append_nil_l (s : string) : "" +:+ s = s.
Proof. reflexivity. Qed.

Lemma append_cons (c : ascii) (s t : string) :
  String c s +:+ t = String c (s +:+ t).
Proof. reflexivity. Qed.

Lemma endswith_spec (s suf : string) :
  endswith s suf = true <-> exists p, s = p +:+ suf.
Proof.
  induction s as [|c s IH]; simpl.
  - case_bool_decide as E.
    + split; [|reflexivity]. intros _. exists "". exact E.
    + split; [discriminate|]. intros [p Hp].
      destruct p; [rewrite append_nil_l in Hp; congruence|].
      rewrite append_cons in Hp. discriminate.
  - case_bool_decide as E.
    + split; [|reflexivity]. intros _. exists "". exact E.
    + rewrite IH. split.
      * intros [p Hp]. exists (String c p). rewrite append_cons. congruence.
      * intros [p Hp]. destruct p as [|c' p].
        { rewrite append_nil_l in Hp. congruence. }
        rewrite append_cons in Hp. injection Hp as _ Hp. eauto.
Qed.

Lemma candidates_spec (entries : list entry) (e : entry) :
  In e (candidates entries) <->
  In e entries
  /\ exists ext, In ext VALID_DISTS
                 /\ exists p, lower (filename e) = p +:+ ext.
Proof.
  unfold candidates. rewrite filter_In. unfold endswith_any.
  rewrite existsb_exists. split.
  - intros [Hin (ext & Hext & Hs)]. split; [exact Hin|].
    exists ext. split; [exact Hext|]. apply endswith_spec. exact Hs.
  - intros [Hin (ext & Hext & Hs)]. split; [exact Hin|].
    exists ext. split; [exact Hext|]. apply endswith_spec. exact Hs.
Qed.

(** *** An entry that is not a wheel is fetched but never uploaded *)

Lemma starts_with_emits ev P w1 w2 w3 :
  starts_with ev P w1 w2 -> emits P w2 w3 -> starts_with ev P w1 w3.
Proof.
  intros (r1 & E1 & F1) (r2 & E2 & F2). exists (r1 ++ r2).
  rewrite E2, E1, <- app_assoc. split; [reflexivity|]. apply Forall_app; auto.
Qed.

Lemma starts_with_bind {A B} ev P (m : M A) (k : A -> M B) :
  (forall w, starts_with ev P w (snd (m w))) ->
  (forall a, preserves (emits P) (k a)) ->
  forall w, starts_with ev P w (snd (bind m k w)).
Proof.
  intros Hm Hk w. unfold bind. specialize (Hm w).
  destruct (m w) as [[a| |] w1]; simpl in *; auto.
  eapply starts_with_emits; [exact Hm|]. apply Hk.
Qed.

Lemma starts_with_catch {A} ev P (m : M A) (h : exn -> M A) :
  (forall w, starts_with ev P w (snd (m w))) ->
  (forall e, preserves (emits P) (h e)) ->
  forall w, starts_with ev P w (snd (catch m h w)).
Proof.
  intros Hm Hh w. unfold catch. specialize (Hm w).
  destruct (m w) as [[a|e|] w1]; simpl in *; auto.
  eapply starts_with_emits; [exact Hm|]. apply Hh.
Qed.

Lemma starts_with_external ev (P : event -> Prop) env w :
  starts_with ev P w (snd (external ev env w)).
Proof. exists []. simpl. auto. Qed.

Lemma download_loop_S env url dest max_retries n attempts :
  download_loop env url dest max_retries (S n) attempts =
  if attempts <? max_retries then
    catch (download_attempt env url dest)
      (fun e =>
         if attempts + 1 >=? max_retries then raise e
         else time_sleep (2 ^ (attempts + 1 - 1))
              >> download_loop env url dest max_retries n (attempts + 1))
  else ret tt.
Proof. reflexivity. Qed.

Lemma starts_with_download (P : event -> Prop) env url dest w :
  (forall n, P (EvSleep n)) ->
  P (EvGet url) ->
  starts_with (EvGet url) P w (snd (download_url_to_path env url dest 3 w)).
Proof.
  intros Hs HP. unfold download_url_to_path.
  change (Z.to_nat 3) with 3%nat. rewrite download_loop_S.
  change (0 <? 3) with true. cbv iota.
  apply starts_with_catch.
  - intros w0. unfold download_attempt. cbv zeta.
    apply starts_with_bind; [intros; apply starts_with_external|].
    intros t. destruct (stream_fault _); repeat preserve_step.
  - intros e. preserve_step; [preserve_step|].
    preserve_step; [preserve_step|]. apply emits_download_loop; auto.
Qed.

Lemma same_data_time_sleep n : preserves same_data (time_sleep n).
Proof. intros w. reflexivity. Qed.

Lemma same_data_external ev env : preserves same_data (external ev env).
Proof. intros w. reflexivity. Qed.

Lemma same_data_journal ev : preserves same_data (journal ev).
Proof. intros w. reflexivity. Qed.

#[local] Hint Resolve same_data_time_sleep same_data_external
  same_data_journal : core.

Lemma same_data_write_chunks tmp cs : preserves same_data (write_chunks tmp cs).
Proof. induction cs as [|c cs IH]; simpl; repeat preserve_step. Qed.

#[local] Hint Resolve same_data_write_chunks : core.

Lemma same_data_download_attempt env url dest :
  preserves same_data (download_attempt env url dest).
Proof.
  unfold download_attempt. cbv zeta. preserve_step; [auto|].
  destruct (stream_fault _); repeat preserve_step.
Qed.

Lemma same_data_download_loop env url dest max_retries n :
  forall attempts,
    preserves same_data (download_loop env url dest max_retries n attempts).
Proof.
  induction n as [|n IH]; intros attempts; simpl.
  - preserve_step.
  - preserve_step; [|preserve_step]. cbv zeta.
    preserve_step; [apply same_data_download_attempt|].
    repeat preserve_step.
Qed.

Lemma same_data_download env url dest max_retries :
  preserves same_data (download_url_to_path env url dest max_retries).
Proof. apply same_data_download_loop. Qed.

#[local] Hint Resolve same_data_download : core.


Lemma same_data_sha256_of_file env p : preserves same_data (sha256_of_file env p).
Proof. unfold sha256_of_file. repeat preserve_step. Qed.

Lemma emits_sha256_of_file P env p : preserves (emits P) (sha256_of_file env p).
Proof. unfold sha256_of_file. repeat preserve_step. Qed.

#[local] Hint Resolve same_data_sha256_of_file emits_sha256_of_file : core.

Section NonWheel.
Variables (env : Env) (cfg : config) (pkg : string) (e : entry).
Hypothesis Hpol : upload_wheels_only cfg = true.
Hypothesis Hext : endswith (lower (filename e)) ".whl" = false.

Lemma non_wheel_events :
  preserves (emits (only_get e)) (process_entry env cfg pkg e).
Proof.
  unfold process_entry. cbv zeta.
  preserve_step; [preserve_step|].
  preserve_step.
  { preserve_step; [preserve_step|].
    preserve_step; [|preserve_step].
    preserve_step; [|preserve_step]. apply emits_download; simpl; auto. }
  preserve_step; [preserve_step|].
  preserve_step; [preserve_step|].
  preserve_step; [preserve_step|].
  preserve_step; [preserve_step|].
  rewrite Hpol, Hext. simpl. preserve_step.
Qed.

Lemma non_wheel_data :
  preserves same_data (process_entry env cfg pkg e).
Proof.
  unfold process_entry. cbv zeta.
  preserve_step; [preserve_step|].
  preserve_step.
  { preserve_step; [preserve_step|].
    preserve_step; [|preserve_step].
    preserve_step; [|preserve_step]. auto. }
  preserve_step; [preserve_step|].
  preserve_step; [preserve_step|].
  preserve_step; [preserve_step|].
  preserve_step; [preserve_step|].
  rewrite Hpol, Hext. simpl. preserve_step.
Qed.

Lemma non_wheel_fetched (w : world) :
  w_fs w !! path_join (cache_dir cfg) (filename e) = None ->
  starts_with (EvGet (url e)) (only_get e) w
    (snd (process_entry env cfg pkg e w)).
Proof.
  intros Habs. unfold process_entry. cbv zeta.
  unfold bind at 1. unfold path_exists.
  rewrite bool_decide_eq_false_2
    by (rewrite Habs; intros [x Hx]; discriminate).
  apply starts_with_bind.
  - intros w0. apply starts_with_catch.
    + intros w1. apply starts_with_bind.
      * intros w2. apply starts_with_download; simpl; auto.
      * intros a. preserve_step.
    + intros x. preserve_step.
  - intros present.
    preserve_step; [preserve_step|].
    preserve_step; [preserve_step|].
    preserve_step; [preserve_step|].
    preserve_step; [preserve_step|].
    rewrite Hpol, Hext. cbn [andb negb]. preserve_step.
Qed.
End NonWheel.

Lemma only_wheels_mirror_all_jfrog env cfg base repo pkgs :
  upload_wheels_only cfg = true ->
  preserves (emits (only_wheels cfg)) (Jfrog.mirror_all env cfg base repo pkgs).
Proof.
  intros Hpol. unfold Jfrog.mirror_all. apply preserves_for_each; eauto.
  intros pkg. apply only_wheels_mirror_package_from_jfrog; auto.
Qed.

Lemma only_wheels_mirror_all_azure env cfg pkgs :
  upload_wheels_only cfg = true ->
  preserves (emits (only_wheels cfg)) (Azure.mirror_all env cfg pkgs).
Proof.
  intros Hpol. unfold Azure.mirror_all. apply preserves_for_each; eauto.
  intros pkg. apply only_wheels_mirror_package_from_azure; auto.
Qed.

Example demo_run_events :
  let r := Jfrog.mirror_package_from_jfrog demo_env demo_cfg "https://r" "repo"
             "pkg" empty_world in
  fst r = Ret tt
  /\ w_events (snd r)
     = [EvIndex "pkg"; EvGet "https://r/pkg-1.0-py3.whl";
        EvUploadWheel "cache/pkg-1.0-py3.whl"; EvPost "cache/pkg-1.0-py3.whl";
        EvGet "https://r/pkg-1.0.tar.gz?x=1"]
  /\ map_to_list (w_fs (snd r))
     = [("cache/jfrog_mirror_state.json", "{}");
        ("cache/pkg-1.0-py3.whl", "bytes"); ("cache/pkg-1.0.tar.gz", "bytes")].
Proof. vm_compute. auto. Qed.


(** ** Batch resilience *)


(** Under [mirror_package_from_azure] a failing resolution (the feed
    listing raises, or does not list the package, or the second reading of
    the index raises) ends the package normally: files and ledger are as
    before and only listing requests were made. *)
Lemma azure_resolution_failure_returns env cfg pkg w e1 :
  env_simple_index env (w_tick w) pkg = inl e1 ->
  match env_feed_packages env (S (w_tick w)) with
  | inl _ => True
  | inr names =>
      pkg ∉ names
      \/ exists e, env_simple_index env (S (S (w_tick w))) pkg = inl e
  end ->
  let r := Azure.mirror_package_from_azure env cfg pkg w in
  fst r = Ret tt
  /\ w_fs (snd r) = w_fs w /\ w_data (snd r) = w_data w
  /\ emits (fun ev => ev = EvIndex pkg \/ ev = EvFeed) w (snd r).
Proof.
  intros H1 H2. cbv zeta.
  unfold Azure.mirror_package_from_azure, Azure.resolve, bind, catch,
    simple_index, Azure.azure_devops_list_packages_via_api, bind, external.
  simpl. rewrite H1. simpl.
  destruct (env_feed_packages env (S (w_tick w))) as [e'|names] eqn:Hf; simpl.
  - repeat split; auto. exists [EvIndex pkg; EvFeed]. simpl.
    rewrite <- app_assoc. split; [reflexivity|].
    repeat (apply List.Forall_cons; [auto|]); apply List.Forall_nil.
  - case_bool_decide as Hin; simpl.
    + destruct H2 as [Hni|[e Hc]]; [contradiction|].
      rewrite Hc. simpl. repeat split; auto.
      exists [EvIndex pkg; EvFeed; EvIndex pkg]. simpl.
      rewrite <- !app_assoc. split; [reflexivity|].
      repeat (apply List.Forall_cons; [auto|]); apply List.Forall_nil.
    + repeat split; auto. exists [EvIndex pkg; EvFeed]. simpl.
      rewrite <- app_assoc. split; [reflexivity|].
    repeat (apply List.Forall_cons; [auto|]); apply List.Forall_nil.
Qed.

(** C2. With three packages of which the second cannot be resolved (index
    and fallback both raise), the JFrog run ends with the exception of the
    fallback after the second package and never looks at the third; the
    Azure DevOps run on the same registry skips the second package and
    uploads the wheels of the first and the third. *)
Theorem jfrog_batch_aborts_on_failed_resolution :
  let j := Jfrog.mirror_all broken_env demo_cfg "https://r" "repo"
             ["p1"; "p2"; "p3"] empty_world in
  let a := Azure.mirror_all broken_env demo_cfg ["p1"; "p2"; "p3"]
             empty_world in
  fst j = Raise (RequestException "500 Server Error")
  /\ w_events (snd j)
     = [EvIndex "p1"; EvGet "https://r/p1-1.0-py3.whl";
        EvUploadWheel "cache/p1-1.0-py3.whl"; EvPost "cache/p1-1.0-py3.whl";
        EvIndex "p2"; EvStorage]
  /\ fst a = Ret tt
  /\ w_events (snd a)
     = [EvIndex "p1"; EvGet "https://r/p1-1.0-py3.whl";
        EvUploadWheel "cache/p1-1.0-py3.whl"; EvPost "cache/p1-1.0-py3.whl";
        EvIndex "p2"; EvFeed;
        EvIndex "p3"; EvGet "https://r/p3-1.0-py3.whl";
        EvUploadWheel "cache/p3-1.0-py3.whl"; EvPost "cache/p3-1.0-py3.whl"].
Proof. vm_compute. auto. Qed.

(** ** The uploader *)

Lemma upload_result_success env name r :
  get_truthy (upload_result_of env name r !! "success") = (status_code r =? 200).
Proof.
  unfold upload_result_of. destruct (status_code r =? 200); reflexivity.
Qed.

Lemma upload_exhausted_success max_retries name e :
  get_truthy (upload_exhausted max_retries name e !! "success") = false.
Proof. reflexivity. Qed.

Lemma failure_of_success env max_retries name o :
  attempt_fails o ->
  get_truthy (failure_of env max_retries name o !! "success") = false.
Proof.
  destruct o as [e|r]; simpl; intros H.
  - apply upload_exhausted_success.
  - rewrite upload_result_success. apply Z.eqb_neq. exact H.
Qed.

(** What one pass of the loop does, by the answer of the environment. *)
Lemma upload_step_eq env path name max_retries attempt w b :
  w_fs w !! path = Some b ->
  upload_step env path name max_retries attempt w =
  let w1 := snd (external (EvPost path) env w) in
  let o := env_post_file env (w_tick w) path in
  match o with
  | inr r =>
      if status_code r =? 200
      then (Ret (Some (upload_result_of env name r)), w1)
      else if attempt =? max_retries - 1
           then (Ret (Some (failure_of env max_retries name o)), w1)
           else (Ret None, snd (time_sleep (2 ^ attempt) w1))
  | inl e =>
      if attempt =? max_retries - 1
      then (Ret (Some (failure_of env max_retries name o)), w1)
      else (Ret None, snd (time_sleep (2 ^ attempt) w1))
  end.
Proof.
  intros Hfs. cbv zeta.
  unfold upload_step, catch, bind, _attempt_upload, bind, file_read.
  rewrite Hfs. cbn [external fst snd].
  destruct (env_post_file env (w_tick w) path) as [e|r]; cbn [raise ret].
  - destruct (attempt =? max_retries - 1); reflexivity.
  - rewrite upload_result_success.
    destruct (status_code r =? 200); [reflexivity|].
    destruct (attempt =? max_retries - 1); reflexivity.
Qed.
Lemma retry_journal_cons ev k a :
  retry_journal ev k (S (S a))
  = ev :: EvSleep (2 ^ k) :: retry_journal ev (k + 1) (S a).
Proof. reflexivity. Qed.

Lemma upload_fallthrough_success max_retries name :
  get_truthy (upload_fallthrough max_retries name !! "success") = false.
Proof. reflexivity. Qed.

Lemma upload_loop_runs env path name mr b :
  forall n k w,
    w_fs w !! path = Some b ->
    (n = 0%nat \/ Z.of_nat (k + n) = mr) ->
    exists a d w',
      upload_loop env path name mr (map Z.of_nat (seq k n)) w = (Ret d, w')
      /\ (a <= n)%nat /\ (n <> 0%nat -> (1 <= a)%nat)
      /\ w_events w' = w_events w ++ retry_journal (EvPost path) (Z.of_nat k) a
      /\ w_fs w' = w_fs w
      /\ w_tick w' = (w_tick w + a)%nat
      /\ ((forall t, attempt_fails (env_post_file env t path)) ->
          a = n /\ get_truthy (d !! "success") = false
          /\ (n <> 0%nat ->
              d = failure_of env mr name
                    (env_post_file env (w_tick w + n - 1)%nat path))).
Proof.
  induction n as [|n IH]; intros k w Hfs Hk.
  - exists 0%nat, (upload_fallthrough mr name), w. simpl.
    rewrite app_nil_r, Nat.add_0_r.
    repeat match goal with |- _ /\ _ => split end; auto; try lia.
    intros _. repeat match goal with |- _ /\ _ => split end; auto.
    intros Hn. congruence.
  - destruct Hk as [Hk|Hk]; [discriminate|].
    assert (Hlast : (Z.of_nat k =? mr - 1) = bool_decide (n = 0%nat)).
    { case_bool_decide; [apply Z.eqb_eq|apply Z.eqb_neq]; lia. }
    (* the pass ends the loop with result d *)
    assert (Hstop : forall d,
      ((forall t, attempt_fails (env_post_file env t path)) ->
        n = 0%nat /\ d = failure_of env mr name
                      (env_post_file env (w_tick w) path)) ->
      exists a d' w',
        (Ret d, snd (external (EvPost path) env w)) = (Ret d', w')
        /\ (a <= S n)%nat /\ (S n <> 0%nat -> (1 <= a)%nat)
        /\ w_events w' = w_events w ++ retry_journal (EvPost path) (Z.of_nat k) a
        /\ w_fs w' = w_fs w
        /\ w_tick w' = (w_tick w + a)%nat
        /\ ((forall t, attempt_fails (env_post_file env t path)) ->
            a = S n /\ get_truthy (d' !! "success") = false
            /\ (S n <> 0%nat ->
                d' = failure_of env mr name
                      (env_post_file env (w_tick w + S n - 1)%nat path)))).
    { intros d Hd. exists 1%nat, d, (snd (external (EvPost path) env w)).
      repeat match goal with |- _ /\ _ => split end; auto;
        try (simpl; lia).
      intros H. destruct (Hd H) as [-> ->].
      repeat match goal with |- _ /\ _ => split end; auto.
      - apply failure_of_success. apply H.
      - intros _. do 2 f_equal. lia. }
    cbn [seq map upload_loop]. unfold bind at 1.
    rewrite (upload_step_eq env path name mr (Z.of_nat k) w b Hfs). cbv zeta.
    rewrite Hlast.
    (* the pass sleeps and the loop goes on *)
    assert (Hgo : n <> 0%nat ->
      exists a d' w',
        upload_loop env path name mr (map Z.of_nat (seq (S k) n))
          (snd (time_sleep (2 ^ Z.of_nat k)
                  (snd (external (EvPost path) env w)))) = (Ret d', w')
        /\ (a <= S n)%nat /\ (S n <> 0%nat -> (1 <= a)%nat)
        /\ w_events w' = w_events w ++ retry_journal (EvPost path) (Z.of_nat k) a
        /\ w_fs w' = w_fs w
        /\ w_tick w' = (w_tick w + a)%nat
        /\ ((forall t, attempt_fails (env_post_file env t path)) ->
            a = S n /\ get_truthy (d' !! "success") = false
            /\ (S n <> 0%nat ->
                d' = failure_of env mr name
                      (env_post_file env (w_tick w + S n - 1)%nat path)))).
    { intros Hn.
      destruct (IH (S k)
                  (snd (time_sleep (2 ^ Z.of_nat k)
                          (snd (external (EvPost path) env w)))))
        as (a & d & w' & Hrun & Hle & Hge & Hev & Hfs' & Htick & Hall).
      { exact Hfs. }
      { right. lia. }
      exists (S a), d, w'.
      destruct a as [|a]; [specialize (Hge Hn); lia|].
      split; [exact Hrun|]. split; [lia|]. split; [lia|].
      split.
      { rewrite Hev, retry_journal_cons. cbn [time_sleep external snd w_events].
        rewrite <- !app_assoc. cbn [app].
        replace (Z.of_nat (S k)) with (Z.of_nat k + 1) by lia.
        reflexivity. }
      split; [exact Hfs'|].
      split; [rewrite Htick; cbn [time_sleep external snd w_tick]; lia|].
      intros H. destruct (Hall H) as (Ha & Hd & Hlastd).
      split; [lia|]. split; [exact Hd|].
      intros _. rewrite (Hlastd Hn). cbn [time_sleep external snd w_tick].
      do 2 f_equal. lia. }
    destruct (env_post_file env (w_tick w) path) as [e|r] eqn:Ho.
    + case_bool_decide as Hn0.
      * apply Hstop. intros _. auto.
      * apply Hgo; auto.
    + destruct (status_code r =? 200) eqn:Hst.
      * apply Hstop. intros H. specialize (H (w_tick w)). rewrite Ho in H.
        simpl in H. apply Z.eqb_eq in Hst. contradiction.
      * case_bool_decide as Hn0.
        -- apply Hstop. intros _. auto.
        -- apply Hgo; auto.
Qed.

Lemma range_nonpos_or (max_retries : Z) :
  Z.to_nat max_retries = 0%nat
  \/ Z.of_nat (0 + Z.to_nat max_retries) = max_retries.
Proof. lia. Qed.

(** [upload_wheel] on a file that exists. *)
Lemma upload_wheel_runs env path max_retries w :
  is_Some (w_fs w !! path) ->
  exists a d w',
    upload_wheel env path max_retries w = (Ret d, w')
    /\ (a <= Z.to_nat max_retries)%nat
    /\ w_events w'
       = w_events w ++ EvUploadWheel path :: retry_journal (EvPost path) 0 a
    /\ ((forall t, attempt_fails (env_post_file env t path)) ->
        a = Z.to_nat max_retries
        /\ get_truthy (d !! "success") = false
        /\ (Z.to_nat max_retries <> 0%nat ->
            d = failure_of env max_retries (basename path)
                  (env_post_file env (w_tick w + Z.to_nat max_retries - 1)%nat
                     path))).
Proof.
  intros [b Hb].
  unfold upload_wheel. unfold bind at 1 2. cbn [journal path_exists fst snd].
  rewrite bool_decide_eq_true_2 by eauto. cbn [negb]. unfold range.
  destruct (upload_loop_runs env path (basename path) max_retries b
              (Z.to_nat max_retries) 0%nat
              (World (w_fs w) (w_hist w) (w_clock w) (w_tick w)
                 (w_events w ++ [EvUploadWheel path]) (w_data w)) Hb
              (range_nonpos_or max_retries))
    as (a & d & w' & Hrun & Hle & _ & Hev & _ & _ & Hall).
  exists a, d, w'. split; [exact Hrun|]. split; [exact Hle|].
  split; [rewrite Hev; cbn [w_events]; rewrite <- app_assoc; reflexivity|].
  exact Hall.
Qed.

(** C1, as the claim states it, fails: for a path at which there is no
    file, [upload_wheel] raises [FileNotFoundError] instead of returning a
    result. *)
Lemma upload_wheel_missing_file_raises :
  fst (upload_wheel offline "dist/pkg-1.0-py3.whl" 3 empty_world)
  = Raise (FileNotFoundError "Wheel file not found: dist/pkg-1.0-py3.whl")
  /\ ~ (forall env path max_retries w,
          exists d, fst (upload_wheel env path max_retries w) = Ret d).
Proof.
  split; [vm_compute; reflexivity|].
  intros H. destruct (H offline "dist/pkg-1.0-py3.whl" 3 empty_world) as [d Hd].
  vm_compute in Hd. discriminate.
Qed.

(** C1, amended. For a path at which a file exists, [upload_wheel] returns
    a result whatever the attempts do; a missing file raises
    [FileNotFoundError] before any attempt. With [max_retries = 3] and an
    endpoint that fails every attempt, exactly three POSTs are made, with
    sleeps of 1 and 2 seconds between them, and the failure of the third is
    returned. *)
Theorem upload_wheel_result (env : Env) (path : string) (w : world) :
  (is_Some (w_fs w !! path) ->
   forall max_retries,
     exists d, fst (upload_wheel env path max_retries w) = Ret d)
  /\ (w_fs w !! path = None ->
      forall max_retries,
        upload_wheel env path max_retries w
        = (Raise (FileNotFoundError ("Wheel file not found: " +:+ path)),
           snd (journal (EvUploadWheel path) w)))
  /\ (is_Some (w_fs w !! path) ->
      (forall t, attempt_fails (env_post_file env t path)) ->
      let r := upload_wheel env path 3 w in
      let last := failure_of env 3 (basename path)
                    (env_post_file env (w_tick w + 2)%nat path) in
      fst r = Ret last
      /\ get_truthy (last !! "success") = false
      /\ w_events (snd r)
         = w_events w ++ [EvUploadWheel path; EvPost path; EvSleep 1;
                          EvPost path; EvSleep 2; EvPost path]).
Proof.
  split; [|split].
  - intros Hex max_retries.
    destruct (upload_wheel_runs env path max_retries w Hex)
      as (a & d & w' & Hrun & _).
    exists d. rewrite Hrun. reflexivity.
  - intros Hnone max_retries.
    unfold upload_wheel. unfold bind at 1 2. cbn [journal path_exists fst snd].
    rewrite bool_decide_eq_false_2
      by (cbn [w_fs]; rewrite Hnone; intros [x Hx]; discriminate).
    reflexivity.
  - intros Hex Hfail. cbv zeta.
    destruct (upload_wheel_runs env path 3 w Hex)
      as (a & d & w' & Hrun & _ & Hev & Hall).
    destruct (Hall Hfail) as (Ha & Hd & Hlast).
    change (Z.to_nat 3) with 3%nat in *. subst a.
    rewrite Hrun. cbn [fst snd].
    specialize (Hlast ltac:(discriminate)).
    replace (w_tick w + 3 - 1)%nat with (w_tick w + 2)%nat in Hlast by lia.
    subst d. split; [reflexivity|]. split; [exact Hd|].
    rewrite Hev. reflexivity.
Qed.

Lemma upload_wheel_result_witness :
  let r := upload_wheel rejecting_env "dist/pkg-1.0-py3.whl" 3 wheel_world in
  (exists d, fst r = Ret d /\ get_truthy (d !! "success") = false)
  /\ w_events (snd r)
     = [EvUploadWheel "dist/pkg-1.0-py3.whl";
        EvPost "dist/pkg-1.0-py3.whl"; EvSleep 1;
        EvPost "dist/pkg-1.0-py3.whl"; EvSleep 2;
        EvPost "dist/pkg-1.0-py3.whl"].
Proof.
  assert (Hex : is_Some (w_fs wheel_world !! "dist/pkg-1.0-py3.whl")).
  { exists "bytes". vm_compute. reflexivity. }
  assert (Hfail : forall t, attempt_fails
                    (env_post_file rejecting_env t "dist/pkg-1.0-py3.whl")).
  { intros t. simpl. lia. }
  destruct (upload_wheel_result rejecting_env "dist/pkg-1.0-py3.whl" wheel_world)
    as (_ & _ & H3).
  destruct (H3 Hex Hfail) as (Hr & Hs & Hev).
  split; [eexists; split; [exact Hr|exact Hs]|exact Hev].
Defined.

(** ** The retries of a download *)

Lemma emits_nothing w w' : emits (fun _ => False) w w' -> w_events w' = w_events w.
Proof.
  intros (new & E & F). destruct new as [|ev new].
  - rewrite app_nil_r in E. exact E.
  - inversion F; contradiction.
Qed.

Lemma write_chunks_returns tmp cs w : fst (write_chunks tmp cs w) = Ret tt.
Proof.
  revert w. induction cs as [|c cs IH]; intros w; [reflexivity|].
  cbn [write_chunks]. unfold bind.
  case_bool_decide; cbn [ret file_append set_fs]; apply IH.
Qed.

Lemma download_attempt_eq env url dest w :
  download_attempt env url dest w
  = after_get env url dest (w_tick w) (snd (external (EvGet url) env w)).
Proof. reflexivity. Qed.

Lemma emits_after_get P env url dest t :
  preserves (emits P) (after_get env url dest t).
Proof.
  unfold after_get. cbv zeta.
  destruct (stream_fault _); repeat preserve_step.
Qed.

Lemma download_attempt_events env url dest w :
  w_events (snd (download_attempt env url dest w)) = w_events w ++ [EvGet url].
Proof.
  rewrite download_attempt_eq.
  rewrite (emits_nothing _ _ (emits_after_get _ env url dest (w_tick w) _)).
  reflexivity.
Qed.

Lemma download_attempt_fault env url dest w :
  stream_fault (env_get_stream env (w_tick w) url) <> NoFault ->
  exists e, fst (download_attempt env url dest w) = Raise e.
Proof.
  intros Hf. rewrite download_attempt_eq. unfold after_get. cbv zeta.
  destruct (stream_fault _) as [|e|e|n e|e]; [contradiction| | | |];
    exists e; try reflexivity.
  - unfold bind at 1. cbn [file_create set_fs]. unfold bind.
    rewrite (surjective_pairing (write_chunks _ _ _)), write_chunks_returns.
    reflexivity.
  - unfold bind at 1. cbn [file_create set_fs]. unfold bind.
    rewrite (surjective_pairing (write_chunks _ _ _)), write_chunks_returns.
    reflexivity.
Qed.

Lemma download_loop_runs env url dest mr :
  forall n attempts w,
    mr - attempts <= Z.of_nat n ->
    exists a,
      (a <= n)%nat
      /\ (attempts < mr -> (1 <= a)%nat)
      /\ w_events (snd (download_loop env url dest mr n attempts w))
         = w_events w ++ retry_journal (EvGet url) attempts a
      /\ ((forall t, stream_fault (env_get_stream env t url) <> NoFault) ->
          Z.of_nat a = Z.max 0 (mr - attempts)).
Proof.
  induction n as [|n IH]; intros attempts w Hn.
  - exists 0%nat. cbn. rewrite app_nil_r. repeat split; auto; lia.
  - rewrite download_loop_S.
    destruct (attempts <? mr) eqn:Hlt.
    2:{ apply Z.ltb_ge in Hlt. exists 0%nat. cbn. rewrite app_nil_r.
        repeat split; auto; lia. }
    apply Z.ltb_lt in Hlt. unfold catch.
    pose proof (download_attempt_events env url dest w) as Hev.
    pose proof (download_attempt_fault env url dest w) as Hfault.
    destruct (download_attempt env url dest w) as [[[]|e|] w1];
      cbn [fst snd] in *.
    + exists 1%nat. cbn [retry_journal]. split; [lia|]. split; [lia|].
      split; [exact Hev|]. intros Hall.
      destruct (Hfault (Hall _)) as [e He]. discriminate.
    + destruct (attempts + 1 >=? mr) eqn:Hge.
      * exists 1%nat. cbn [retry_journal raise snd].
        split; [lia|]. split; [lia|]. split; [exact Hev|]. intros _.
        apply Z.geb_le in Hge. lia.
      * rewrite Z.geb_leb in Hge. apply Z.leb_gt in Hge.
        unfold bind. cbn [time_sleep].
        match goal with
        | |- context [download_loop _ _ _ _ _ _ ?w2] =>
            destruct (IH (attempts + 1) w2 ltac:(lia))
              as (a & Hle & Hone & Hev2 & Hall)
        end.
        exists (S a). destruct a as [|a]; [specialize (Hone Hge); lia|].
        split; [lia|]. split; [lia|]. split.
        { rewrite Hev2. cbn [w_events]. rewrite Hev, retry_journal_cons.
          rewrite <- !app_assoc. cbn [app].
          rewrite Z.add_simpl_r. reflexivity. }
        intros H. specialize (Hall H). lia.
    + exists 1%nat. cbn [retry_journal]. split; [lia|]. split; [lia|].
      split; [exact Hev|]. intros Hall.
      destruct (Hfault (Hall _)) as [e He]. discriminate.
Qed.

Lemma sleeps_of_retry_journal ev k a :
  (forall n, ev <> EvSleep n) ->
  sleeps_of (retry_journal ev k a)
  = map (fun i => 2 ^ (k + Z.of_nat i)) (seq 0 (a - 1)).
Proof.
  intros Hev. revert k. induction a as [|a IH]; intros k; [reflexivity|].
  assert (Hskip : forall l, sleeps_of (ev :: l) = sleeps_of l).
  { intros l. unfold sleeps_of. cbn [omap list_omap].
    destruct ev; try reflexivity. exfalso. eapply Hev. reflexivity. }
  destruct a as [|a].
  - cbn [retry_journal]. rewrite Hskip. reflexivity.
  - rewrite retry_journal_cons, Hskip.
    change (sleeps_of (EvSleep (2 ^ k) :: ?l)) with (2 ^ k :: sleeps_of l).
    rewrite IH. cbn [Nat.sub]. rewrite Nat.sub_0_r.
    cbn [seq map]. rewrite Z.add_0_r. f_equal.
    rewrite <- seq_shift, map_map. apply map_ext. intros i.
    f_equal. lia.
Qed.

Lemma doubling_lookup m (i : nat) s :
  doubling m !! i = Some s -> s = 2 ^ Z.of_nat i.
Proof.
  unfold doubling. rewrite list_lookup_fmap.
  destruct (seq 0 m !! i) as [j|] eqn:Hj; [|discriminate].
  apply lookup_seq in Hj. destruct Hj as [-> _]. simpl. congruence.
Qed.

Lemma pow2_sorted k m :
  StronglySorted Z.le (map (fun i => 2 ^ Z.of_nat i) (seq k m)).
Proof.
  revert k. induction m as [|m IH]; intros k; cbn [seq map].
  - constructor.
  - constructor; [apply IH|].
    apply List.Forall_forall. intros x Hx. apply in_map_iff in Hx.
    destruct Hx as (i & <- & Hi). apply in_seq in Hi.
    apply Z.pow_le_mono_r; lia.
Qed.

Lemma doubling_sorted m : StronglySorted Z.le (doubling m).
Proof. apply pow2_sorted. Qed.

Lemma sleeps_of_retry_journal_0 ev a :
  (forall n, ev <> EvSleep n) ->
  sleeps_of (retry_journal ev 0 a) = doubling (a - 1).
Proof.
  intros Hev. rewrite sleeps_of_retry_journal by exact Hev. reflexivity.
Qed.

(** C8. In the download and in the upload, the journal of a run is a
    sequence of attempts with one sleep between two consecutive attempts,
    the sleep after the attempt of rank k lasting 2^(k-1) seconds: the
    sleeps are 1, 2, 4, ... and never decrease. When every attempt fails
    there are [max_retries] attempts. *)
Theorem backoff_doubles (env : Env) (w : world) :
  (forall url dest max_retries,
     exists a,
       w_events (snd (download_url_to_path env url dest max_retries w))
       = w_events w ++ retry_journal (EvGet url) 0 a
       /\ sleeps_of (retry_journal (EvGet url) 0 a) = doubling (a - 1)
       /\ ((forall t, stream_fault (env_get_stream env t url) <> NoFault) ->
           a = Z.to_nat max_retries))
  /\ (forall path max_retries,
        is_Some (w_fs w !! path) ->
        exists a,
          w_events (snd (upload_wheel env path max_retries w))
          = w_events w
            ++ EvUploadWheel path :: retry_journal (EvPost path) 0 a
          /\ sleeps_of (retry_journal (EvPost path) 0 a) = doubling (a - 1)
          /\ ((forall t, attempt_fails (env_post_file env t path)) ->
              a = Z.to_nat max_retries))
  /\ (forall m,
        StronglySorted Z.le (doubling m)
        /\ forall (i : nat) s, doubling m !! i = Some s -> s = 2 ^ Z.of_nat i).
Proof.
  split; [|split].
  - intros url dest max_retries. unfold download_url_to_path.
    destruct (download_loop_runs env url dest max_retries
                (Z.to_nat max_retries) 0 w ltac:(lia))
      as (a & _ & _ & Hev & Hall).
    exists a. split; [exact Hev|].
    split; [apply sleeps_of_retry_journal_0; discriminate|].
    intros H. specialize (Hall H). lia.
  - intros path max_retries Hex.
    destruct (upload_wheel_runs env path max_retries w Hex)
      as (a & d & w' & Hrun & _ & Hev & Hall).
    exists a. rewrite Hrun. split; [exact Hev|].
    split; [apply sleeps_of_retry_journal_0; discriminate|].
    intros H. apply (Hall H).
  - intros m. split; [apply doubling_sorted|apply doubling_lookup].
Qed.

Lemma backoff_doubles_witness :
  w_events (snd (upload_wheel rejecting_env "dist/pkg-1.0-py3.whl" 3
                   wheel_world))
  = [EvUploadWheel "dist/pkg-1.0-py3.whl";
     EvPost "dist/pkg-1.0-py3.whl"; EvSleep 1;
     EvPost "dist/pkg-1.0-py3.whl"; EvSleep 2;
     EvPost "dist/pkg-1.0-py3.whl"]
  /\ w_events (snd (download_url_to_path offline "https://r/pkg-1.0.tar.gz"
                      "cache/pkg-1.0.tar.gz" 3 empty_world))
     = [EvGet "https://r/pkg-1.0.tar.gz"; EvSleep 1;
        EvGet "https://r/pkg-1.0.tar.gz"; EvSleep 2;
        EvGet "https://r/pkg-1.0.tar.gz"].
Proof.
  split.
  - destruct (backoff_doubles rejecting_env wheel_world) as (_ & Hup & _).
    destruct (Hup "dist/pkg-1.0-py3.whl" 3) as (a & Hev & _ & Hall).
    { exists "bytes". vm_compute. reflexivity. }
    rewrite Hev, (Hall ltac:(intros t; simpl; lia)). reflexivity.
  - destruct (backoff_doubles offline empty_world) as (Hdown & _ & _).
    destruct (Hdown "https://r/pkg-1.0.tar.gz" "cache/pkg-1.0.tar.gz" 3)
      as (a & Hev & _ & Hall).
    rewrite Hev, (Hall ltac:(intros t; simpl; discriminate)). reflexivity.
Defined.

(** ** Publishing *)

(** Every pass either returns, or sleeps ten seconds. *)
Lemma poll_step_cases env id w :
  (exists d, poll_step env id w = (Ret (Some d), polled env id w))
  \/ poll_step env id w = (Ret None, polled_slept env id w).
Proof.
  unfold poll_step, polled_slept, polled, catch, bind.
  cbn [external fst snd].
  destruct (env_get_operation env (w_tick w) id) as [e|r];
    [right; reflexivity|].
  destruct (status_code r =? 200); [|right; reflexivity].
  destruct (json r) as [[| | | | |d]|]; try (right; reflexivity).
  cbv zeta.
  destruct (py_eq_str _ "Succeeded"); [left; eexists; reflexivity|].
  destruct (py_eq_str _ "Failed"); [left; eexists; reflexivity|].
  destruct (_ || _); right; reflexivity.
Qed.

Lemma poll_step_reports env id w d status :
  reports env (w_tick w) id d status ->
  poll_step env id w =
  if bool_decide (status = "Succeeded")
  then (Ret (Some (publish_succeeded d)), polled env id w)
  else if bool_decide (status = "Failed")
  then (Ret (Some (publish_failed env d)), polled env id w)
  else (Ret None, polled_slept env id w).
Proof.
  intros (r & Hr & Hcode & Hjson & Hstatus).
  unfold poll_step, polled_slept, polled, catch, bind.
  cbn [external fst snd]. rewrite Hr, Hcode, Hjson. cbv zeta.
  rewrite Hstatus. cbn [default from_option Datatypes.id py_eq_str Z.eqb Pos.eqb].
  case_bool_decide; [reflexivity|].
  case_bool_decide; [reflexivity|].
  destruct (_ || _); reflexivity.
Qed.

Lemma wait_loop_S env id max_wait start fuel w :
  wait_loop env id max_wait start (S fuel) w =
  if w_clock w - start <? max_wait then
    match poll_step env id w with
    | (Ret (Some d), w') => (Ret d, w')
    | (Ret None, w') => wait_loop env id max_wait start fuel w'
    | (Raise e, w') => (Raise e, w')
    | (OutOfFuel, w') => (OutOfFuel, w')
    end
  else (Ret publish_timeout, w).
Proof.
  cbn [wait_loop]. unfold bind at 1. cbn [time_time].
  destruct (w_clock w - start <? max_wait); [|reflexivity].
  unfold bind. destruct (poll_step env id w) as [[[d|]| |] w']; reflexivity.
Qed.

Lemma polled_slept_clock env id w :
  w_clock w + 10 <= w_clock (polled_slept env id w).
Proof. unfold polled_slept, polled. cbn. lia. Qed.

(** The loop ends within the fuel of [poll_fuel], whatever the endpoint
    does. *)
Lemma wait_loop_total env id max_wait start :
  forall fuel w,
    Z.max 0 (max_wait - (w_clock w - start)) < Z.of_nat fuel ->
    exists d w', wait_loop env id max_wait start fuel w = (Ret d, w').
Proof.
  induction fuel as [|fuel IH]; intros w Hfuel; [lia|].
  rewrite wait_loop_S.
  destruct (w_clock w - start <? max_wait) eqn:Hlt; [|eauto].
  apply Z.ltb_lt in Hlt.
  destruct (poll_step_cases env id w) as [[d ->]| ->]; [eauto|].
  apply IH. pose proof (polled_slept_clock env id w). lia.
Qed.

Lemma wait_loop_pending env id max_wait start :
  forall fuel w,
    (forall t, (w_tick w <= t)%nat -> exists d, reports env t id d "Running") ->
    Z.max 0 (max_wait - (w_clock w - start)) < Z.of_nat fuel ->
    exists k w',
      wait_loop env id max_wait start fuel w = (Ret publish_timeout, w')
      /\ max_wait <= w_clock w' - start
      /\ w_events w' = w_events w ++ poll_journal id k
      /\ (k <> 0%nat -> w_clock w - start + 10 * (Z.of_nat k - 1) < max_wait)
      /\ (w_clock w - start < max_wait -> (1 <= k)%nat)
      /\ w_clock w + 10 * Z.of_nat k <= w_clock w'.
Proof.
  induction fuel as [|fuel IH]; intros w Hrun Hfuel; [lia|].
  rewrite wait_loop_S.
  destruct (w_clock w - start <? max_wait) eqn:Hlt.
  - apply Z.ltb_lt in Hlt.
    destruct (Hrun (w_tick w) ltac:(lia)) as [d Hd].
    rewrite (poll_step_reports env id w d "Running" Hd).
    rewrite !bool_decide_eq_false_2 by discriminate.
    pose proof (polled_slept_clock env id w) as Hclock.
    destruct (IH (polled_slept env id w))
      as (k & w' & Hw & Hend & Hev & Hk & _ & Hc).
    { intros t Ht. apply Hrun. cbn in Ht. lia. }
    { lia. }
    exists (S k), w'. split; [exact Hw|]. split; [exact Hend|].
    split; [rewrite Hev; cbn; rewrite <- !app_assoc; reflexivity|].
    split; [|split; lia].
    intros _. destruct k as [|k]; [lia|]. specialize (Hk ltac:(lia)). lia.
  - apply Z.ltb_ge in Hlt. exists 0%nat, w. cbn. rewrite app_nil_r.
    split; [reflexivity|]. split; [lia|]. split; [reflexivity|].
    split; [congruence|]. split; lia.
Qed.

Lemma publish_failed_operation_status env d :
  publish_failed env d !! "operation_status" = Some (PDict d).
Proof. reflexivity. Qed.

Lemma publish_timeout_ne_failed env d : publish_timeout <> publish_failed env d.
Proof.
  intros H.
  assert (Hl : publish_timeout !! "operation_status"
               = publish_failed env d !! "operation_status") by (rewrite H; reflexivity).
  rewrite publish_failed_operation_status in Hl. vm_compute in Hl. discriminate.
Qed.

(** C4. With answers Running, Running, Succeeded (and the third poll
    starting within the 300 seconds) the loop polls exactly three times and
    returns the success result. With Running at every poll it returns the
    timeout result once 300 seconds have passed, after at least one and at
    most 30 polls. The timeout result differs from the result of a reported
    failure, which carries the server's [operation_status]. *)
Theorem publish_polling (env : Env) (id : string) (w : world) :
  id <> "" ->
  (forall d0 d1 d2,
     reports env (w_tick w) id d0 "Running" ->
     reports env (S (w_tick w)) id d1 "Running" ->
     reports env (S (S (w_tick w))) id d2 "Succeeded" ->
     Z.of_nat (env_duration env (w_tick w)) + 10
     + Z.of_nat (env_duration env (S (w_tick w))) + 10 < 300 ->
     let r := _wait_for_publish_completion env id 300 w in
     fst r = Ret (publish_succeeded d2)
     /\ publish_succeeded d2 !! "success" = Some (PBool true)
     /\ w_events (snd r)
        = w_events w
          ++ [EvPoll id; EvSleep 10; EvPoll id; EvSleep 10; EvPoll id])
  /\ ((forall t, (w_tick w <= t)%nat ->
                 exists d, reports env t id d "Running") ->
      let r := _wait_for_publish_completion env id 300 w in
      exists k,
        fst r = Ret publish_timeout
        /\ publish_timeout !! "success" = Some (PBool false)
        /\ 300 <= w_clock (snd r) - w_clock w
        /\ w_events (snd r) = w_events w ++ poll_journal id k
        /\ (1 <= k <= 30)%nat)
  /\ (forall d,
        reports env (w_tick w) id d "Failed" ->
        fst (_wait_for_publish_completion env id 300 w)
        = Ret (publish_failed env d))
  /\ (forall d,
        publish_timeout <> publish_failed env d
        /\ publish_failed env d !! "success" = Some (PBool false)
        /\ publish_failed env d !! "operation_status" = Some (PDict d)
        /\ publish_timeout !! "operation_status" = None
        /\ publish_timeout !! "error"
           = Some (PStr "Timeout waiting for publish completion")).
Proof.
  intros Hid.
  assert (Hunfold : _wait_for_publish_completion env id 300 w
                    = wait_loop env id 300 (w_clock w) (poll_fuel 300) w).
  { unfold _wait_for_publish_completion.
    rewrite bool_decide_eq_false_2 by exact Hid. reflexivity. }
  rewrite Hunfold. clear Hunfold.
  split; [|split; [|split]].
  - intros d0 d1 d2 H0 H1 H2 Hdur. cbv zeta.
    change (poll_fuel 300) with (S (S (S 298))).
    rewrite wait_loop_S.
    replace (w_clock w - w_clock w <? 300) with true
      by (symmetry; apply Z.ltb_lt; lia).
    rewrite (poll_step_reports env id w d0 "Running" H0).
    rewrite !bool_decide_eq_false_2 by discriminate.
    rewrite wait_loop_S.
    replace (w_clock (polled_slept env id w) - w_clock w <? 300) with true
      by (symmetry; apply Z.ltb_lt; cbn; lia).
    rewrite (poll_step_reports env id (polled_slept env id w) d1 "Running" H1).
    rewrite !bool_decide_eq_false_2 by discriminate.
    rewrite wait_loop_S.
    replace (w_clock (polled_slept env id (polled_slept env id w))
             - w_clock w <? 300) with true
      by (symmetry; apply Z.ltb_lt; cbn; lia).
    rewrite (poll_step_reports env id
               (polled_slept env id (polled_slept env id w)) d2 "Succeeded" H2).
    rewrite bool_decide_eq_true_2 by reflexivity.
    split; [reflexivity|]. split; [reflexivity|].
    cbn. rewrite <- !app_assoc. reflexivity.
  - intros Hrun. cbv zeta.
    destruct (wait_loop_pending env id 300 (w_clock w) (poll_fuel 300) w Hrun)
      as (k & w' & Hw & Hend & Hev & Hk & Hone & Hc).
    { unfold poll_fuel. lia. }
    exists k. rewrite Hw. cbn [fst snd].
    split; [reflexivity|]. split; [reflexivity|]. split; [exact Hend|].
    split; [exact Hev|].
    specialize (Hone ltac:(lia)).
    destruct k as [|k]; [lia|]. specialize (Hk ltac:(lia)). lia.
  - intros d Hd.
    change (poll_fuel 300) with (S 300).
    rewrite wait_loop_S.
    replace (w_clock w - w_clock w <? 300) with true
      by (symmetry; apply Z.ltb_lt; lia).
    rewrite (poll_step_reports env id w d "Failed" Hd).
    rewrite bool_decide_eq_false_2 by discriminate.
    rewrite bool_decide_eq_true_2 by reflexivity. reflexivity.
  - intros d. split; [apply publish_timeout_ne_failed|].
    repeat split; reflexivity.
Qed.

Lemma reports_status_response env t id status :
  env_get_operation env t id = inr (status_response status) ->
  reports env t id {["status" := PStr status]} status.
Proof.
  intros H. exists (status_response status).
  split; [exact H|]. split; [reflexivity|]. split; [reflexivity|].
  apply lookup_singleton_eq.
Qed.

Lemma publish_polling_witness :
  (let r := _wait_for_publish_completion three_polls_env "op-1" 300
              empty_world in
   fst r = Ret (publish_succeeded {["status" := PStr "Succeeded"]})
   /\ w_events (snd r)
      = [EvPoll "op-1"; EvSleep 10; EvPoll "op-1"; EvSleep 10; EvPoll "op-1"])
  /\ (let r := _wait_for_publish_completion running_env "op-1" 300
                 empty_world in
      exists k, fst r = Ret publish_timeout
                /\ w_events (snd r) = poll_journal "op-1" k
                /\ (1 <= k <= 30)%nat).
Proof.
  split.
  - destruct (publish_polling three_polls_env "op-1" empty_world
                ltac:(discriminate)) as (H3 & _).
    destruct (H3 {["status" := PStr "Running"]} {["status" := PStr "Running"]}
                {["status" := PStr "Succeeded"]}) as (Hr & _ & Hev).
    + apply reports_status_response. reflexivity.
    + apply reports_status_response. reflexivity.
    + apply reports_status_response. reflexivity.
    + vm_compute. reflexivity.
    + split; [exact Hr|exact Hev].
  - destruct (publish_polling running_env "op-1" empty_world
                ltac:(discriminate)) as (_ & Hrun & _).
    destruct Hrun as (k & Hr & _ & _ & Hev & Hk).
    + intros t _. exists {["status" := PStr "Running"]}.
      apply reports_status_response. reflexivity.
    + exists k. split; [exact Hr|]. split; [exact Hev|exact Hk].
Defined.

(** With an endpoint that answers at once, the timeout falls after exactly
    30 polls. *)
Example running_forever_30_polls :
  let r := _wait_for_publish_completion running_env "op-1" 300 empty_world in
  fst r = Ret publish_timeout
  /\ w_events (snd r) = poll_journal "op-1" 30
  /\ w_clock (snd r) = 300.
Proof. vm_compute. auto. Qed.

(** An accepted publish request that names its operation goes on to the
    polling loop. *)
Lemma publish_environment_accepted env w r id :
  env_post_publish env (w_tick w) = inr r ->
  status_code r = 202 ->
  headers_get (headers r) "x-ms-operation-id" = Some id ->
  id <> "" ->
  publish_environment env w
  = _wait_for_publish_completion env id 300 (snd (external EvPublish env w)).
Proof.
  intros Hr Hcode Hid Hne.
  unfold publish_environment. unfold bind at 1. cbn [external fst snd].
  rewrite Hr, Hcode, Hid. cbn [Z.eqb Pos.eqb orb].
  rewrite bool_decide_eq_false_2 by exact Hne. reflexivity.
Qed.

(** C10. When the publish request is answered 202 without an
    [x-ms-operation-id] header, [publish_environment] returns the success
    result at once: the only request of the call is the publish POST, and
    no operation status is ever polled. *)
Theorem publish_accepted_without_operation_id (env : Env) (w : world)
    (r : response) :
  env_post_publish env (w_tick w) = inr r ->
  status_code r = 202 ->
  headers_get (headers r) "x-ms-operation-id" = None ->
  let res := publish_environment env w in
  fst res
  = Ret (mkdict
           [("success", PBool true);
            ("message",
             PStr "Environment published successfully (no operation ID)");
            ("status_code", PInt 202)])
  /\ (forall d, fst res = Ret d -> d !! "success" = Some (PBool true))
  /\ w_events (snd res) = w_events w ++ [EvPublish]
  /\ w_clock (snd res)
     = w_clock w + Z.of_nat (env_duration env (w_tick w)).
Proof.
  intros Hr Hcode Hid. cbv zeta.
  assert (Heq : publish_environment env w
                = (Ret (mkdict
                          [("success", PBool true);
                           ("message",
                            PStr "Environment published successfully (no operation ID)");
                           ("status_code", PInt 202)]),
                   snd (external EvPublish env w))).
  { unfold publish_environment. unfold bind at 1. cbn [external fst snd].
    rewrite Hr, Hcode, Hid. reflexivity. }
  rewrite Heq. cbn [fst snd external w_events w_clock].
  split; [reflexivity|]. split; [|split; reflexivity].
  intros d Hd. injection Hd as <-. reflexivity.
Qed.

Lemma publish_accepted_without_operation_id_witness :
  let res := publish_environment anonymous_accept_env empty_world in
  (exists d, fst res = Ret d /\ d !! "success" = Some (PBool true))
  /\ w_events (snd res) = [EvPublish].
Proof.
  destruct (publish_accepted_without_operation_id anonymous_accept_env
              empty_world (Response 202 [("Content-Length", "0")] None ""))
    as (Hres & Hok & Hev & _).
  - reflexivity.
  - reflexivity.
  - vm_compute. reflexivity.
  - split; [|exact Hev]. eexists. split; [exact Hres|]. apply Hok. exact Hres.
Defined.

(** ** Atomic cache writes *)

Lemma append_nil_r (s : string) : s +:+ "" = s.
Proof.
  induction s as [|c s IH]; [reflexivity|]. rewrite append_cons, IH. reflexivity.
Qed.

Lemma append_assoc (s t u : string) : (s +:+ t) +:+ u = s +:+ (t +:+ u).
Proof.
  induction s as [|c s IH]; [reflexivity|].
  rewrite !append_cons, IH. reflexivity.
Qed.

Lemma length_append (s t : string) :
  String.length (s +:+ t) = (String.length s + String.length t)%nat.
Proof.
  induction s as [|c s IH]; [reflexivity|].
  rewrite append_cons. cbn [String.length]. rewrite IH. reflexivity.
Qed.

(** The temporary path is never the destination. *)
Lemma part_ne_dest (dest : string) : dest +:+ ".part" <> dest.
Proof.
  intros H. apply (f_equal String.length) in H.
  rewrite length_append in H. cbn [String.length] in H. lia.
Qed.

Lemma keeps_last dest w w' : keeps dest w w' -> w_fs w' !! dest = w_fs w !! dest.
Proof.
  intros (new & E & F). unfold states in E. destruct new as [|fs new].
  - injection E as -> _. reflexivity.
  - injection E as -> _. inversion F; auto.
Qed.

Lemma keeps_refl dest w : keeps dest w w.
Proof. exists []. split; [reflexivity|constructor]. Qed.

Lemma keeps_trans dest w1 w2 w3 :
  keeps dest w1 w2 -> keeps dest w2 w3 -> keeps dest w1 w3.
Proof.
  intros H1 H2. pose proof (keeps_last _ _ _ H1) as Hl.
  destruct H1 as (n1 & E1 & F1). destruct H2 as (n2 & E2 & F2).
  exists (n2 ++ n1). rewrite E2, E1, app_assoc. split; [reflexivity|].
  apply Forall_app. split; [|exact F1].
  eapply List.Forall_impl; [|exact F2]. intros fs Hfs. congruence.
Qed.

#[local] Hint Resolve keeps_refl keeps_trans : core.

Lemma keeps_same_states dest w w' : states w' = states w -> keeps dest w w'.
Proof. intros E. exists []. split; [exact E|constructor]. Qed.

Lemma keeps_time_sleep dest n : preserves (keeps dest) (time_sleep n).
Proof. intros w. apply keeps_same_states. reflexivity. Qed.

Lemma keeps_external dest ev env : preserves (keeps dest) (external ev env).
Proof. intros w. apply keeps_same_states. reflexivity. Qed.

Lemma keeps_file_create dest p :
  p <> dest -> preserves (keeps dest) (file_create p).
Proof.
  intros Hp w. exists [<[p := ""]> (w_fs w)]. split; [reflexivity|].
  constructor; [|constructor]. apply lookup_insert_ne. exact Hp.
Qed.

Lemma keeps_file_append dest p b :
  p <> dest -> preserves (keeps dest) (file_append p b).
Proof.
  intros Hp w. eexists [_]. split; [reflexivity|].
  constructor; [|constructor]. apply lookup_insert_ne. exact Hp.
Qed.

#[local] Hint Resolve keeps_time_sleep keeps_external keeps_file_create
  keeps_file_append : core.

Lemma keeps_write_chunks dest p cs :
  p <> dest -> preserves (keeps dest) (write_chunks p cs).
Proof.
  intros Hp. induction cs as [|c cs IH]; cbn [write_chunks];
    repeat preserve_step.
Qed.

(** What [write_chunks] leaves in the temporary file. *)
Lemma write_chunks_content tmp cs :
  forall w b0,
    w_fs w !! tmp = Some b0 ->
    w_fs (snd (write_chunks tmp cs w)) !! tmp = Some (b0 +:+ body_of cs).
Proof.
  induction cs as [|c cs IH]; intros w b0 Hb.
  - cbn. rewrite append_nil_r. exact Hb.
  - cbn [write_chunks body_of foldr]. unfold bind.
    case_bool_decide as Hc.
    + subst c. cbn [ret]. rewrite append_nil_l. apply IH. exact Hb.
    + cbn [file_append set_fs].
      rewrite <- append_assoc. apply IH. cbn [w_fs].
      rewrite lookup_insert_eq, Hb. reflexivity.
Qed.

Section Atomic.
Variables (env : Env) (url dest : string) (orig : option string).

Lemma intact_ext fs1 fs2 :
  fs1 !! dest = fs2 !! dest ->
  intact env url dest orig fs2 -> intact env url dest orig fs1.
Proof.
  intros E [H|(t & Hf & Hb)]; [left; congruence|].
  right. exists t. split; [exact Hf|congruence].
Qed.

Lemma atomic_last w w' :
  atomic env url dest orig w w' ->
  intact env url dest orig (w_fs w) -> intact env url dest orig (w_fs w').
Proof.
  intros H Hi. destruct (H Hi) as (new & E & F). unfold states in E.
  destruct new as [|fs new]; injection E as -> _; [exact Hi|].
  inversion F; auto.
Qed.

Lemma atomic_refl w : atomic env url dest orig w w.
Proof. intros _. exists []. split; [reflexivity|constructor]. Qed.

Lemma atomic_trans w1 w2 w3 :
  atomic env url dest orig w1 w2 -> atomic env url dest orig w2 w3 ->
  atomic env url dest orig w1 w3.
Proof.
  intros H1 H2 Hi. pose proof (atomic_last _ _ H1 Hi) as Hi2.
  destruct (H1 Hi) as (n1 & E1 & F1). destruct (H2 Hi2) as (n2 & E2 & F2).
  exists (n2 ++ n1). rewrite E2, E1, app_assoc. split; [reflexivity|].
  apply Forall_app. auto.
Qed.

Lemma keeps_atomic w w' : keeps dest w w' -> atomic env url dest orig w w'.
Proof.
  intros (new & E & F) Hi. exists new. split; [exact E|].
  eapply List.Forall_impl; [|exact F]. intros fs Hfs.
  exact (intact_ext fs (w_fs w) Hfs Hi).
Qed.

Lemma atomic_time_sleep n : preserves (atomic env url dest orig) (time_sleep n).
Proof. intros w. apply keeps_atomic, keeps_time_sleep. Qed.

Lemma create_write_eq tmp cs (k : M unit) w :
  (file_create tmp >> write_chunks tmp cs >> k) w
  = k (snd (write_chunks tmp cs (snd (file_create tmp w)))).
Proof.
  unfold bind at 1. cbn [file_create set_fs]. unfold bind.
  rewrite (surjective_pairing (write_chunks _ _ _)), write_chunks_returns.
  reflexivity.
Qed.

Lemma keeps_create_write tmp cs w :
  tmp <> dest ->
  keeps dest w (snd (write_chunks tmp cs (snd (file_create tmp w)))).
Proof.
  intros Hne. eapply keeps_trans.
  - apply (keeps_file_create dest tmp Hne w).
  - apply keeps_write_chunks. exact Hne.
Qed.

Lemma create_write_content tmp cs w :
  w_fs (snd (write_chunks tmp cs (snd (file_create tmp w)))) !! tmp
  = Some (body_of cs).
Proof.
  rewrite (write_chunks_content tmp cs _ "") by apply lookup_insert_eq.
  rewrite append_nil_l. reflexivity.
Qed.

(** What one attempt does to the file at [dest]. *)
Lemma download_attempt_outcome w :
  let r := download_attempt env url dest w in
  atomic env url dest orig w (snd r)
  /\ match fst r with
     | Ret _ =>
         stream_fault (env_get_stream env (w_tick w) url) = NoFault
         /\ w_fs (snd r) !! dest
            = Some (body_of (chunks (env_get_stream env (w_tick w) url)))
     | Raise _ => w_fs (snd r) !! dest = w_fs w !! dest
     | OutOfFuel => False
     end.
Proof.
  cbv zeta. rewrite download_attempt_eq.
  set (w1 := snd (external (EvGet url) env w)).
  assert (H1 : keeps dest w w1) by apply keeps_external.
  pose proof (part_ne_dest dest) as Hne.
  unfold after_get. cbv zeta.
  destruct (stream_fault (env_get_stream env (w_tick w) url))
    as [|e|e|n e|e] eqn:Hfault.
  - (* the stream ends well: the move publishes the whole body *)
    rewrite create_write_eq. unfold file_move.
    rewrite create_write_content. cbn [set_fs fst snd w_fs].
    split; [|split; [reflexivity|apply lookup_insert_eq]].
    eapply atomic_trans.
    { apply keeps_atomic. eapply keeps_trans; [exact H1|].
      apply keeps_create_write. exact Hne. }
    intros _. eexists [_]. split; [reflexivity|].
    constructor; [|constructor]. right. exists (w_tick w).
    rewrite Hfault. split; [reflexivity|apply lookup_insert_eq].
  - cbn [raise fst snd]. split; [apply keeps_atomic; exact H1|].
    apply (keeps_last _ _ _ H1).
  - cbn [raise fst snd]. split; [apply keeps_atomic; exact H1|].
    apply (keeps_last _ _ _ H1).
  - rewrite create_write_eq. cbn [raise fst snd].
    assert (H : keeps dest w
                  (snd (write_chunks (dest +:+ ".part")
                          (take n (chunks (env_get_stream env (w_tick w) url)))
                          (snd (file_create (dest +:+ ".part") w1))))).
    { eapply keeps_trans; [exact H1|]. apply keeps_create_write. exact Hne. }
    split; [apply keeps_atomic; exact H|apply (keeps_last _ _ _ H)].
  - rewrite create_write_eq. cbn [raise fst snd].
    assert (H : keeps dest w
                  (snd (write_chunks (dest +:+ ".part")
                          (chunks (env_get_stream env (w_tick w) url))
                          (snd (file_create (dest +:+ ".part") w1))))).
    { eapply keeps_trans; [exact H1|]. apply keeps_create_write. exact Hne. }
    split; [apply keeps_atomic; exact H|apply (keeps_last _ _ _ H)].
Qed.

(** The loop: every state it goes through is intact; when it raises, the
    file at [dest] is what it was; when it returns after at least one
    attempt, the file is a complete env url dest download. *)
Lemma download_loop_outcome max_retries :
  forall n attempts w,
    max_retries - attempts <= Z.of_nat n ->
    let r := download_loop env url dest max_retries n attempts w in
    atomic env url dest orig w (snd r)
    /\ match fst r with
       | Ret _ => attempts < max_retries -> complete env url dest (w_fs (snd r))
       | Raise _ => w_fs (snd r) !! dest = w_fs w !! dest
       | OutOfFuel => False
       end.
Proof.
  induction n as [|n IH]; intros attempts w Hn; cbv zeta.
  - cbn. split; [apply atomic_refl|]. lia.
  - rewrite download_loop_S.
    destruct (attempts <? max_retries) eqn:Hlt.
    2:{ apply Z.ltb_ge in Hlt. cbn. split; [apply atomic_refl|]. lia. }
    apply Z.ltb_lt in Hlt. unfold catch.
    pose proof (download_attempt_outcome w) as Hatt. cbv zeta in Hatt.
    destruct (download_attempt env url dest w) as [[[]|e|] w1];
      cbn [fst snd] in *; destruct Hatt as [Hat Hres].
    + split; [exact Hat|]. intros _. destruct Hres as [Hf Hb].
      exists (w_tick w). auto.
    + destruct (attempts + 1 >=? max_retries) eqn:Hge.
      * cbn [raise fst snd]. split; [exact Hat|exact Hres].
      * rewrite Z.geb_leb in Hge. apply Z.leb_gt in Hge.
        unfold bind. cbn [time_sleep].
        match goal with
        | |- context [download_loop _ _ _ _ _ _ ?w2] =>
            pose proof (IH (attempts + 1) w2 ltac:(lia)) as Hloop;
            assert (H12 : keeps dest w1 w2)
              by (apply keeps_same_states; reflexivity);
            set (r := download_loop env url dest max_retries n (attempts + 1) w2)
              in *
        end.
        cbv zeta in Hloop. destruct Hloop as [Hat2 Hres2].
        split.
        { eapply atomic_trans; [exact Hat|].
          eapply atomic_trans; [apply keeps_atomic; exact H12|exact Hat2]. }
        destruct (fst r); [| |exact Hres2].
        -- intros _. apply Hres2. lia.
        -- rewrite Hres2, (keeps_last _ _ _ H12). exact Hres.
    + contradiction.
Qed.
End Atomic.

Lemma confined_last dest w w' p :
  confined dest w w' -> p <> dest -> p <> dest +:+ ".part" ->
  w_fs w' !! p = w_fs w !! p.
Proof.
  intros (new & E & F) H1 H2. unfold states in E. destruct new as [|fs new].
  - injection E as -> _. reflexivity.
  - injection E as -> _. inversion F; auto.
Qed.

Lemma confined_refl dest w : confined dest w w.
Proof. exists []. split; [reflexivity|constructor]. Qed.

Lemma confined_trans dest w1 w2 w3 :
  confined dest w1 w2 -> confined dest w2 w3 -> confined dest w1 w3.
Proof.
  intros H1 H2. pose proof (confined_last dest w1 w2) as Hl.
  destruct H1 as (n1 & E1 & F1). destruct H2 as (n2 & E2 & F2).
  exists (n2 ++ n1). rewrite E2, E1, app_assoc. split; [reflexivity|].
  apply Forall_app. split; [|exact F1].
  eapply List.Forall_impl; [|exact F2]. intros fs Hfs p Hp1 Hp2.
  rewrite (Hfs p Hp1 Hp2). apply Hl; auto.
  exists n1. auto.
Qed.

#[local] Hint Resolve confined_refl confined_trans : core.

Lemma confined_same_states dest w w' : states w' = states w -> confined dest w w'.
Proof. intros E. exists []. split; [exact E|constructor]. Qed.

Lemma confined_time_sleep dest n : preserves (confined dest) (time_sleep n).
Proof. intros w. apply confined_same_states. reflexivity. Qed.

Lemma confined_external dest ev env : preserves (confined dest) (external ev env).
Proof. intros w. apply confined_same_states. reflexivity. Qed.

Lemma confined_file_create dest :
  preserves (confined dest) (file_create (dest +:+ ".part")).
Proof.
  intros w. eexists [_]. split; [reflexivity|].
  constructor; [|constructor]. intros p _ Hp.
  apply lookup_insert_ne. congruence.
Qed.

Lemma confined_file_append dest b :
  preserves (confined dest) (file_append (dest +:+ ".part") b).
Proof.
  intros w. eexists [_]. split; [reflexivity|].
  constructor; [|constructor]. intros p _ Hp.
  apply lookup_insert_ne. congruence.
Qed.

Lemma confined_file_move dest :
  preserves (confined dest) (file_move (dest +:+ ".part") dest).
Proof.
  intros w. unfold file_move.
  destruct (w_fs w !! (dest +:+ ".part")) as [b|];
    [|apply confined_same_states; reflexivity].
  eexists [_]. split; [reflexivity|].
  constructor; [|constructor]. intros p Hp1 Hp2. cbn [w_fs set_fs snd].
  rewrite lookup_insert_ne by congruence. apply lookup_delete_ne. congruence.
Qed.

#[local] Hint Resolve confined_time_sleep confined_external
  confined_file_create confined_file_append confined_file_move : core.

Lemma confined_write_chunks dest cs :
  preserves (confined dest) (write_chunks (dest +:+ ".part") cs).
Proof.
  induction cs as [|c cs IH]; cbn [write_chunks]; repeat preserve_step.
Qed.

#[local] Hint Resolve confined_write_chunks : core.

Lemma confined_download_attempt env url dest :
  preserves (confined dest) (download_attempt env url dest).
Proof.
  unfold download_attempt. cbv zeta. preserve_step; [auto|].
  destruct (stream_fault _); repeat preserve_step.
Qed.

Lemma confined_download_loop env url dest max_retries n :
  forall attempts,
    preserves (confined dest) (download_loop env url dest max_retries n attempts).
Proof.
  induction n as [|n IH]; intros attempts; cbn [download_loop].
  - preserve_step.
  - preserve_step; [|preserve_step]. cbv zeta.
    preserve_step; [apply confined_download_attempt|].
    repeat preserve_step.
Qed.

(** C6. Every state of the files that [download_url_to_path] goes through,
    in any attempt, has at the destination either what was there before
    the call (nothing, when the caller found no file) or all the bytes of a
    stream that ended well, and differs from the state before the call at
    most at the destination and at [destination + ".part"]. When the call
    raises, the destination is as before; when it returns after at least
    one attempt, the destination holds a complete download. *)
Theorem download_is_atomic (env : Env) (url dest : string) (max_retries : Z)
    (w : world) :
  let r := download_url_to_path env url dest max_retries w in
  (exists new,
     states (snd r) = new ++ states w
     /\ Forall (fun fs => fs !! dest = w_fs w !! dest
                          \/ complete env url dest fs) new
     /\ Forall (fun fs => forall p, p <> dest -> p <> dest +:+ ".part" ->
                                    fs !! p = w_fs w !! p) new)
  /\ (forall e, fst r = Raise e -> w_fs (snd r) !! dest = w_fs w !! dest)
  /\ (forall u, fst r = Ret u -> 0 < max_retries ->
                complete env url dest (w_fs (snd r)))
  /\ fst r <> OutOfFuel.
Proof.
  cbv zeta. unfold download_url_to_path.
  destruct (download_loop_outcome env url dest (w_fs w !! dest) max_retries
              (Z.to_nat max_retries) 0 w ltac:(lia)) as [Hat Hres].
  destruct (confined_download_loop env url dest max_retries
              (Z.to_nat max_retries) 0 w) as (new' & E' & F').
  destruct (Hat (or_introl eq_refl)) as (new & E & F).
  split; [|split; [|split]].
  - exists new. split; [exact E|]. split; [exact F|].
    rewrite E in E'. apply app_inv_tail in E'. subst new'. exact F'.
  - intros e He. rewrite He in Hres. exact Hres.
  - intros u Hu Hpos. rewrite Hu in Hres. apply Hres. lia.
  - intros Ho. rewrite Ho in Hres. exact Hres.
Qed.

Example flaky_download_states :
  let r := download_url_to_path flaky_stream_env "https://r/pkg-1.0.tar.gz"
             "cache/pkg-1.0.tar.gz" 3 empty_world in
  fst r = Ret tt
  /\ map map_to_list (rev (states (snd r)))
     = [ [];
         [("cache/pkg-1.0.tar.gz.part", "")];
         [("cache/pkg-1.0.tar.gz.part", "by")];
         [("cache/pkg-1.0.tar.gz.part", "")];
         [("cache/pkg-1.0.tar.gz.part", "by")];
         [("cache/pkg-1.0.tar.gz.part", "bytes")];
         [("cache/pkg-1.0.tar.gz", "bytes")] ]
  /\ w_events (snd r)
     = [EvGet "https://r/pkg-1.0.tar.gz"; EvSleep 1;
        EvGet "https://r/pkg-1.0.tar.gz"].
Proof. vm_compute. auto. Qed.

Lemma download_is_atomic_witness :
  complete flaky_stream_env "https://r/pkg-1.0.tar.gz" "cache/pkg-1.0.tar.gz"
    (w_fs (snd (download_url_to_path flaky_stream_env
                  "https://r/pkg-1.0.tar.gz" "cache/pkg-1.0.tar.gz" 3
                  empty_world)))
  /\ w_fs (snd (download_url_to_path offline "https://r/pkg-1.0.tar.gz"
                  "cache/pkg-1.0.tar.gz" 3 empty_world))
     !! "cache/pkg-1.0.tar.gz" = None.
Proof.
  split.
  - destruct (download_is_atomic flaky_stream_env "https://r/pkg-1.0.tar.gz"
                "cache/pkg-1.0.tar.gz" 3 empty_world) as (_ & _ & Hret & _).
    apply (Hret tt); [vm_compute; reflexivity|lia].
  - destruct (download_is_atomic offline "https://r/pkg-1.0.tar.gz"
                "cache/pkg-1.0.tar.gz" 3 empty_world) as (_ & Hraise & _).
    rewrite (Hraise (RequestException "connection refused"))
      by (vm_compute; reflexivity).
    reflexivity.
Defined.

(** The fuel of the download loop plays no part once it covers the
    attempts that are left. *)
Lemma download_loop_fuel env url dest max_retries :
  forall n m attempts w,
    max_retries - attempts <= Z.of_nat n ->
    max_retries - attempts <= Z.of_nat m ->
    download_loop env url dest max_retries n attempts w
    = download_loop env url dest max_retries m attempts w.
Proof.
  induction n as [|n IH]; intros [|m] attempts w Hn Hm.
  - reflexivity.
  - rewrite download_loop_S.
    replace (attempts <? max_retries) with false
      by (symmetry; apply Z.ltb_ge; lia). reflexivity.
  - rewrite download_loop_S.
    replace (attempts <? max_retries) with false
      by (symmetry; apply Z.ltb_ge; lia). reflexivity.
  - rewrite !download_loop_S.
    destruct (attempts <? max_retries); [|reflexivity].
    unfold catch.
    destruct (download_attempt env url dest w) as [[[]|e|] w1]; try reflexivity.
    destruct (attempts + 1 >=? max_retries); [reflexivity|].
    unfold bind. cbn [time_sleep]. apply IH; lia.
Qed.

(** An artifact that is cached and recorded with the digest of the cached
    bytes is passed over: nothing is requested and nothing changes. *)
Lemma process_entry_short_circuit env cfg pkg e w b :
  w_fs w !! path_join (cache_dir cfg) (filename e) = Some b ->
  MirrorState.is_uploaded (w_data w) pkg (filename e) (env_sha256 env b) = true ->
  process_entry env cfg pkg e w = (Ret tt, w).
Proof.
  intros Hfs Hup.
  unfold process_entry, bind, path_exists, sha256_of_file, bind, file_read,
    get_world, ret.
  rewrite bool_decide_eq_true_2 by eauto. cbn [negb]. rewrite Hfs, Hup.
  reflexivity.
Qed.

(** A second run over the same package requests the index and nothing
    else: the wheel is in the ledger and the archive is in the cache. *)
Example second_run_uploads_nothing :
  let run := Jfrog.mirror_package_from_jfrog demo_env demo_cfg "https://r"
               "repo" "pkg" in
  let w1 := snd (run empty_world) in
  let w2 := snd (run w1) in
  w_events w2 = w_events w1 ++ [EvIndex "pkg"] /\ w_fs w2 = w_fs w1.
Proof. vm_compute. auto. Qed.

(** * Further properties of the three scripts *)

(** ** Persistence of the ledger *)

Lemma tmp_ne_path (path : string) : path +:+ ".tmp" <> path.
Proof.
  intros H. apply (f_equal String.length) in H.
  rewrite length_append in H. cbn [String.length] in H. lia.
Qed.

(** [save] after its first two steps: the fault of index [w_tick w]
    decides. *)
Lemma save_eq env path w :
  MirrorState.save env path w =
  let tmp := path +:+ ".tmp" in
  let doc := env_json_dump env (w_data w) in
  let w1 := snd (next_tick w) in
  match env_save_fault env (w_tick w) with
  | SaveOpenFault e => (Raise e, w1)
  | SaveWriteFault n e =>
      (Raise e,
       snd (file_append tmp (substring 0 n doc) (snd (file_create tmp w1))))
  | SaveMoveFault e =>
      (Raise e, snd (file_append tmp doc (snd (file_create tmp w1))))
  | SaveOk =>
      file_move tmp path (snd (file_append tmp doc (snd (file_create tmp w1))))
  end.
Proof.
  unfold MirrorState.save. cbv zeta. unfold bind at 1 2.
  cbn [get_world next_tick fst snd].
  destruct (env_save_fault env (w_tick w)); reflexivity.
Qed.

Lemma keeps_next_tick dest : preserves (keeps dest) next_tick.
Proof. intros w. apply keeps_same_states. reflexivity. Qed.

Lemma keeps_create_append dest tmp b w :
  tmp <> dest ->
  keeps dest w (snd (file_append tmp b (snd (file_create tmp w)))).
Proof.
  intros Hne. eapply keeps_trans.
  - apply (keeps_file_create dest tmp Hne w).
  - apply (keeps_file_append dest tmp b Hne).
Qed.

Lemma create_append_content tmp b w :
  w_fs (snd (file_append tmp b (snd (file_create tmp w)))) !! tmp = Some b.
Proof.
  cbn [file_create file_append set_fs snd w_fs].
  rewrite lookup_insert_eq. cbn [default from_option Datatypes.id].
  rewrite lookup_insert_eq. rewrite append_nil_l. reflexivity.
Qed.

Lemma keeps_ledger_intact path doc w w' :
  keeps path w w' ->
  exists new,
    states w' = new ++ states w
    /\ Forall (ledger_intact path (w_fs w !! path) doc) new.
Proof.
  intros (new & E & F). exists new. split; [exact E|].
  eapply List.Forall_impl; [|exact F]. intros fs Hfs. left. exact Hfs.
Qed.

(** X1. [MirrorState.save] never leaves a partial ledger at [path]: every
    state of the files it goes through has at [path] what was there before
    or the whole new document. It returns exactly when no step fails, and
    then [path] holds the document and the temporary file is gone; when it
    raises, [path] is as before. *)
Theorem save_is_atomic (env : Env) (path : string) (w : world) :
  let r := MirrorState.save env path w in
  let doc := env_json_dump env (w_data w) in
  (exists new,
     states (snd r) = new ++ states w
     /\ Forall (ledger_intact path (w_fs w !! path) doc) new)
  /\ (fst r = Ret tt <-> env_save_fault env (w_tick w) = SaveOk)
  /\ (fst r = Ret tt ->
      w_fs (snd r) !! path = Some doc
      /\ w_fs (snd r) !! (path +:+ ".tmp") = None)
  /\ (forall e, fst r = Raise e -> w_fs (snd r) !! path = w_fs w !! path)
  /\ fst r <> OutOfFuel.
Proof.
  cbv zeta. rewrite save_eq. cbv zeta.
  pose proof (tmp_ne_path path) as Hne.
  set (w1 := snd (next_tick w)).
  assert (H1 : keeps path w w1) by apply keeps_next_tick.
  destruct (env_save_fault env (w_tick w)) as [|e|n e|e] eqn:Hfault.
  - (* no fault: the move publishes the document *)
    set (w3 := snd (file_append _ _ (snd (file_create _ w1)))).
    assert (H3 : keeps path w w3).
    { eapply keeps_trans; [exact H1|]. apply keeps_create_append. exact Hne. }
    assert (Hc : w_fs w3 !! (path +:+ ".tmp")
                 = Some (env_json_dump env (w_data w)))
      by apply create_append_content.
    unfold file_move. rewrite Hc. cbn [set_fs fst snd w_fs].
    split; [|split; [|split; [|split]]].
    + destruct (keeps_ledger_intact path (env_json_dump env (w_data w)) w w3 H3)
        as (new & E & F).
      eexists (_ :: new). unfold states at 1. cbn [w_fs w_hist].
      fold (states w3). rewrite E. split; [reflexivity|].
      constructor; [|exact F]. right. apply lookup_insert_eq.
    + split; reflexivity.
    + intros _. split; [apply lookup_insert_eq|].
      rewrite lookup_insert_ne by congruence. apply lookup_delete_eq.
    + discriminate.
    + discriminate.
  - cbn [fst snd].
    split; [apply keeps_ledger_intact; exact H1|].
    split; [split; discriminate|]. split; [discriminate|].
    split; [|discriminate]. intros _ _. apply (keeps_last _ _ _ H1).
  - cbn [fst snd].
    set (w3 := snd (file_append _ _ (snd (file_create _ w1)))).
    assert (H3 : keeps path w w3).
    { eapply keeps_trans; [exact H1|]. apply keeps_create_append. exact Hne. }
    split; [apply keeps_ledger_intact; exact H3|].
    split; [split; discriminate|]. split; [discriminate|].
    split; [|discriminate]. intros _ _. apply (keeps_last _ _ _ H3).
  - cbn [fst snd].
    set (w3 := snd (file_append _ _ (snd (file_create _ w1)))).
    assert (H3 : keeps path w w3).
    { eapply keeps_trans; [exact H1|]. apply keeps_create_append. exact Hne. }
    split; [apply keeps_ledger_intact; exact H3|].
    split; [split; discriminate|]. split; [discriminate|].
    split; [|discriminate]. intros _ _. apply (keeps_last _ _ _ H3).
Qed.

Lemma save_ok env path w :
  env_save_fault env (w_tick w) = SaveOk ->
  fst (MirrorState.save env path w) = Ret tt
  /\ w_fs (snd (MirrorState.save env path w)) !! path
     = Some (env_json_dump env (w_data w)).
Proof.
  intros Hok. rewrite save_eq. cbv zeta. rewrite Hok.
  unfold file_move. rewrite create_append_content. cbn [set_fs fst snd w_fs].
  split; [reflexivity|apply lookup_insert_eq].
Qed.

Lemma mark_uploaded_saved env path w pkg f d meta :
  env_save_fault env (w_tick w) = SaveOk ->
  let w1 := snd (MirrorState.mark_uploaded env path pkg f d meta w) in
  w_fs w1 !! path = Some (env_json_dump env (w_data w1)).
Proof.
  intros Hok. cbv zeta. rewrite mark_uploaded_data.
  unfold MirrorState.mark_uploaded. unfold bind at 1 2 3.
  cbn [get_world time_time set_data fst snd].
  match goal with
  | |- context [MirrorState.save env path ?wa] =>
      destruct (save_ok env path wa Hok) as [Hret Hfile];
      rewrite (surjective_pairing (MirrorState.save env path wa)), Hret
  end.
  cbn [snd]. rewrite Hfile. reflexivity.
Qed.

Lemma is_uploaded_empty pkg f d : MirrorState.is_uploaded ∅ pkg f d = false.
Proof. unfold MirrorState.is_uploaded. rewrite lookup_empty. reflexivity. Qed.

(** X2. The ledger survives a restart. After a [mark_uploaded] whose save
    went through, a [MirrorState] built from the same file (the JSON codec
    reading back what it wrote) holds the same records, so the artifact
    reads as uploaded. When the file is missing or cannot be parsed, the
    constructor does not raise and gives the empty ledger: nothing reads
    as uploaded. *)
Theorem ledger_survives_restart (env : Env) (path : string) :
  (forall w pkg f d meta w2,
     let w1 := snd (MirrorState.mark_uploaded env path pkg f d meta w) in
     env_save_fault env (w_tick w) = SaveOk ->
     env_json_load env (env_json_dump env (w_data w1)) = Some (w_data w1) ->
     w_fs w2 !! path = w_fs w1 !! path ->
     let r := MirrorState.init env path w2 in
     fst r = Ret tt
     /\ w_data (snd r) = w_data w1
     /\ MirrorState.is_uploaded (w_data (snd r)) pkg f d = true)
  /\ (forall w2,
        (w_fs w2 !! path = None
         \/ exists b, w_fs w2 !! path = Some b /\ env_json_load env b = None) ->
        let r := MirrorState.init env path w2 in
        fst r = Ret tt
        /\ w_fs (snd r) = w_fs w2
        /\ forall pkg f d,
             MirrorState.is_uploaded (w_data (snd r)) pkg f d = false).
Proof.
  split.
  - intros w pkg f d meta w2 w1 Hok Hcodec Hfile. cbv zeta.
    pose proof (mark_uploaded_saved env path w pkg f d meta Hok) as Hsaved.
    cbv zeta in Hsaved. fold w1 in Hsaved.
    unfold MirrorState.init. unfold bind. cbn [get_world].
    rewrite Hfile, Hsaved, Hcodec. cbn [set_data fst snd w_data].
    split; [reflexivity|]. split; [reflexivity|].
    unfold w1. rewrite mark_uploaded_data. apply set_uploaded_is_uploaded.
  - intros w2 Hbad. cbv zeta.
    unfold MirrorState.init. unfold bind. cbn [get_world].
    destruct Hbad as [Hnone|(b & Hb & Hload)].
    + rewrite Hnone. cbn [set_data fst snd w_data w_fs].
      split; [reflexivity|]. split; [reflexivity|].
      intros. apply is_uploaded_empty.
    + rewrite Hb, Hload. cbn [set_data fst snd w_data w_fs].
      split; [reflexivity|]. split; [reflexivity|].
      intros. apply is_uploaded_empty.
Qed.

Lemma ledger_survives_restart_witness :
  (let env := echo_env (MirrorState.set_uploaded ∅ "pkg" "pkg-1.0-py3.whl"
                          "abc" ∅ 0) in
   let w1 := snd (MirrorState.mark_uploaded env "cache/state.json" "pkg"
                    "pkg-1.0-py3.whl" "abc" ∅ empty_world) in
   let fresh := World (w_fs w1) [] 50 0 [] ∅ in
   MirrorState.is_uploaded
     (w_data (snd (MirrorState.init env "cache/state.json" fresh)))
     "pkg" "pkg-1.0-py3.whl" "abc" = true)
  /\ (forall pkg f d,
        MirrorState.is_uploaded
          (w_data (snd (MirrorState.init offline "cache/state.json"
                          empty_world))) pkg f d = false).
Proof.
  split.
  - cbv zeta.
    destruct (ledger_survives_restart
                (echo_env (MirrorState.set_uploaded ∅ "pkg" "pkg-1.0-py3.whl"
                             "abc" ∅ 0)) "cache/state.json") as [Hround _].
    refine (proj2 (proj2 (Hround empty_world "pkg" "pkg-1.0-py3.whl" "abc" ∅
                            _ _ _ _))).
    + reflexivity.
    + vm_compute. reflexivity.
    + reflexivity.
  - destruct (ledger_survives_restart offline "cache/state.json") as [_ Hbad].
    apply (Hbad empty_world). left. reflexivity.
Defined.

(** X3. [mark_uploaded] is an upsert on one key: what is read under any
    other key is as before, and under its own key only the digest just
    marked reads as uploaded, whatever was recorded there earlier. *)
Theorem mark_uploaded_upserts (env : Env) (path : string) (w : world)
    (pkg f d : string) (meta : dict) :
  let w1 := snd (MirrorState.mark_uploaded env path pkg f d meta w) in
  (forall pkg2 f2 d2,
     MirrorState.key pkg2 f2 <> MirrorState.key pkg f ->
     MirrorState.is_uploaded (w_data w1) pkg2 f2 d2
     = MirrorState.is_uploaded (w_data w) pkg2 f2 d2)
  /\ (forall d2, d2 <> d ->
                 MirrorState.is_uploaded (w_data w1) pkg f d2 = false).
Proof.
  cbv zeta. rewrite mark_uploaded_data. split.
  - intros pkg2 f2 d2 Hk. unfold MirrorState.is_uploaded, MirrorState.set_uploaded.
    rewrite lookup_insert_ne by congruence. reflexivity.
  - intros d2 Hd.
    destruct (MirrorState.is_uploaded _ pkg f d2) eqn:E; [|reflexivity].
    apply is_uploaded_true in E. destruct E as (rec & Hrec & Hs & _).
    unfold MirrorState.set_uploaded in Hrec. rewrite lookup_insert_eq in Hrec.
    injection Hrec as <-. unfold MirrorState.record in Hs.
    rewrite lookup_insert_eq in Hs. congruence.
Qed.

Lemma mark_uploaded_upserts_witness :
  let w0 := World ∅ [] 0 0 [] stale_ledger in
  let w1 := snd (MirrorState.mark_uploaded offline "cache/state.json" "pkg"
                   "pkg-1.0-py3.whl" "new" ∅ w0) in
  MirrorState.is_uploaded (w_data w0) "pkg" "pkg-1.0-py3.whl" "old" = true
  /\ MirrorState.is_uploaded (w_data w1) "pkg" "pkg-1.0-py3.whl" "old" = false
  /\ MirrorState.is_uploaded (w_data w1) "pkg" "pkg-2.0-py3.whl" "old"
     = MirrorState.is_uploaded (w_data w0) "pkg" "pkg-2.0-py3.whl" "old".
Proof.
  cbv zeta. split; [vm_compute; reflexivity|].
  destruct (mark_uploaded_upserts offline "cache/state.json"
              (World ∅ [] 0 0 [] stale_ledger) "pkg" "pkg-1.0-py3.whl" "new" ∅)
    as [Hother Hown].
  split.
  - apply Hown. discriminate.
  - apply Hother. discriminate.
Defined.

(** ** What never raises *)

Lemma finishes_ret {A} (a : A) : finishes (ret a).
Proof. intros w. discriminate. Qed.

Lemma finishes_raise {A} (e : exn) : finishes (@raise A e).
Proof. intros w. discriminate. Qed.

Lemma finishes_bind {A B} (m : M A) (k : A -> M B) :
  finishes m -> (forall a, finishes (k a)) -> finishes (bind m k).
Proof.
  intros Hm Hk w. unfold bind. specialize (Hm w).
  destruct (m w) as [[a|e|] w1]; cbn [fst] in *;
    [apply Hk|discriminate|contradiction].
Qed.

Lemma finishes_catch {A} (m : M A) (h : exn -> M A) :
  finishes m -> (forall e, finishes (h e)) -> finishes (catch m h).
Proof.
  intros Hm Hh w. unfold catch. specialize (Hm w).
  destruct (m w) as [[a|e|] w1]; cbn [fst] in *;
    [discriminate|apply Hh|contradiction].
Qed.

Lemma finishes_if {A} (b : bool) (m1 m2 : M A) :
  finishes m1 -> finishes m2 -> finishes (if b then m1 else m2).
Proof. destruct b; auto. Qed.

Lemma returns_finishes {A} (m : M A) : returns m -> finishes m.
Proof. intros H w. destruct (H w) as [a ->]. discriminate. Qed.

Lemma returns_ret {A} (a : A) : returns (ret a).
Proof. intros w. exists a. reflexivity. Qed.

Lemma returns_bind {A B} (m : M A) (k : A -> M B) :
  returns m -> (forall a, returns (k a)) -> returns (bind m k).
Proof.
  intros Hm Hk w. unfold bind. destruct (Hm w) as [a Ha].
  destruct (m w) as [o w1]. cbn [fst] in Ha. subst o. apply Hk.
Qed.

(** [try: m except Exception: h] returns when the handler does. *)
Lemma returns_catch {A} (m : M A) (h : exn -> M A) :
  finishes m -> (forall e, returns (h e)) -> returns (catch m h).
Proof.
  intros Hm Hh w. unfold catch. specialize (Hm w).
  destruct (m w) as [[a|e|] w1]; cbn [fst] in *;
    [exists a; reflexivity|apply Hh|contradiction].
Qed.

Lemma returns_for_each {A} (body : A -> M unit) (l : list A) :
  (forall x, returns (body x)) -> returns (for_each body l).
Proof.
  intros Hb. induction l as [|x l IH]; cbn [for_each].
  - apply returns_ret.
  - apply returns_bind; auto.
Qed.

Lemma finishes_primitive :
  finishes get_world /\ finishes time_time /\ finishes next_tick
  /\ (forall n, finishes (time_sleep n))
  /\ (forall ev env, finishes (external ev env))
  /\ (forall ev, finishes (journal ev))
  /\ (forall d, finishes (set_data d))
  /\ (forall p, finishes (path_exists p))
  /\ (forall p, finishes (file_create p))
  /\ (forall p b, finishes (file_append p b))
  /\ (forall p q, finishes (file_move p q))
  /\ (forall p, finishes (file_read p)).
Proof.
  repeat split; try (intros; intros w; discriminate).
  - intros p q w. unfold file_move. destruct (w_fs w !! p); discriminate.
  - intros p w. unfold file_read. destruct (w_fs w !! p); discriminate.
Qed.

Ltac finish_step :=
  cbv beta;
  lazymatch goal with
  | |- finishes (ret _) => apply finishes_ret
  | |- finishes (raise _) => apply finishes_raise
  | |- finishes (bind _ _) => apply finishes_bind; [|intros ?]
  | |- finishes (catch _ _) => apply finishes_catch; [|intros ?]
  | |- finishes (if _ then _ else _) => apply finishes_if
  | |- finishes get_world => apply finishes_primitive
  | |- finishes time_time => apply finishes_primitive
  | |- finishes next_tick => apply finishes_primitive
  | |- finishes (time_sleep _) => apply finishes_primitive
  | |- finishes (external _ _) => apply finishes_primitive
  | |- finishes (journal _) => apply finishes_primitive
  | |- finishes (set_data _) => apply finishes_primitive
  | |- finishes (path_exists _) => apply finishes_primitive
  | |- finishes (file_create _) => apply finishes_primitive
  | |- finishes (file_append _ _) => apply finishes_primitive
  | |- finishes (file_move _ _) => apply finishes_primitive
  | |- finishes (file_read _) => apply finishes_primitive
  | |- _ => solve [auto 2]
  end.

Lemma finishes_save env path : finishes (MirrorState.save env path).
Proof.
  unfold MirrorState.save. cbv zeta. finish_step; [finish_step|].
  finish_step; [finish_step|].
  destruct (env_save_fault env _); repeat finish_step.
Qed.

Lemma finishes_mark_uploaded env path pkg f d m :
  finishes (MirrorState.mark_uploaded env path pkg f d m).
Proof.
  unfold MirrorState.mark_uploaded. repeat finish_step. apply finishes_save.
Qed.

Lemma returns_upload_wheel_at env path max_retries w :
  is_Some (w_fs w !! path) ->
  exists d w', upload_wheel env path max_retries w = (Ret d, w').
Proof.
  intros Hex.
  destruct (upload_wheel_runs env path max_retries w Hex)
    as (a & d & w' & Hrun & _).
  eauto.
Qed.

(** Once the file is in the cache, the rest of the loop body returns. *)
Lemma entry_tail_returns env cfg pkg e w :
  is_Some (w_fs w !! path_join (cache_dir cfg) (filename e)) ->
  fst (entry_tail env cfg pkg e w) = Ret tt.
Proof.
  intros Hex. pose proof Hex as [b Hb].
  unfold entry_tail. cbv zeta.
  unfold bind at 1. unfold sha256_of_file at 1. unfold bind at 1.
  unfold file_read. rewrite Hb. cbn [ret]. unfold bind at 1. cbn [get_world].
  destruct (MirrorState.is_uploaded _ _ _ _); [reflexivity|].
  destruct (upload_wheels_only cfg && _); [reflexivity|].
  unfold catch, bind.
  destruct (returns_upload_wheel_at env (path_join (cache_dir cfg) (filename e))
              3 w Hex) as (d & w' & ->).
  destruct (get_truthy (d !! "success")); [|reflexivity].
  pose proof (finishes_mark_uploaded env (state_path cfg) pkg (filename e)
                (env_sha256 env b) d w') as Hfin.
  destruct (MirrorState.mark_uploaded _ _ _ _ _ _ w') as [[[]|e'|] w2];
    cbn [fst] in *; [reflexivity|reflexivity|contradiction].
Qed.

Lemma process_entry_eq env cfg pkg e :
  process_entry env cfg pkg e =
  (let local_path := path_join (cache_dir cfg) (filename e) in
   let* found := path_exists local_path in
   let* present :=
     (if found then ret true
      else catch (download_url_to_path env (url e) local_path 3 >> ret true)
                 (fun _ => ret false)) in
   if negb present then ret tt else entry_tail env cfg pkg e).
Proof. reflexivity. Qed.

(** The download of [process_entry]: it ends with [true] and the file in
    the cache, or with [false]. *)
Lemma fetch_outcome env url dest w :
  let r := catch (download_url_to_path env url dest 3 >> ret true)
                 (fun _ => ret false) w in
  (fst r = Ret true /\ is_Some (w_fs (snd r) !! dest)) \/ fst r = Ret false.
Proof.
  cbv zeta. unfold catch, bind, download_url_to_path.
  pose proof (download_loop_outcome env url dest (w_fs w !! dest) 3
                (Z.to_nat 3) 0 w ltac:(lia)) as [_ Hres].
  destruct (download_loop env url dest 3 (Z.to_nat 3) 0 w) as [[[]|e|] w1];
    cbn [fst snd ret] in *.
  - left. split; [reflexivity|].
    destruct (Hres ltac:(lia)) as (t & _ & Hb). eauto.
  - right. reflexivity.
  - contradiction.
Qed.

Lemma process_entry_returns env cfg pkg e w :
  fst (process_entry env cfg pkg e w) = Ret tt.
Proof.
  rewrite process_entry_eq. cbv zeta. unfold bind at 1.
  cbn [path_exists fst snd].
  case_bool_decide as Hfound.
  - unfold bind at 1. cbn [ret negb]. apply entry_tail_returns. exact Hfound.
  - unfold bind at 1.
    pose proof (fetch_outcome env (url e)
                  (path_join (cache_dir cfg) (filename e)) w) as Hf.
    cbv zeta in Hf.
    destruct (catch _ _ w) as [o w1]. cbn [fst snd] in Hf.
    destruct Hf as [[-> Hex]| ->]; cbn [negb].
    + apply entry_tail_returns. exact Hex.
    + reflexivity.
Qed.

Lemma wait_for_publish_returns env id max_wait :
  returns (_wait_for_publish_completion env id max_wait).
Proof.
  intros w. unfold _wait_for_publish_completion.
  case_bool_decide; [eexists; reflexivity|].
  unfold bind. cbn [time_time].
  destruct (wait_loop_total env id max_wait (w_clock w) (poll_fuel max_wait) w)
    as (d & w' & ->); [unfold poll_fuel; lia|].
  exists d. reflexivity.
Qed.

Lemma finishes_publish_environment env : finishes (publish_environment env).
Proof.
  unfold publish_environment. finish_step; [finish_step|].
  destruct (env_post_publish env _) as [e|r]; [finish_step|].
  finish_step; [|cbv zeta; finish_step].
  finish_step; [|finish_step].
  destruct (headers_get _ _); [|finish_step].
  finish_step; [|finish_step].
  apply returns_finishes, wait_for_publish_returns.
Qed.

Lemma publish_step_returns env cfg : returns (publish_step env cfg).
Proof.
  unfold publish_step. destruct (publish_after cfg); [|apply returns_ret].
  apply returns_catch.
  - finish_step; [apply finishes_publish_environment|finish_step].
  - intros e. apply returns_ret.
Qed.





Lemma simple_index_eq env pkg w :
  simple_index env pkg w
  = (match env_simple_index env (w_tick w) pkg with
     | inl e => Raise e
     | inr urls => Ret urls
     end, snd (external (EvIndex pkg) env w)).
Proof.
  unfold simple_index, bind. cbn [external].
  destruct (env_simple_index env (w_tick w) pkg); reflexivity.
Qed.

Lemma artifactory_list_eq env w :
  Jfrog.artifactory_list env w
  = (match env_storage_list env (w_tick w) with
     | inl e => Raise e
     | inr files => Ret files
     end, snd (external EvStorage env w)).
Proof.
  unfold Jfrog.artifactory_list, bind. cbn [external].
  destruct (env_storage_list env (w_tick w)); reflexivity.
Qed.



(** ** What the polling loop can answer *)

Lemma py_eq_str_default (o : option pyval) (fallback s : string) :
  fallback <> s ->
  py_eq_str (default (PStr fallback) o) s = true -> o = Some (PStr s).
Proof.
  intros Hne. destruct o as [[| | |t| |]|]; cbn; try discriminate.
  - rewrite bool_decide_eq_true. congruence.
  - rewrite bool_decide_eq_true. congruence.
Qed.

(** A pass of the loop returns a result only for an answer 200 whose JSON
    object says [Succeeded] or [Failed]; everything else is waited out. *)
Lemma poll_step_result env id w :
  (exists r os,
     env_get_operation env (w_tick w) id = inr r
     /\ status_code r = 200 /\ json r = Some (PDict os)
     /\ ((os !! "status" = Some (PStr "Succeeded")
          /\ poll_step env id w
             = (Ret (Some (publish_succeeded os)), polled env id w))
         \/ (os !! "status" = Some (PStr "Failed")
             /\ poll_step env id w
                = (Ret (Some (publish_failed env os)), polled env id w))))
  \/ poll_step env id w = (Ret None, polled_slept env id w).
Proof.
  unfold poll_step, polled_slept, polled, catch, bind.
  cbn [external fst snd].
  destruct (env_get_operation env (w_tick w) id) as [e|r] eqn:Hr;
    [right; reflexivity|].
  destruct (status_code r =? 200) eqn:Hc; [|right; reflexivity].
  apply Z.eqb_eq in Hc.
  destruct (json r) as [[| | | | |os]|] eqn:Hj; try (right; reflexivity).
  cbv zeta.
  destruct (py_eq_str _ "Succeeded") eqn:Hs.
  { left. exists r, os. split; [reflexivity|]. split; [exact Hc|].
    split; [exact Hj|]. left. split; [|reflexivity].
    apply (py_eq_str_default _ "Unknown"); [discriminate|exact Hs]. }
  destruct (py_eq_str _ "Failed") eqn:Hf.
  { left. exists r, os. split; [reflexivity|]. split; [exact Hc|].
    split; [exact Hj|]. right. split; [|reflexivity].
    apply (py_eq_str_default _ "Unknown"); [discriminate|exact Hf]. }
  destruct (_ || _); right; reflexivity.
Qed.

Lemma polled_slept_tick env id w :
  w_tick (polled_slept env id w) = S (w_tick w).
Proof. reflexivity. Qed.

Lemma polled_slept_events env id w :
  w_events (polled_slept env id w) = w_events w ++ [EvPoll id; EvSleep 10].
Proof.
  unfold polled_slept, polled. cbn. rewrite <- app_assoc. reflexivity.
Qed.

Lemma wait_loop_answers env id max_wait start :
  forall fuel w,
    Z.max 0 (max_wait - (w_clock w - start)) < Z.of_nat fuel ->
    exists d w' k,
      wait_loop env id max_wait start fuel w = (Ret d, w')
      /\ ((d = publish_timeout
           /\ w_events w' = w_events w ++ poll_journal id k
           /\ max_wait <= w_clock w' - start
           /\ (k <> 0%nat ->
               w_clock w - start + 10 * (Z.of_nat k - 1) < max_wait))
          \/ (w_events w' = w_events w ++ poll_journal id k ++ [EvPoll id]
              /\ w_clock w - start + 10 * Z.of_nat k < max_wait
              /\ exists r os,
                   env_get_operation env (w_tick w + k)%nat id = inr r
                   /\ status_code r = 200 /\ json r = Some (PDict os)
                   /\ ((os !! "status" = Some (PStr "Succeeded")
                        /\ d = publish_succeeded os)
                       \/ (os !! "status" = Some (PStr "Failed")
                           /\ d = publish_failed env os)))).
Proof.
  induction fuel as [|fuel IH]; intros w Hfuel; [lia|].
  rewrite wait_loop_S.
  destruct (w_clock w - start <? max_wait) eqn:Hlt.
  2:{ apply Z.ltb_ge in Hlt. exists publish_timeout, w, 0%nat.
      split; [reflexivity|]. left. cbn [poll_journal]. rewrite app_nil_r.
      split; [reflexivity|]. split; [reflexivity|]. split; [lia|congruence]. }
  apply Z.ltb_lt in Hlt.
  destruct (poll_step_result env id w)
    as [(r & os & Hr & Hc & Hj & Hst)| Hnone].
  - assert (Hw : exists d,
               poll_step env id w = (Ret (Some d), polled env id w)
               /\ ((os !! "status" = Some (PStr "Succeeded")
                    /\ d = publish_succeeded os)
                   \/ (os !! "status" = Some (PStr "Failed")
                       /\ d = publish_failed env os))).
    { destruct Hst as [[Hs He]|[Hs He]]; eexists; (split; [exact He|]); auto. }
    destruct Hw as (d & He & Hd). rewrite He.
    exists d, (polled env id w), 0%nat. split; [reflexivity|]. right.
    split; [reflexivity|]. split; [lia|].
    exists r, os. rewrite Nat.add_0_r. auto.
  - rewrite Hnone.
    pose proof (polled_slept_clock env id w) as Hclock.
    destruct (IH (polled_slept env id w) ltac:(lia))
      as (d & w' & k & Hrun & Hcase).
    exists d, w', (S k). split; [exact Hrun|].
    rewrite polled_slept_events, polled_slept_tick in Hcase.
    destruct Hcase as [(Hd & Hev & Hend & Hk)|(Hev & Hb & r & os & Hr & Hrest)].
    + left. split; [exact Hd|].
      split; [rewrite Hev, <- app_assoc; reflexivity|].
      split; [exact Hend|]. intros _.
      destruct k as [|k]; [lia|]. specialize (Hk ltac:(lia)). lia.
    + right. split; [rewrite Hev, <- app_assoc; reflexivity|].
      split; [lia|]. exists r, os.
      replace (w_tick w + S k)%nat with (S (w_tick w) + k)%nat by lia. auto.
Qed.

(** X6. Whatever the operation endpoint does, and it may raise, answer
    with an error status or send a body that is no JSON object,
    [_wait_for_publish_completion] returns a result and never raises. The
    result is a success only if the poll just made was answered 200 with
    status [Succeeded], a reported failure only if it was answered 200 with
    status [Failed], and the timeout result otherwise; every earlier poll
    was followed by a sleep of ten seconds, so that at most
    [max_wait / 10], rounded up, polls are made, and none when
    [max_wait <= 0]. *)
Theorem wait_for_publish_answers (env : Env) (id : string) (max_wait : Z)
    (w : world) :
  id <> "" ->
  let r := _wait_for_publish_completion env id max_wait w in
  exists d k,
    fst r = Ret d
    /\ ((d = publish_timeout
         /\ w_events (snd r) = w_events w ++ poll_journal id k
         /\ max_wait <= w_clock (snd r) - w_clock w
         /\ 10 * Z.of_nat k < Z.max 0 max_wait + 10
         /\ (max_wait <= 0 -> k = 0%nat))
        \/ (w_events (snd r) = w_events w ++ poll_journal id k ++ [EvPoll id]
            /\ 10 * Z.of_nat (S k) < Z.max 0 max_wait + 10
            /\ exists a os,
                 env_get_operation env (w_tick w + k)%nat id = inr a
                 /\ status_code a = 200 /\ json a = Some (PDict os)
                 /\ ((os !! "status" = Some (PStr "Succeeded")
                      /\ d = publish_succeeded os)
                     \/ (os !! "status" = Some (PStr "Failed")
                         /\ d = publish_failed env os)))).
Proof.
  intros Hid. cbv zeta. unfold _wait_for_publish_completion.
  rewrite bool_decide_eq_false_2 by exact Hid.
  unfold bind. cbn [time_time].
  destruct (wait_loop_answers env id max_wait (w_clock w) (poll_fuel max_wait) w)
    as (d & w' & k & Hrun & Hcase); [unfold poll_fuel; lia|].
  rewrite Hrun. cbn [fst snd]. exists d, k. split; [reflexivity|].
  destruct Hcase as [(Hd & Hev & Hend & Hk)|(Hev & Hb & Hans)].
  - left. split; [exact Hd|]. split; [exact Hev|]. split; [exact Hend|].
    destruct k as [|k]; [split; [lia|reflexivity]|].
    specialize (Hk ltac:(lia)). split; lia.
  - right. split; [exact Hev|]. split; [lia|exact Hans].
Qed.

Lemma wait_for_publish_answers_witness :
  fst (_wait_for_publish_completion offline "op-1" 300 empty_world)
  = Ret publish_timeout.
Proof.
  destruct (wait_for_publish_answers offline "op-1" 300 empty_world
              ltac:(discriminate)) as (d & k & Hr & Hcase).
  destruct Hcase as [(Hd & _)|(_ & _ & a & os & Ha & _)].
  - rewrite Hr, Hd. reflexivity.
  - discriminate.
Defined.

(** ** The publish request *)

(** X7. [publish_environment] polls the operation only when the publish
    request is answered 202 with a non-empty [x-ms-operation-id] header. For
    every other answer the publish POST is the only request of the call,
    and the result has [success] true exactly when the status is 200 or
    202: an empty operation id counts as none, and 201 or 204 count as
    failures. When the request itself raises, the exception leaves the
    call. *)
Theorem publish_environment_immediate (env : Env) (w : world) :
  (forall r,
     env_post_publish env (w_tick w) = inr r ->
     (status_code r = 202 ->
      headers_get (headers r) "x-ms-operation-id" = None
      \/ headers_get (headers r) "x-ms-operation-id" = Some "") ->
     let res := publish_environment env w in
     snd res = snd (external EvPublish env w)
     /\ exists d,
          fst res = Ret d
          /\ d !! "success"
             = Some (PBool ((status_code r =? 200) || (status_code r =? 202)))
          /\ d !! "status_code" = Some (PInt (status_code r)))
  /\ (forall e,
        env_post_publish env (w_tick w) = inl e ->
        publish_environment env w = (Raise e, snd (external EvPublish env w))).
Proof.
  split.
  - intros r Hr Hid. cbv zeta.
    unfold publish_environment. unfold bind. cbn [external].
    rewrite Hr.
    destruct (status_code r =? 200) eqn:H200; cbn [orb].
    + apply Z.eqb_eq in H200. rewrite H200. cbn [Z.eqb Pos.eqb].
      split; [reflexivity|]. eexists. split; [reflexivity|].
      split; reflexivity.
    + destruct (status_code r =? 202) eqn:H202.
      * apply Z.eqb_eq in H202.
        destruct (Hid H202) as [-> | ->]; rewrite H202; cbn [negb];
          (split; [reflexivity|]); eexists; (split; [reflexivity|]);
          split; reflexivity.
      * cbv zeta. split; [reflexivity|]. eexists. split; [reflexivity|].
        split; reflexivity.
  - intros e He. unfold publish_environment. unfold bind. cbn [external].
    rewrite He. reflexivity.
Qed.

Lemma publish_environment_immediate_witness :
  let res := publish_environment no_content_env empty_world in
  exists d, fst res = Ret d /\ d !! "success" = Some (PBool false)
            /\ w_events (snd res) = [EvPublish].
Proof.
  destruct (publish_environment_immediate no_content_env empty_world)
    as [Himm _].
  destruct (Himm (Response 204 [] None "") eq_refl) as (Hw & d & Hd & Hs & _).
  - cbn. discriminate.
  - exists d. split; [exact Hd|]. split; [exact Hs|]. cbv zeta.
    rewrite Hw. reflexivity.
Defined.

(** ** Where the retries stop *)

Lemma stops_after_one_failure env path name t n d :
  attempt_fails (env_post_file env t path) ->
  n = 0%nat ->
  get_truthy (d !! "success") = false ->
  stops_after env path name t (S n) 1 d.
Proof.
  intros Hf -> Hd. split; [lia|]. split; [intros i Hi; lia|].
  right. split; [reflexivity|]. split; [exact Hd|].
  intros i Hi. replace (t + i)%nat with t by lia. exact Hf.
Qed.

Lemma stops_after_one_success env path name t n r :
  env_post_file env t path = inr r ->
  status_code r = 200 ->
  stops_after env path name t (S n) 1 (upload_result_of env name r).
Proof.
  intros Hr Hc. split; [lia|]. split; [intros i Hi; lia|].
  left. exists r. split; [lia|].
  replace (t + 1 - 1)%nat with t by lia. auto.
Qed.

Lemma stops_after_later env path name t n a d :
  attempt_fails (env_post_file env t path) ->
  stops_after env path name (S t) n a d ->
  stops_after env path name t (S n) (S a) d.
Proof.
  intros Hf (Hle & Hearly & Hend).
  assert (Hshift : forall i, attempt_fails
                     (env_post_file env (S t + i)%nat path) ->
                   attempt_fails (env_post_file env (t + S i)%nat path)).
  { intros i H. replace (t + S i)%nat with (S t + i)%nat by lia. exact H. }
  split; [lia|]. split.
  { intros [|i] Hi.
    - rewrite Nat.add_0_r. exact Hf.
    - apply Hshift, Hearly. lia. }
  destruct Hend as [(r & Ha & Hr & Hc & Hd)|(Ha & Hs & Hall)].
  - left. exists r. split; [lia|].
    replace (t + S a - 1)%nat with (S t + a - 1)%nat by lia. auto.
  - right. split; [lia|]. split; [exact Hs|].
    intros [|i] Hi.
    + rewrite Nat.add_0_r. exact Hf.
    + apply Hshift, Hall. lia.
Qed.

Lemma upload_loop_stops env path name mr b :
  forall n k w,
    w_fs w !! path = Some b ->
    (n = 0%nat \/ Z.of_nat (k + n) = mr) ->
    exists a d w',
      upload_loop env path name mr (map Z.of_nat (seq k n)) w = (Ret d, w')
      /\ w_events w' = w_events w ++ retry_journal (EvPost path) (Z.of_nat k) a
      /\ (n <> 0%nat -> (1 <= a)%nat)
      /\ stops_after env path name (w_tick w) n a d.
Proof.
  induction n as [|n IH]; intros k w Hfs Hk.
  - exists 0%nat, (upload_fallthrough mr name), w.
    split; [reflexivity|]. split; [cbn; rewrite app_nil_r; reflexivity|].
    split; [congruence|].
    split; [lia|]. split; [intros i Hi; lia|].
    right. split; [reflexivity|]. split; [reflexivity|]. intros i Hi. lia.
  - destruct Hk as [Hk|Hk]; [discriminate|].
    assert (Hlast : (Z.of_nat k =? mr - 1) = bool_decide (n = 0%nat)).
    { case_bool_decide; [apply Z.eqb_eq|apply Z.eqb_neq]; lia. }
    cbn [seq map upload_loop]. unfold bind at 1.
    rewrite (upload_step_eq env path name mr (Z.of_nat k) w b Hfs). cbv zeta.
    rewrite Hlast.
    (* the pass ends the loop with result d *)
    assert (Hstop : forall d,
      stops_after env path name (w_tick w) (S n) 1 d ->
      exists a d' w',
        (Ret d, snd (external (EvPost path) env w)) = (Ret d', w')
        /\ w_events w'
           = w_events w ++ retry_journal (EvPost path) (Z.of_nat k) a
        /\ (S n <> 0%nat -> (1 <= a)%nat)
        /\ stops_after env path name (w_tick w) (S n) a d').
    { intros d Hd. exists 1%nat, d, (snd (external (EvPost path) env w)).
      split; [reflexivity|]. split; [reflexivity|]. split; [lia|]. exact Hd. }
    (* the pass sleeps and the loop goes on *)
    assert (Hgo : attempt_fails (env_post_file env (w_tick w) path) ->
      n <> 0%nat ->
      exists a d' w',
        upload_loop env path name mr (map Z.of_nat (seq (S k) n))
          (snd (time_sleep (2 ^ Z.of_nat k)
                  (snd (external (EvPost path) env w)))) = (Ret d', w')
        /\ w_events w'
           = w_events w ++ retry_journal (EvPost path) (Z.of_nat k) a
        /\ (S n <> 0%nat -> (1 <= a)%nat)
        /\ stops_after env path name (w_tick w) (S n) a d').
    { intros Hf Hn.
      destruct (IH (S k)
                  (snd (time_sleep (2 ^ Z.of_nat k)
                          (snd (external (EvPost path) env w)))))
        as (a & d & w' & Hrun & Hev & Hge & Hend).
      { exact Hfs. }
      { right. lia. }
      cbn [time_sleep external snd w_tick] in Hend.
      exists (S a), d, w'. split; [exact Hrun|].
      destruct a as [|a]; [specialize (Hge Hn); lia|].
      split.
      { rewrite Hev, retry_journal_cons. cbn [time_sleep external snd w_events].
        rewrite <- !app_assoc. cbn [app].
        replace (Z.of_nat (S k)) with (Z.of_nat k + 1) by lia.
        reflexivity. }
      split; [lia|].
      apply stops_after_later; assumption. }
    destruct (env_post_file env (w_tick w) path) as [e|r] eqn:Ho.
    + case_bool_decide as Hn0.
      * apply Hstop, stops_after_one_failure;
          [rewrite Ho; exact I|assumption|apply upload_exhausted_success].
      * apply Hgo; auto. exact I.
    + destruct (status_code r =? 200) eqn:Hst.
      * apply Z.eqb_eq in Hst.
        apply Hstop, stops_after_one_success; assumption.
      * apply Z.eqb_neq in Hst. case_bool_decide as Hn0.
        -- apply Hstop, stops_after_one_failure;
             [rewrite Ho; exact Hst|assumption|].
           cbn [failure_of]. rewrite upload_result_success.
           apply Z.eqb_neq. exact Hst.
        -- apply Hgo; auto.
Qed.

(** X8. [upload_wheel] stops at the first attempt that is answered 200.
    For a file that exists it makes [a] POSTs, at most [max_retries], with
    the doubling sleeps between them; every POST before the last one
    failed (it raised, or its status was not 200); and either the last one
    was answered 200, and its success result is what is returned, or all
    [max_retries] attempts failed and the result says so. *)
Theorem upload_wheel_stops_at_first_success (env : Env) (path : string)
    (max_retries : Z) (w : world) :
  is_Some (w_fs w !! path) ->
  exists a d,
    let res := upload_wheel env path max_retries w in
    fst res = Ret d
    /\ w_events (snd res)
       = w_events w ++ EvUploadWheel path :: retry_journal (EvPost path) 0 a
    /\ (a <= Z.to_nat max_retries)%nat
    /\ (forall i, (S i < a)%nat ->
                  attempt_fails (env_post_file env (w_tick w + i)%nat path))
    /\ ((exists r,
           (1 <= a)%nat
           /\ env_post_file env (w_tick w + a - 1)%nat path = inr r
           /\ status_code r = 200
           /\ d = upload_result_of env (basename path) r
           /\ get_truthy (d !! "success") = true)
        \/ (a = Z.to_nat max_retries
            /\ get_truthy (d !! "success") = false
            /\ forall i, (i < a)%nat ->
                         attempt_fails
                           (env_post_file env (w_tick w + i)%nat path))).
Proof.
  intros [b Hb].
  destruct (upload_loop_stops env path (basename path) max_retries b
              (Z.to_nat max_retries) 0%nat
              (World (w_fs w) (w_hist w) (w_clock w) (w_tick w)
                 (w_events w ++ [EvUploadWheel path]) (w_data w)) Hb
              (range_nonpos_or max_retries))
    as (a & d & w' & Hrun & Hev & _ & Hle & Hearly & Hend).
  cbn [w_tick w_events] in Hev, Hearly, Hend.
  assert (Heq : upload_wheel env path max_retries w = (Ret d, w')).
  { unfold upload_wheel. unfold bind at 1 2. cbn [journal path_exists fst snd].
    rewrite bool_decide_eq_true_2 by eauto. cbn [negb]. exact Hrun. }
  exists a, d. cbv zeta. rewrite Heq. cbn [fst snd].
  split; [reflexivity|].
  split; [rewrite Hev, <- app_assoc; reflexivity|].
  split; [exact Hle|]. split; [exact Hearly|].
  destruct Hend as [(r & Ha & Hr & Hc & Hd)|Hend]; [left|right; exact Hend].
  exists r. repeat (split; [assumption|]).
  rewrite Hd, upload_result_success. apply Z.eqb_eq. exact Hc.
Qed.

Lemma upload_wheel_stops_at_first_success_witness :
  exists a d,
    let res := upload_wheel third_time_env "dist/pkg-1.0-py3.whl" 5
                 wheel_world in
    fst res = Ret d
    /\ w_events (snd res)
       = w_events wheel_world
         ++ EvUploadWheel "dist/pkg-1.0-py3.whl"
            :: retry_journal (EvPost "dist/pkg-1.0-py3.whl") 0 a
    /\ (a <= 5)%nat.
Proof.
  destruct (upload_wheel_stops_at_first_success third_time_env
              "dist/pkg-1.0-py3.whl" 5 wheel_world)
    as (a & d & Hd & Hev & Hle & _).
  - vm_compute. eauto.
  - exists a, d. auto.
Defined.

(** ** Where a download stops *)

Lemma write_chunks_tick tmp cs w :
  w_tick (snd (write_chunks tmp cs w)) = w_tick w.
Proof.
  revert w. induction cs as [|c cs IH]; intros w; [reflexivity|].
  cbn [write_chunks]. unfold bind.
  case_bool_decide; cbn [ret file_append set_fs fst snd]; rewrite IH;
    reflexivity.
Qed.

Lemma create_write_dest dest tmp cs w :
  tmp <> dest ->
  w_fs (snd (write_chunks tmp cs (snd (file_create tmp w)))) !! dest
  = w_fs w !! dest.
Proof.
  intros Hne. apply keeps_last, keeps_create_write. exact Hne.
Qed.

(** One attempt, by what its stream does. *)
Lemma download_attempt_result env url dest w :
  let r := download_attempt env url dest w in
  let s := env_get_stream env (w_tick w) url in
  w_tick (snd r) = S (w_tick w)
  /\ match fst r with
     | Ret _ =>
         stream_fault s = NoFault
         /\ w_fs (snd r) !! dest = Some (body_of (chunks s))
         /\ w_fs (snd r) !! (dest +:+ ".part") = None
     | Raise e =>
         fault_exn (stream_fault s) = Some e
         /\ w_fs (snd r) !! dest = w_fs w !! dest
         /\ forall b, leftover s = Some b ->
                      w_fs (snd r) !! (dest +:+ ".part") = Some b
     | OutOfFuel => False
     end.
Proof.
  cbv zeta. rewrite download_attempt_eq.
  pose proof (part_ne_dest dest) as Hne.
  unfold after_get, leftover. cbv zeta.
  destruct (stream_fault (env_get_stream env (w_tick w) url))
    as [|e|e|n e|e] eqn:Hfault.
  - rewrite create_write_eq. unfold file_move.
    rewrite create_write_content. cbn [set_fs fst snd w_fs w_tick].
    rewrite write_chunks_tick. split; [reflexivity|].
    split; [reflexivity|]. split; [apply lookup_insert_eq|].
    rewrite lookup_insert_ne by congruence. apply lookup_delete_eq.
  - cbn [raise fst snd fault_exn]. split; [reflexivity|].
    split; [reflexivity|]. split; [reflexivity|]. discriminate.
  - cbn [raise fst snd fault_exn]. split; [reflexivity|].
    split; [reflexivity|]. split; [reflexivity|]. discriminate.
  - rewrite create_write_eq. cbn [raise fst snd fault_exn].
    rewrite write_chunks_tick. split; [reflexivity|].
    split; [reflexivity|].
    split; [rewrite (create_write_dest dest _ _ _ Hne); reflexivity|].
    intros b [= <-]. apply create_write_content.
  - rewrite create_write_eq. cbn [raise fst snd fault_exn].
    rewrite write_chunks_tick. split; [reflexivity|].
    split; [reflexivity|].
    split; [rewrite (create_write_dest dest _ _ _ Hne); reflexivity|].
    intros b [= <-]. apply create_write_content.
Qed.

Lemma ends_after_later env url dest t remaining before a r :
  stream_fault (env_get_stream env t url) <> NoFault ->
  ends_after env url dest (S t) (remaining - 1) before a r ->
  ends_after env url dest t remaining before (S a) r.
Proof.
  intros Hf (Hone & Hle & Hearly & Hend).
  split; [lia|]. split; [lia|]. split.
  { intros [|i] Hi.
    - rewrite Nat.add_0_r. exact Hf.
    - replace (t + S i)%nat with (S t + i)%nat by lia. apply Hearly. lia. }
  cbv zeta in *.
  replace (t + S a - 1)%nat with (S t + a - 1)%nat by lia.
  destruct (fst r); [exact Hend| |exact Hend].
  destruct Hend as (Ha & Hrest). split; [lia|exact Hrest].
Qed.

Lemma download_loop_stops env url dest mr :
  forall n attempts w,
    mr - attempts <= Z.of_nat n ->
    attempts < mr ->
    let r := download_loop env url dest mr n attempts w in
    exists a,
      w_events (snd r) = w_events w ++ retry_journal (EvGet url) attempts a
      /\ ends_after env url dest (w_tick w) (mr - attempts)
           (w_fs w !! dest) a r.
Proof.
  induction n as [|n IH]; intros attempts w Hn Hlt; cbv zeta; [lia|].
  rewrite download_loop_S.
  rewrite (proj2 (Z.ltb_lt _ _) Hlt). unfold catch.
  pose proof (download_attempt_events env url dest w) as Hev.
  pose proof (download_attempt_result env url dest w) as Hres.
  cbv zeta in Hres.
  destruct (download_attempt env url dest w) as [[[]|e|] w1];
    cbn [fst snd] in *; destruct Hres as [Htick Hres]; [| |contradiction].
  - exists 1%nat. split; [exact Hev|].
    split; [lia|]. split; [lia|]. split; [intros i Hi; lia|].
    cbv zeta. cbn [fst snd].
    replace (w_tick w + 1 - 1)%nat with (w_tick w) by lia. exact Hres.
  - assert (Hf : stream_fault (env_get_stream env (w_tick w) url) <> NoFault).
    { destruct Hres as [He _]. intros H. rewrite H in He. discriminate. }
    destruct (attempts + 1 >=? mr) eqn:Hge.
    + apply Z.geb_le in Hge. exists 1%nat. cbn [raise fst snd].
      split; [exact Hev|].
      split; [lia|]. split; [lia|]. split; [intros i Hi; lia|].
      cbv zeta. cbn [fst snd].
      replace (w_tick w + 1 - 1)%nat with (w_tick w) by lia.
      split; [lia|exact Hres].
    + rewrite Z.geb_leb in Hge. apply Z.leb_gt in Hge.
      unfold bind. cbn [time_sleep].
      match goal with
      | |- context [download_loop _ _ _ _ _ _ ?w2] =>
          destruct (IH (attempts + 1) w2 ltac:(lia) ltac:(lia))
            as (a & Hev2 & Hend);
          set (r := download_loop env url dest mr n (attempts + 1) w2) in *
      end.
      cbn [w_tick w_fs w_events] in Hev2, Hend.
      exists (S a). destruct Hend as (Hone & Hend).
      destruct a as [|a]; [lia|].
      split.
      { rewrite Hev2, Hev, retry_journal_cons.
        rewrite <- !app_assoc. cbn [app].
        rewrite Z.add_simpl_r. reflexivity. }
      apply ends_after_later; [exact Hf|].
      rewrite Htick in Hend. destruct Hres as (_ & Hdest & _).
      rewrite Hdest in Hend.
      replace (mr - attempts - 1) with (mr - (attempts + 1)) by lia.
      split; [exact Hone|exact Hend].
Qed.

(** X9. [download_url_to_path] stops at the first stream that ends well.
    With [max_retries > 0] it makes [a] GETs, between 1 and [max_retries],
    and every stream before the last one broke. When it returns, the last
    stream ended well, the file at the destination holds the body of that
    very stream, and no [.part] file is left. When it raises, all
    [max_retries] attempts were made, the exception is the one of the last
    break, the destination is what it was before the call, and the chunks
    the last stream delivered are left behind in the [.part] file. *)
Theorem download_stops_at_first_clean_stream (env : Env) (url dest : string)
    (max_retries : Z) (w : world) :
  0 < max_retries ->
  let res := download_url_to_path env url dest max_retries w in
  exists a,
    (1 <= a)%nat /\ Z.of_nat a <= max_retries
    /\ w_events (snd res) = w_events w ++ retry_journal (EvGet url) 0 a
    /\ (forall i, (S i < a)%nat ->
          stream_fault (env_get_stream env (w_tick w + i)%nat url) <> NoFault)
    /\ let s := env_get_stream env (w_tick w + a - 1)%nat url in
       match fst res with
       | Ret _ =>
           stream_fault s = NoFault
           /\ w_fs (snd res) !! dest = Some (body_of (chunks s))
           /\ w_fs (snd res) !! (dest +:+ ".part") = None
       | Raise e =>
           Z.of_nat a = max_retries
           /\ fault_exn (stream_fault s) = Some e
           /\ w_fs (snd res) !! dest = w_fs w !! dest
           /\ forall b, leftover s = Some b ->
                        w_fs (snd res) !! (dest +:+ ".part") = Some b
       | OutOfFuel => False
       end.
Proof.
  intros Hpos. cbv zeta. unfold download_url_to_path.
  destruct (download_loop_stops env url dest max_retries
              (Z.to_nat max_retries) 0 w ltac:(lia) Hpos)
    as (a & Hev & Hone & Hle & Hearly & Hend).
  exists a. rewrite Z.sub_0_r in Hle, Hend.
  split; [exact Hone|]. split; [exact Hle|]. split; [exact Hev|].
  split; [exact Hearly|exact Hend].
Qed.

Lemma download_stops_at_first_clean_stream_witness :
  let res := download_url_to_path flaky_stream_env "https://idx/pkg-1.0.whl"
               "cache/pkg-1.0.whl" 3 empty_world in
  fst res = Ret tt
  /\ w_fs (snd res) !! "cache/pkg-1.0.whl" = Some "bytes"
  /\ w_fs (snd res) !! "cache/pkg-1.0.whl.part" = None.
Proof.
  destruct (download_stops_at_first_clean_stream flaky_stream_env
              "https://idx/pkg-1.0.whl" "cache/pkg-1.0.whl" 3 empty_world)
    as (a & _ & _ & _ & _ & Hend); [lia|].
  cbv zeta in *.
  change (fst (download_url_to_path flaky_stream_env "https://idx/pkg-1.0.whl"
                 "cache/pkg-1.0.whl" 3 empty_world))
    with (@Ret unit tt) in *.
  destruct Hend as (_ & Hdest & Hpart).
  split; [reflexivity|]. split; [|exact Hpart].
  rewrite Hdest. reflexivity.
Defined.

(** X10. A retry budget that is not positive means no attempt at all, and
    the two transfers then end differently. [download_url_to_path] returns
    as if it had succeeded, having made no request and written no file;
    [upload_wheel] on a file that exists makes no POST and returns the
    failure result of the exhausted loop. *)
Theorem nonpositive_retries_make_no_attempt (env : Env) (max_retries : Z)
    (w : world) :
  max_retries <= 0 ->
  (forall url dest,
     download_url_to_path env url dest max_retries w = (Ret tt, w))
  /\ (forall path,
        is_Some (w_fs w !! path) ->
        let res := upload_wheel env path max_retries w in
        fst res = Ret (upload_fallthrough max_retries (basename path))
        /\ get_truthy (upload_fallthrough max_retries (basename path)
                         !! "success") = false
        /\ w_events (snd res) = w_events w ++ [EvUploadWheel path]).
Proof.
  intros Hle. split.
  - intros url dest. unfold download_url_to_path.
    replace (Z.to_nat max_retries) with 0%nat by lia. reflexivity.
  - intros path Hex. cbv zeta.
    assert (Heq : upload_wheel env path max_retries w
                  = (Ret (upload_fallthrough max_retries (basename path)),
                     snd (journal (EvUploadWheel path) w))).
    { unfold upload_wheel. unfold bind. cbn [journal path_exists fst snd].
      rewrite bool_decide_eq_true_2 by exact Hex. cbn [negb]. unfold range.
      replace (Z.to_nat max_retries) with 0%nat by lia. reflexivity. }
    rewrite Heq. cbn [journal fst snd w_events]. auto.
Qed.

Lemma nonpositive_retries_make_no_attempt_witness :
  download_url_to_path demo_env "https://idx/pkg-1.0.whl" "cache/pkg-1.0.whl"
    0 empty_world = (Ret tt, empty_world).
Proof.
  destruct (nonpositive_retries_make_no_attempt demo_env 0 empty_world)
    as [Hd _]; [lia|].
  apply Hd.
Defined.

(** ** An entry is uploaded once *)

Lemma upload_loop_store env path name mr b l :
  forall w,
    w_fs w !! path = Some b ->
    w_fs (snd (upload_loop env path name mr l w)) = w_fs w
    /\ w_data (snd (upload_loop env path name mr l w)) = w_data w.
Proof.
  induction l as [|k l IH]; intros w Hfs; [split; reflexivity|].
  cbn [upload_loop]. unfold bind at 1 2.
  rewrite (upload_step_eq env path name mr k w b Hfs). cbv zeta.
  assert (Hgo : forall w2,
            w_fs w2 = w_fs w -> w_data w2 = w_data w ->
            w_fs (snd (upload_loop env path name mr l w2)) = w_fs w
            /\ w_data (snd (upload_loop env path name mr l w2)) = w_data w).
  { intros w2 H1 H2. destruct (IH w2) as [I1 I2]; [rewrite H1; exact Hfs|].
    rewrite I1, I2. auto. }
  destruct (env_post_file env (w_tick w) path) as [e|r].
  - destruct (k =? mr - 1); cbn [fst snd]; [split; reflexivity|].
    apply Hgo; reflexivity.
  - destruct (status_code r =? 200); cbn [fst snd]; [split; reflexivity|].
    destruct (k =? mr - 1); cbn [fst snd]; [split; reflexivity|].
    apply Hgo; reflexivity.
Qed.

Lemma upload_wheel_store env path max_retries w :
  is_Some (w_fs w !! path) ->
  w_fs (snd (upload_wheel env path max_retries w)) = w_fs w
  /\ w_data (snd (upload_wheel env path max_retries w)) = w_data w.
Proof.
  intros [b Hb]. unfold upload_wheel. unfold bind.
  cbn [journal path_exists fst snd].
  rewrite bool_decide_eq_true_2 by eauto. cbn [negb].
  exact (upload_loop_store env path (basename path) max_retries b _
           (World (w_fs w) (w_hist w) (w_clock w) (w_tick w)
              (w_events w ++ [EvUploadWheel path]) (w_data w)) Hb).
Qed.

(** [save] touches the ledger file and its [.tmp] companion only. *)
Lemma save_frame env path p w :
  p <> path -> p <> path +:+ ".tmp" ->
  w_fs (snd (MirrorState.save env path w)) !! p = w_fs w !! p.
Proof.
  intros H1 H2. rewrite save_eq. cbv zeta.
  destruct (env_save_fault env (w_tick w)) as [|e|n e|e];
    unfold file_move; try rewrite create_append_content;
    cbn [file_create file_append set_fs next_tick fst snd w_fs];
    rewrite ?lookup_insert_ne by congruence;
    rewrite ?lookup_delete_ne by congruence;
    rewrite ?lookup_insert_ne by congruence; reflexivity.
Qed.

Lemma mark_uploaded_frame env path pkg f d m p w :
  p <> path -> p <> path +:+ ".tmp" ->
  w_fs (snd (MirrorState.mark_uploaded env path pkg f d m w)) !! p
  = w_fs w !! p.
Proof.
  intros H1 H2. unfold MirrorState.mark_uploaded, bind at 1 2 3.
  cbn [get_world time_time set_data fst snd].
  pose proof (save_frame env path p
    (World (w_fs w) (w_hist w) (w_clock w) (w_tick w) (w_events w)
       (MirrorState.set_uploaded (w_data w) pkg f d m (w_clock w))) H1 H2)
    as Hs.
  cbn [w_fs] in Hs.
  destruct (MirrorState.save env path _) as [[[]|e|] w1]; exact Hs.
Qed.

(** Once the file is in the cache, the rest of the loop body either leaves
    the ledger as it is or records the cached bytes. *)
Lemma entry_tail_records env cfg pkg e w b :
  w_fs w !! path_join (cache_dir cfg) (filename e) = Some b ->
  path_join (cache_dir cfg) (filename e) <> state_path cfg ->
  path_join (cache_dir cfg) (filename e) <> state_path cfg +:+ ".tmp" ->
  let w1 := snd (entry_tail env cfg pkg e w) in
  w_data w1 = w_data w
  \/ (w_fs w1 !! path_join (cache_dir cfg) (filename e) = Some b
      /\ MirrorState.is_uploaded (w_data w1) pkg (filename e)
           (env_sha256 env b) = true).
Proof.
  intros Hfs Hne1 Hne2. cbv zeta.
  remember (entry_tail env cfg pkg e w) as r eqn:Hr.
  unfold entry_tail in Hr. cbv zeta in Hr.
  unfold bind at 1 2 in Hr. unfold sha256_of_file, bind at 1, file_read in Hr.
  rewrite Hfs in Hr. cbn [ret get_world fst snd] in Hr.
  destruct (MirrorState.is_uploaded _ _ _ _); [left; subst r; reflexivity|].
  destruct (_ && _); [left; subst r; reflexivity|].
  unfold catch, bind in Hr.
  destruct (upload_wheel_store env (path_join (cache_dir cfg) (filename e)) 3 w)
    as [Hs1 Hs2]; [eauto|].
  destruct (returns_upload_wheel_at env
              (path_join (cache_dir cfg) (filename e)) 3 w)
    as (d & w' & Hup); [eauto|].
  rewrite Hup in *. cbn [fst snd] in *.
  destruct (get_truthy (d !! "success")).
  - pose proof (mark_uploaded_data env (state_path cfg) w' pkg (filename e)
                  (env_sha256 env b) d) as Hd.
    pose proof (mark_uploaded_frame env (state_path cfg) pkg (filename e)
                  (env_sha256 env b) d _ w' Hne1 Hne2) as Hf.
    right.
    destruct (MirrorState.mark_uploaded _ _ _ _ _ _ w') as [[[]|ex|] w1];
      subst r; cbn [fst snd ret] in *;
      (split; [rewrite Hf, Hs1; exact Hfs
              |rewrite Hd; apply set_uploaded_is_uploaded]).
  - left. subst r. exact Hs2.
Qed.

(** X11. An entry is uploaded once. If a pass of the loop body over an
    entry changed the ledger, so that its upload was recorded, then a
    later pass over an entry of the same file name, whatever its URL, does
    nothing at all: no request, no write, the world is the same. The cache
    file must not be the ledger file or its [.tmp] companion, which [save]
    rewrites. *)
Theorem recorded_entry_is_skipped (env : Env) (cfg : config) (pkg : string)
    (e : entry) (w : world) :
  path_join (cache_dir cfg) (filename e) <> state_path cfg ->
  path_join (cache_dir cfg) (filename e) <> state_path cfg +:+ ".tmp" ->
  let w1 := snd (process_entry env cfg pkg e w) in
  w_data w1 <> w_data w ->
  forall e', filename e' = filename e ->
             process_entry env cfg pkg e' w1 = (Ret tt, w1).
Proof.
  intros Hne1 Hne2. cbv zeta.
  set (p := path_join (cache_dir cfg) (filename e)) in *.
  assert (Hrec : forall wa b,
            w_fs wa !! p = Some b ->
            w_data wa = w_data w ->
            w_data (snd (entry_tail env cfg pkg e wa)) <> w_data w ->
            forall e', filename e' = filename e ->
            process_entry env cfg pkg e' (snd (entry_tail env cfg pkg e wa))
            = (Ret tt, snd (entry_tail env cfg pkg e wa))).
  { intros wa b Hb Hsame Hch e' He'.
    destruct (entry_tail_records env cfg pkg e wa b Hb Hne1 Hne2)
      as [Hd|[Hfs Hup]].
    - congruence.
    - apply (process_entry_short_circuit env cfg pkg e' _ b);
        rewrite He'; assumption. }
  remember (process_entry env cfg pkg e w) as r eqn:Hr.
  rewrite (process_entry_eq env cfg pkg e) in Hr. cbv zeta in Hr. fold p in Hr.
  unfold bind at 1 in Hr. cbn [path_exists fst snd] in Hr.
  case_bool_decide as Hex.
  - destruct Hex as [b Hb]. unfold bind at 1 in Hr.
    cbn [ret negb fst snd] in Hr. subst r.
    apply (Hrec w b Hb eq_refl).
  - unfold bind at 1 in Hr.
    pose proof (fetch_outcome env (url e) p w) as Hfetch. cbv zeta in Hfetch.
    assert (Hsame : w_data (snd (catch (download_url_to_path env (url e) p 3
                                          >> ret true)
                                   (fun _ => ret false) w)) = w_data w).
    { unfold catch, bind.
      pose proof (same_data_download env (url e) p 3 w) as Hd.
      unfold same_data in Hd.
      destruct (download_url_to_path env (url e) p 3 w) as [[[]|ex|] wa];
        exact Hd. }
    destruct (catch _ _ w) as [o wa]. cbn [fst snd] in *.
    destruct Hfetch as [[-> [b Hb]]| ->]; cbn [negb ret snd] in Hr; subst r.
    + apply (Hrec wa b Hb Hsame).
    + cbn [ret snd]. intros Hch. congruence.
Qed.

Lemma recorded_entry_is_skipped_witness :
  let e := Entry "https://r/pkg-1.0-py3.whl" "pkg-1.0-py3.whl" in
  let w1 := snd (process_entry demo_env demo_cfg "pkg" e empty_world) in
  w_events w1
  = [EvGet "https://r/pkg-1.0-py3.whl";
     EvUploadWheel "cache/pkg-1.0-py3.whl"; EvPost "cache/pkg-1.0-py3.whl"]
  /\ process_entry demo_env demo_cfg "pkg"
       (Entry "https://mirror/old/pkg-1.0-py3.whl" "pkg-1.0-py3.whl") w1
     = (Ret tt, w1).
Proof.
  split; [vm_compute; reflexivity|].
  apply (recorded_entry_is_skipped demo_env demo_cfg "pkg"
           (Entry "https://r/pkg-1.0-py3.whl" "pkg-1.0-py3.whl") empty_world).
  - vm_compute. discriminate.
  - vm_compute. discriminate.
  - intros H.
    apply (f_equal (fun m : gmap string dict => m !! "pkg:pkg-1.0-py3.whl"))
      in H.
    vm_compute in H. discriminate.
  - reflexivity.
Defined.

(** ** When a package is published *)

Lemma emits_transfers_process_entry env cfg pkg e :
  preserves (emits transfer_event) (process_entry env cfg pkg e).
Proof.
  unfold process_entry. cbv zeta.
  preserve_step; [preserve_step|].
  preserve_step.
  { preserve_step; [preserve_step|].
    preserve_step; [|intros; preserve_step].
    preserve_step; [|preserve_step]. apply emits_download; simpl; auto. }
  preserve_step; [preserve_step|].
  preserve_step; [unfold sha256_of_file; repeat preserve_step|].
  preserve_step; [preserve_step|].
  preserve_step; [preserve_step|].
  preserve_step; [preserve_step|].
  preserve_step; [|preserve_step].
  preserve_step; [apply emits_upload_wheel; simpl; eauto|].
  preserve_step; preserve_step.
Qed.

Lemma starts_with_publish_environment env w :
  starts_with EvPublish polling_event w (snd (publish_environment env w)).
Proof.
  unfold publish_environment.
  apply starts_with_bind; [intros w0; apply starts_with_external|].
  intros t.
  destruct (env_post_publish _ _) as [e|r]; [preserve_step|].
  preserve_step; [|cbv zeta; preserve_step].
  preserve_step; [|preserve_step].
  destruct (headers_get _ _); [|preserve_step].
  preserve_step; [|preserve_step].
  apply emits_wait_for_publish; simpl; auto.
Qed.

(** X12. One publish request per package, after the transfers, and only
    when there was something to mirror. The journal of [mirror_entries]
    is a run of downloads and uploads followed by a tail. With
    [publish_after] set and at least one candidate file, the tail is one
    publish request followed by polls and sleeps, whether or not any upload
    succeeded. Otherwise the tail is empty; without a candidate the world
    is left as it is, so a package with no distribution file is never
    published. *)
Theorem publish_once_after_transfers (env : Env) (cfg : config) (pkg : string)
    (entries : list entry) (w : world) :
  let w' := snd (mirror_entries env cfg pkg entries w) in
  (candidates entries = [] -> w' = w)
  /\ exists transfers tail,
       w_events w' = w_events w ++ transfers ++ tail
       /\ Forall transfer_event transfers
       /\ (if publish_after cfg
              && negb (bool_decide (candidates entries = []))
           then exists polls,
                  tail = EvPublish :: polls /\ Forall polling_event polls
           else tail = []).
Proof.
  cbv zeta. unfold mirror_entries. cbv zeta.
  destruct (candidates entries) as [|e l] eqn:Hc.
  - split; [reflexivity|]. exists [], []. cbn [ret snd app].
    rewrite app_nil_r, andb_false_r. auto.
  - split; [discriminate|].
    rewrite bool_decide_eq_false_2 by discriminate. cbn [negb].
    rewrite andb_true_r.
    assert (Hrun : fst (for_each (process_entry env cfg pkg) (e :: l) w)
                   = Ret tt).
    { destruct (returns_for_each (process_entry env cfg pkg) (e :: l)
                  (fun x w0 =>
                     ex_intro _ tt (process_entry_returns env cfg pkg x w0)) w)
        as [[] H]. exact H. }
    pose proof (preserves_for_each (emits transfer_event)
                  (emits_refl transfer_event) (emits_trans transfer_event)
                  (process_entry env cfg pkg) (e :: l)
                  (emits_transfers_process_entry env cfg pkg) w)
      as (transfers & Hev & Htr).
    unfold bind.
    destruct (for_each (process_entry env cfg pkg) (e :: l) w) as [o w1].
    cbn [fst snd] in *. subst o.
    exists transfers. unfold publish_step.
    destruct (publish_after cfg).
    + pose proof (starts_with_catch EvPublish polling_event
                    (let* pub := publish_environment env in ret tt)
                    (fun _ => ret tt)
                    (starts_with_bind EvPublish polling_event
                       (publish_environment env) (fun _ => ret tt)
                       (starts_with_publish_environment env)
                       (fun _ => preserves_ret (emits polling_event)
                                   (emits_refl polling_event) tt))
                    (fun _ => preserves_ret (emits polling_event)
                                (emits_refl polling_event) tt) w1)
        as (polls & Hev2 & Hpolls).
      exists (EvPublish :: polls). rewrite Hev2, Hev, <- app_assoc.
      split; [reflexivity|]. split; [exact Htr|]. eauto.
    + exists []. cbn [ret snd]. rewrite app_nil_r. auto.
Qed.

(** ** The cache is flat *)

Lemma has_char_append c s t :
  has_char c (s +:+ t) = has_char c s || has_char c t.
Proof.
  induction s as [|a s IH]; [reflexivity|].
  rewrite append_cons. cbn [has_char]. rewrite IH, orb_assoc. reflexivity.
Qed.

Lemma after_last_sep_free sep s :
  forall acc, has_char sep acc = false ->
              has_char sep (after_last sep acc s) = false.
Proof.
  induction s as [|c s IH]; intros acc Hacc; cbn [after_last]; [exact Hacc|].
  case_bool_decide as Hc.
  - apply IH. reflexivity.
  - apply IH. rewrite has_char_append, Hacc. cbn [has_char orb].
    rewrite bool_decide_eq_false_2 by exact Hc. reflexivity.
Qed.

Lemma after_last_chars c sep s :
  forall acc, has_char c acc = false -> has_char c s = false ->
              has_char c (after_last sep acc s) = false.
Proof.
  induction s as [|a s IH]; intros acc Hacc Hs; cbn [after_last];
    [exact Hacc|].
  cbn [has_char] in Hs. apply orb_false_iff in Hs. destruct Hs as [Ha Hs].
  destruct (bool_decide (a = sep)).
  - apply IH; [reflexivity|exact Hs].
  - apply IH; [|exact Hs].
    rewrite has_char_append, Hacc. cbn [has_char orb]. rewrite Ha. reflexivity.
Qed.

Lemma before_first_free_id sep s :
  has_char sep s = false -> before_first sep s = s.
Proof.
  induction s as [|c s IH]; [reflexivity|]. cbn [has_char before_first].
  intros H. apply orb_false_iff in H. destruct H as [Hc H].
  rewrite Hc, (IH H). reflexivity.
Qed.

Lemma before_first_app sep a b :
  has_char sep a = false ->
  before_first sep (a +:+ b) = a +:+ before_first sep b.
Proof.
  induction a as [|c a IH]; [reflexivity|]. cbn [has_char].
  intros H. apply orb_false_iff in H. destruct H as [Hc H].
  rewrite !append_cons. cbn [before_first]. rewrite Hc, (IH H). reflexivity.
Qed.

Lemma before_first_sep_free sep s : has_char sep (before_first sep s) = false.
Proof.
  induction s as [|c s IH]; [reflexivity|]. cbn [before_first].
  case_bool_decide as Hc; [reflexivity|]. cbn [has_char].
  rewrite bool_decide_eq_false_2 by exact Hc. exact IH.
Qed.

Lemma after_last_sep_free_id sep s :
  forall acc, has_char sep s = false -> after_last sep acc s = acc +:+ s.
Proof.
  induction s as [|c s IH]; intros acc Hs; cbn [after_last].
  - rewrite append_nil_r. reflexivity.
  - cbn [has_char] in Hs. apply orb_false_iff in Hs. destruct Hs as [Hc Hs].
    rewrite Hc, (IH _ Hs), append_assoc. reflexivity.
Qed.

Lemma after_last_app_sep sep a f :
  forall acc, after_last sep acc (a +:+ String sep f) = after_last sep "" f.
Proof.
  induction a as [|c a IH]; intros acc.
  - rewrite append_nil_l. cbn [after_last].
    rewrite bool_decide_eq_true_2 by reflexivity. reflexivity.
  - rewrite append_cons. cbn [after_last]. case_bool_decide; apply IH.
Qed.

Lemma basename_join a f :
  has_char "/" f = false ->
  basename (path_join a f) = f
  /\ (path_join a f = a +:+ f \/ path_join a f = a +:+ "/" +:+ f).
Proof.
  intros Hf. unfold basename.
  assert (Hid : after_last "/" "" f = f).
  { rewrite (after_last_sep_free_id _ _ _ Hf). reflexivity. }
  assert (Hstart : startswith f "/" = false).
  { destruct f as [|c f]; [reflexivity|]. cbn [has_char] in Hf.
    apply orb_false_iff in Hf. destruct Hf as [Hc _]. cbn [startswith].
    destruct (bool_decide ("/"%char = c)) eqn:E; [|reflexivity].
    apply bool_decide_eq_true_1 in E. subst c.
    rewrite bool_decide_eq_true_2 in Hc by reflexivity. discriminate. }
  unfold path_join. rewrite Hstart.
  case_bool_decide as Ha; cbn [orb].
  - subst a. rewrite append_nil_l. auto.
  - destruct (endswith a "/") eqn:He.
    + apply endswith_spec in He. destruct He as [p ->].
      split; [|left; reflexivity].
      rewrite append_assoc.
      change ("/" +:+ f) with (String "/" f).
      rewrite after_last_app_sep. exact Hid.
    + split; [|right; reflexivity].
      change ("/" +:+ f) with (String "/" f).
      rewrite after_last_app_sep. exact Hid.
Qed.

(** X13. The cache is flat, and the name sent to Fabric is the entry's
    file name. The file name taken from an index link has no slash and no
    question mark, and the one taken from a storage listing has no slash;
    so the local path is the cache directory followed by the name, with at
    most one slash added, and its base name, which [upload_wheel] reports
    as the wheel name, is the entry's file name again. Two links that end
    in the same segment therefore share one cache file. *)
Theorem cache_path_is_flat (cache : string) :
  (forall u,
     let f := filename (entry_of_url u) in
     has_char "/" f = false /\ has_char "?" f = false
     /\ basename (path_join cache f) = f
     /\ (path_join cache f = cache +:+ f
         \/ path_join cache f = cache +:+ "/" +:+ f))
  /\ (forall base repo uri e,
        Jfrog.determine_files_from_artifactory_entry base repo uri = Some e ->
        has_char "/" (filename e) = false
        /\ basename (path_join cache (filename e)) = filename e)
  /\ (forall dir name rest,
        has_char "?" dir = false ->
        has_char "/" name = false -> has_char "?" name = false ->
        rest = "" \/ (exists query, rest = "?" +:+ query) ->
        filename (entry_of_url (dir +:+ "/" +:+ name +:+ rest)) = name).
Proof.
  split; [|split].
  - intros u. cbv zeta. unfold entry_of_url. cbn [filename].
    assert (Hs : has_char "/" (basename (before_first "?" u)) = false).
    { apply after_last_sep_free. reflexivity. }
    split; [exact Hs|].
    split; [apply after_last_chars; [reflexivity|apply before_first_sep_free]|].
    apply basename_join. exact Hs.
  - intros base repo [u|] e; cbn [Jfrog.determine_files_from_artifactory_entry];
      [|discriminate].
    case_bool_decide; [discriminate|]. intros [= <-]. cbn [filename].
    assert (Hs : has_char "/" (basename u) = false).
    { apply after_last_sep_free. reflexivity. }
    split; [exact Hs|]. apply basename_join. exact Hs.
  - intros dir name rest Hd Hs Hq Hrest. unfold entry_of_url. cbn [filename].
    assert (Hcut : before_first "?" (dir +:+ "/" +:+ name +:+ rest)
                   = dir +:+ String "/" name).
    { rewrite (before_first_app _ _ _ Hd).
      change ("/" +:+ name +:+ rest) with (String "/" (name +:+ rest)).
      cbn [before_first]. rewrite bool_decide_eq_false_2 by discriminate.
      rewrite (before_first_app _ _ _ Hq).
      destruct Hrest as [->|[q ->]].
      - cbn [before_first]. rewrite append_nil_r. reflexivity.
      - change ("?" +:+ q) with (String "?" q). cbn [before_first].
        rewrite bool_decide_eq_true_2 by reflexivity.
        rewrite append_nil_r. reflexivity. }
    rewrite Hcut. unfold basename. rewrite after_last_app_sep.
    rewrite (after_last_sep_free_id _ _ _ Hs). reflexivity.
Qed.

Lemma cache_path_is_flat_witness :
  filename (entry_of_url "https://r/simple/pkg/pkg-1.0-py3.whl?sha256=ab")
  = "pkg-1.0-py3.whl"
  /\ filename (entry_of_url "https://mirror/pkg-1.0-py3.whl")
     = "pkg-1.0-py3.whl".
Proof.
  destruct (cache_path_is_flat "cache") as (_ & _ & H).
  split.
  - apply (H "https://r/simple/pkg" "pkg-1.0-py3.whl" "?sha256=ab");
      [reflexivity|reflexivity|reflexivity|right; exists "sha256=ab"; reflexivity].
  - apply (H "https://mirror" "pkg-1.0-py3.whl" "");
      [reflexivity|reflexivity|reflexivity|left; reflexivity].
Defined.

(** ** The storage listing is not filtered by package *)

(** X14. When the simple index fails and the storage listing answers,
    [mirror_package_from_jfrog] goes through the files of the whole
    repository. The entries handed to the loop are those of the listing;
    the candidates among them are the listed files with a non-empty [uri]
    whose base name ends in a distribution extension, and the package name
    plays no part in choosing them: it is used for the ledger key alone. *)
Theorem jfrog_fallback_takes_whole_repository (env : Env) (cfg : config)
    (base repo pkg : string) (w : world) (e : exn)
    (files : list (option string)) :
  env_simple_index env (w_tick w) pkg = inl e ->
  env_storage_list env (S (w_tick w)) = inr files ->
  let listed :=
    omap (Jfrog.determine_files_from_artifactory_entry base repo) files in
  Jfrog.mirror_package_from_jfrog env cfg base repo pkg w
  = mirror_entries env cfg pkg listed
      (snd (external EvStorage env (snd (external (EvIndex pkg) env w))))
  /\ forall en,
       In en (candidates listed) <->
       exists u,
         In (Some u) files /\ u <> ""
         /\ en = Entry (rstrip_slash base +:+ "/" +:+ repo +:+ u) (basename u)
         /\ endswith_any (lower (basename u)) VALID_DISTS = true.
Proof.
  intros H1 H2. cbv zeta. split.
  - unfold Jfrog.mirror_package_from_jfrog. unfold bind at 1. unfold catch.
    unfold bind at 1. rewrite simple_index_eq, H1.
    unfold bind at 1. rewrite artifactory_list_eq.
    cbn [external snd w_tick]. rewrite H2. reflexivity.
  - intros en. unfold candidates. rewrite filter_In.
    rewrite <- list_elem_of_In, list_elem_of_omap. split.
    + intros [(o & Ho & Hd) Hext]. destruct o as [u|]; [|discriminate].
      cbn [Jfrog.determine_files_from_artifactory_entry] in Hd.
      case_bool_decide as Hu; [discriminate|]. injection Hd as <-.
      exists u. split; [apply list_elem_of_In; exact Ho|].
      split; [exact Hu|]. split; [reflexivity|exact Hext].
    + intros (u & Hin & Hu & -> & Hext). split; [|exact Hext].
      exists (Some u). split; [apply list_elem_of_In; exact Hin|].
      cbn [Jfrog.determine_files_from_artifactory_entry].
      rewrite bool_decide_eq_false_2 by exact Hu. reflexivity.
Qed.

Lemma jfrog_fallback_takes_whole_repository_witness :
  In (Entry "https://r/repo/other/other-2.0-py3.whl" "other-2.0-py3.whl")
     (candidates
        (omap (Jfrog.determine_files_from_artifactory_entry "https://r/" "repo")
           [Some "/other/other-2.0-py3.whl"; Some "/pkg/pkg-1.0.tar.gz";
            None; Some ""])).
Proof.
  destruct (jfrog_fallback_takes_whole_repository storage_env demo_cfg
              "https://r/" "repo" "pkg" empty_world
              (RequestException "404 Client Error: Not Found")
              [Some "/other/other-2.0-py3.whl"; Some "/pkg/pkg-1.0.tar.gz";
               None; Some ""] eq_refl eq_refl) as [_ H].
  apply H. exists "/other/other-2.0-py3.whl".
  split; [left; reflexivity|]. split; [discriminate|].
  split; reflexivity.
Defined.

(** ** The exit status of the upload tool *)

Lemma finishes_upload_wheel env path max_retries :
  finishes (upload_wheel env path max_retries).
Proof.
  intros w. destruct (w_fs w !! path) as [b|] eqn:Hb.
  - destruct (returns_upload_wheel_at env path max_retries w) as (d & w' & H);
      [eauto|]. rewrite H. discriminate.
  - unfold upload_wheel, bind. cbn [journal path_exists fst snd w_fs].
    rewrite Hb. rewrite bool_decide_eq_false_2 by (intros [? ?]; discriminate).
    discriminate.
Qed.

(** X15. [main] of the upload tool never ends with a traceback: its exit
    status is 0 or 1. It is 0 exactly when a token was obtained, the
    upload returned a successful result and, with [--publish], the publish
    did too; a missing file, a failed upload, a failed or raising publish
    all give 1. Without a credential the status is 1 and no request was
    made. *)
Theorem upload_main_exit_status (env : Env) (idn : identity)
    (a : UploadCli.args) (w : world) :
  let tok := _get_token idn (UploadCli.use_default_credential a)
               (UploadCli.token a) (UploadCli.client_id a)
               (UploadCli.client_secret a) (UploadCli.tenant_id a) in
  let up := upload_wheel env (UploadCli.file a) (UploadCli.retries a) w in
  let pub := publish_environment env (snd up) in
  let uploaded :=
    exists d, fst up = Ret d /\ get_truthy (d !! "success") = true in
  let published :=
    exists d, fst pub = Ret d /\ get_truthy (d !! "success") = true in
  exists c,
    fst (UploadCli.main env idn a w) = Ret c
    /\ (c = 0 \/ c = 1)
    /\ (c = 0 <->
        (exists t, tok = inr t) /\ uploaded
        /\ (UploadCli.publish a = true -> published))
    /\ ((forall t, tok <> inr t) -> snd (UploadCli.main env idn a w) = w).
Proof.
  cbv zeta. unfold UploadCli.main.
  destruct (_get_token _ _ _ _ _ _) as [err|t].
  { exists 1. cbn [ret fst snd]. split; [reflexivity|]. split; [auto|].
    split; [|reflexivity].
    split; [discriminate|]. intros [[t Ht] _]. discriminate. }
  assert (Hcases :
    exists c,
      fst (catch
             (let* upload_result :=
                upload_wheel env (UploadCli.file a) (UploadCli.retries a) in
              if negb (get_truthy (upload_result !! "success")) then ret 1
              else if UploadCli.publish a then
                let* publish_result := publish_environment env in
                if negb (get_truthy (publish_result !! "success")) then ret 1
                else ret 0
              else ret 0)
             (fun _ => ret 1) w) = Ret c
      /\ (c = 0 \/ c = 1)
      /\ (c = 0 <->
          (exists d, fst (upload_wheel env (UploadCli.file a)
                            (UploadCli.retries a) w) = Ret d
                     /\ get_truthy (d !! "success") = true)
          /\ (UploadCli.publish a = true ->
              exists d, fst (publish_environment env
                               (snd (upload_wheel env (UploadCli.file a)
                                       (UploadCli.retries a) w))) = Ret d
                        /\ get_truthy (d !! "success") = true))).
  { unfold catch, bind.
    pose proof (finishes_upload_wheel env (UploadCli.file a)
                  (UploadCli.retries a) w) as Hfin.
    destruct (upload_wheel env (UploadCli.file a) (UploadCli.retries a) w)
      as [[d|e|] w1]; cbn [fst snd] in *; [| |contradiction].
    2:{ exists 1. cbn [ret fst]. split; [reflexivity|]. split; [auto|].
        split; [discriminate|]. intros [(d & Hd & _) _]. discriminate. }
    destruct (get_truthy (d !! "success")) eqn:Hs; cbn [negb].
    2:{ exists 1. cbn [ret fst]. split; [reflexivity|]. split; [auto|].
        split; [discriminate|]. intros [(d' & [= <-] & Hd') _]. congruence. }
    destruct (UploadCli.publish a).
    2:{ exists 0. cbn [ret fst]. split; [reflexivity|]. split; [auto|].
        split; [|reflexivity]. intros _. split; [eauto|discriminate]. }
    pose proof (finishes_publish_environment env w1) as Hfin2.
    destruct (publish_environment env w1) as [[p|e|] w2]; cbn [fst snd] in *;
      [| |contradiction].
    2:{ exists 1. cbn [ret fst]. split; [reflexivity|]. split; [auto|].
        split; [discriminate|]. intros [_ Hp].
        destruct (Hp eq_refl) as (p & Hp' & _). discriminate. }
    destruct (get_truthy (p !! "success")) eqn:Hp; cbn [negb].
    - exists 0. cbn [ret fst]. split; [reflexivity|]. split; [auto|].
      split; [|reflexivity]. intros _. split; eauto.
    - exists 1. cbn [ret fst]. split; [reflexivity|]. split; [auto|].
      split; [discriminate|]. intros [_ Hp'].
      destruct (Hp' eq_refl) as (p' & [= <-] & Hp''). congruence. }
  destruct Hcases as (c & Hc & H01 & Hiff).
  exists c. split; [exact Hc|]. split; [exact H01|]. split.
  - rewrite Hiff. split.
    + intros [Hu Hp]. split; [eauto|]. split; assumption.
    + intros (_ & Hu & Hp). split; assumption.
  - intros Hno. exfalso. apply (Hno t). reflexivity.
Qed.

Lemma upload_main_exit_status_witness :
  UploadCli.main demo_env no_identity
    (UploadCli.Args "dist/pkg-1.0-py3.whl" true 3 None None None None false)
    wheel_world
  = (Ret 1, wheel_world).
Proof.
  destruct (upload_main_exit_status demo_env no_identity
              (UploadCli.Args "dist/pkg-1.0-py3.whl" true 3 None None None
                 None false) wheel_world)
    as (c & Hc & [H0|H1] & Hiff & Hno).
  - exfalso. apply Hiff in H0. destruct H0 as [[t Ht] _]. discriminate.
  - rewrite (surjective_pairing (UploadCli.main _ _ _ _)), Hc, H1, Hno;
      [reflexivity|].
    intros t Ht. discriminate.
Defined.

(** ** The command line of the mirror scripts *)

Lemma emits_init P env path : preserves (emits P) (MirrorState.init env path).
Proof.
  intros w. unfold MirrorState.init, bind. cbn [get_world fst snd].
  destruct (w_fs w !! path) as [b|]; [destruct (env_json_load env b)|];
    apply emits_same_events; reflexivity.
Qed.

Lemma emits_pkg_iter P a : preserves (emits P) (pkg_iter a).
Proof.
  unfold pkg_iter. preserve_step; [preserve_step|].
  preserve_step; [|preserve_step].
  preserve_step; [preserve_step|preserve_step].
Qed.

Lemma emits_mirror_main P state_filename mirror_all env idn imported a :
  (forall l, preserves (emits P)
               (mirror_all (config_of state_filename a) l)) ->
  preserves (emits P) (mirror_main state_filename mirror_all env idn imported a).
Proof.
  intros Hall. unfold mirror_main.
  preserve_step; [preserve_step|].
  destruct (_get_token _ _ _ _ _ _); [preserve_step|]. cbv zeta.
  preserve_step; [apply emits_init|].
  preserve_step; [apply emits_pkg_iter|].
  destruct a1 as [l|]; [|preserve_step].
  preserve_step; [apply Hall|preserve_step].
Qed.

(** X16. The command line cannot switch the wheels-only policy off:
    [--upload-wheels-only] is a flag whose default is already true. So
    whatever the arguments, the credentials and the registry, a run of
    either [main] hands to the uploader, and POSTs, only files of its cache
    directory whose name ends in [.whl]; an sdist is never uploaded. *)
Theorem main_uploads_wheels_only (env : Env) (idn : identity)
    (manager_imported : bool) (a : mirror_args) (w : world) :
  (forall jfrog_base repo,
     emits (only_wheels (config_of JfrogCli.STATE_FILENAME a)) w
       (snd (JfrogCli.main env idn manager_imported jfrog_base repo a w)))
  /\ emits (only_wheels (config_of AzureCli.STATE_FILENAME a)) w
       (snd (AzureCli.main env idn manager_imported a w)).
Proof.
  assert (Hpol : forall f, upload_wheels_only (config_of f a) = true).
  { intros f. cbn. unfold args_upload_wheels_only.
    destruct (upload_wheels_only_given a); reflexivity. }
  split.
  - intros jfrog_base repo. apply emits_mirror_main. intros l.
    apply only_wheels_mirror_all_jfrog. apply Hpol.
  - apply emits_mirror_main. intros l.
    apply only_wheels_mirror_all_azure. apply Hpol.
Qed.





(** ** No record without an accepted upload *)





(** * The candidates in the pipeline *)

(** The loop over the entries never stops early: the body returns for
    every entry, so the loop leaves the world [run_entries] computes. *)
Lemma for_each_process_entry env cfg pkg l :
  forall w,
    for_each (process_entry env cfg pkg) l w
    = (Ret tt, run_entries env cfg pkg l w).
Proof.
  induction l as [|e l IH]; intros w; [reflexivity|].
  cbn [for_each]. unfold bind.
  rewrite (surjective_pairing (process_entry env cfg pkg e w)).
  rewrite process_entry_returns. apply IH.
Qed.

Lemma mirror_entries_runs env cfg pkg entries w :
  fst (mirror_entries env cfg pkg entries w) = Ret tt
  /\ snd (mirror_entries env cfg pkg entries w)
     = match candidates entries with
       | [] => w
       | l => snd (publish_step env cfg (run_entries env cfg pkg l w))
       end.
Proof.
  unfold mirror_entries. cbv zeta.
  destruct (candidates entries) as [|e l]; [split; reflexivity|].
  unfold bind. rewrite for_each_process_entry.
  destruct (publish_step_returns env cfg
              (run_entries env cfg pkg (e :: l) w)) as [[] H].
  split; [exact H|reflexivity].
Qed.

Lemma run_entries_app env cfg pkg l1 l2 w :
  run_entries env cfg pkg (l1 ++ l2) w
  = run_entries env cfg pkg l2 (run_entries env cfg pkg l1 w).
Proof. apply fold_left_app. Qed.

Lemma emits_run_entries P env cfg pkg l :
  (forall e, In e l -> preserves (emits P) (process_entry env cfg pkg e)) ->
  forall w, emits P w (run_entries env cfg pkg l w).
Proof.
  induction l as [|e l IH]; intros Hb w; [apply emits_refl|].
  cbn [run_entries fold_left]. eapply emits_trans.
  - apply (Hb e). left. reflexivity.
  - apply IH. intros x Hx. apply Hb. right. exact Hx.
Qed.

Lemma fetches_only_process_entry env cfg pkg l e :
  In e l ->
  preserves (emits (fetches_only l)) (process_entry env cfg pkg e).
Proof.
  intros Hin. unfold process_entry. cbv zeta.
  preserve_step; [preserve_step|].
  preserve_step.
  { preserve_step; [preserve_step|].
    preserve_step; [|intros; preserve_step].
    preserve_step; [|preserve_step].
    apply emits_download; simpl; eauto. }
  preserve_step; [preserve_step|].
  preserve_step; [unfold sha256_of_file; repeat preserve_step|].
  preserve_step; [preserve_step|].
  preserve_step; [preserve_step|].
  preserve_step; [preserve_step|].
  preserve_step; [|preserve_step].
  preserve_step; [apply emits_upload_wheel; simpl; eauto|].
  preserve_step; preserve_step.
Qed.

Lemma fetches_only_publish_step env cfg l :
  preserves (emits (fetches_only l)) (publish_step env cfg).
Proof.
  unfold publish_step. preserve_step; [|preserve_step].
  preserve_step; [|preserve_step].
  preserve_step; [|preserve_step].
  apply emits_publish_environment; simpl; auto.
Qed.

(** C7. The candidates are exactly the entries whose lower-cased file name
    ends in [.whl], [.tar.gz] or [.zip] (of [pkg-1.0-py3.whl],
    [pkg-1.0.tar.gz], [pkg-1.0.exe] the first two), and they are what the
    pipeline works on. When the index answers, [mirror_package_from_jfrog]
    is [mirror_entries] on the links of the page; [mirror_entries] returns,
    and the world it leaves is the one obtained by running the loop body on
    the candidates, all of them and in order, each from the world the one
    before it left, followed by the publish block; no file is fetched but
    those of the candidates. Under the wheels-only policy a run hands only
    cache files named [*.whl] to the uploader; a candidate that is not a
    wheel causes no request but GETs of its URL and leaves the ledger as it
    was, and when its file is not in the cache as its turn comes, the GET of
    its URL is in the journal of the run. *)
Theorem wheels_only_filtering (env : Env) (cfg : config) :
  upload_wheels_only cfg = true ->
  (forall entries e,
     In e (candidates entries) <->
     In e entries
     /\ exists ext, In ext [".whl"; ".tar.gz"; ".zip"]
                    /\ exists p, lower (filename e) = p +:+ ext)
  /\ (forall u1 u2 u3,
        map filename
          (candidates [Entry u1 "pkg-1.0-py3.whl"; Entry u2 "pkg-1.0.tar.gz";
                       Entry u3 "pkg-1.0.exe"])
        = ["pkg-1.0-py3.whl"; "pkg-1.0.tar.gz"])
  /\ (forall base repo pkgs w,
        emits (only_wheels cfg) w
          (snd (Jfrog.mirror_all env cfg base repo pkgs w)))
  /\ (forall pkgs w,
        emits (only_wheels cfg) w (snd (Azure.mirror_all env cfg pkgs w)))
  /\ (forall pkg e w,
        endswith (lower (filename e)) ".whl" = false ->
        let w' := snd (process_entry env cfg pkg e w) in
        emits (only_get e) w w'
        /\ w_data w' = w_data w
        /\ (w_fs w !! path_join (cache_dir cfg) (filename e) = None ->
            starts_with (EvGet (url e)) (only_get e) w w'))
  /\ (forall base repo pkg urls w,
        env_simple_index env (w_tick w) pkg = inr urls ->
        Jfrog.mirror_package_from_jfrog env cfg base repo pkg w
        = mirror_entries env cfg pkg (map entry_of_url urls)
            (snd (external (EvIndex pkg) env w)))
  /\ (forall pkg entries w,
        let r := mirror_entries env cfg pkg entries w in
        fst r = Ret tt
        /\ snd r = match candidates entries with
                   | [] => w
                   | l => snd (publish_step env cfg
                                 (run_entries env cfg pkg l w))
                   end
        /\ emits (fetches_only (candidates entries)) w (snd r))
  /\ (forall pkg entries w pre e post,
        candidates entries = pre ++ e :: post ->
        endswith (lower (filename e)) ".whl" = false ->
        let wi := run_entries env cfg pkg pre w in
        w_fs wi !! path_join (cache_dir cfg) (filename e) = None ->
        exists before own after,
          w_events wi = w_events w ++ before
          /\ w_events (snd (mirror_entries env cfg pkg entries w))
             = w_events w ++ before ++ EvGet (url e) :: own ++ after
          /\ Forall (only_get e) own
          /\ w_data (snd (process_entry env cfg pkg e wi)) = w_data wi).
Proof.
  intros Hpol.
  split; [intros entries e; apply candidates_spec|].
  split; [intros u1 u2 u3; vm_compute; reflexivity|].
  split; [intros base repo pkgs w; apply only_wheels_mirror_all_jfrog; auto|].
  split; [intros pkgs w; apply only_wheels_mirror_all_azure; auto|].
  split.
  { intros pkg e w Hext. cbv zeta. split; [|split].
    - apply non_wheel_events; auto.
    - apply non_wheel_data; auto.
    - apply non_wheel_fetched; auto. }
  split.
  { intros base repo pkg urls w Hidx.
    unfold Jfrog.mirror_package_from_jfrog. unfold bind at 1. unfold catch.
    unfold bind at 1. rewrite simple_index_eq, Hidx. reflexivity. }
  split.
  { intros pkg entries w. cbv zeta.
    destruct (mirror_entries_runs env cfg pkg entries w) as [Hret Hw].
    split; [exact Hret|]. split; [exact Hw|].
    rewrite Hw. destruct (candidates entries) as [|e l] eqn:Hc;
      [apply emits_refl|].
    rewrite <- Hc. eapply emits_trans.
    - apply emits_run_entries. intros x Hx.
      apply fetches_only_process_entry. exact Hx.
    - apply fetches_only_publish_step. }
  intros pkg entries w pre e post Hc Hext. cbv zeta. intros Hnone.
  destruct (mirror_entries_runs env cfg pkg entries w) as [_ Hw].
  rewrite Hw, Hc.
  assert (Hm : match pre ++ e :: post with
               | [] => w
               | l => snd (publish_step env cfg (run_entries env cfg pkg l w))
               end
               = snd (publish_step env cfg
                        (run_entries env cfg pkg (pre ++ e :: post) w))).
  { destruct pre; reflexivity. }
  rewrite Hm. clear Hm.
  rewrite run_entries_app. cbn [run_entries fold_left].
  fold (run_entries env cfg pkg pre w).
  fold (run_entries env cfg pkg post
          (snd (process_entry env cfg pkg e (run_entries env cfg pkg pre w)))).
  set (wi := run_entries env cfg pkg pre w) in *.
  destruct (emits_run_entries transfer_event env cfg pkg pre
              (fun x _ => emits_transfers_process_entry env cfg pkg x) w)
    as (before & Hbefore & _).
  destruct (non_wheel_fetched env cfg pkg e Hpol Hext wi Hnone)
    as (own & Hown & Fown).
  set (wi' := snd (process_entry env cfg pkg e wi)) in *.
  destruct (emits_run_entries transfer_event env cfg pkg post
              (fun x _ => emits_transfers_process_entry env cfg pkg x) wi')
    as (a1 & Ha1 & _).
  destruct (only_wheels_publish_step env cfg
              (run_entries env cfg pkg post wi')) as (a2 & Ha2 & _).
  exists before, own, (a1 ++ a2). fold wi in Hbefore.
  split; [exact Hbefore|].
  split.
  { rewrite Ha2, Ha1, Hown, Hbefore. rewrite <- !app_assoc. cbn [app].
    rewrite <- ?app_assoc. reflexivity. }
  split; [exact Fown|].
  apply (non_wheel_data env cfg pkg e Hpol Hext wi).
Qed.

Lemma wheels_only_filtering_witness :
  upload_wheels_only demo_cfg = true
  /\ emits (only_wheels demo_cfg) empty_world
       (snd (Jfrog.mirror_all demo_env demo_cfg "https://r" "repo" ["pkg"]
               empty_world))
  /\ starts_with (EvGet "https://r/pkg-1.0.tar.gz?x=1")
       (only_get (Entry "https://r/pkg-1.0.tar.gz?x=1" "pkg-1.0.tar.gz"))
       empty_world
       (snd (process_entry demo_env demo_cfg "pkg"
               (Entry "https://r/pkg-1.0.tar.gz?x=1" "pkg-1.0.tar.gz")
               empty_world))
  /\ exists before own after,
       w_events
         (snd (mirror_entries demo_env demo_cfg "pkg"
                 [Entry "https://r/pkg-1.0-py3.whl" "pkg-1.0-py3.whl";
                  Entry "https://r/pkg-1.0.tar.gz?x=1" "pkg-1.0.tar.gz";
                  Entry "https://r/pkg-1.0.exe" "pkg-1.0.exe"] empty_world))
       = w_events empty_world ++ before
         ++ EvGet "https://r/pkg-1.0.tar.gz?x=1" :: own ++ after.
Proof.
  pose proof (wheels_only_filtering demo_env demo_cfg eq_refl)
    as (_ & _ & Hj & _ & Hn & _ & _ & Hrun).
  split; [reflexivity|]. split; [apply Hj|].
  split.
  { apply (Hn "pkg" (Entry "https://r/pkg-1.0.tar.gz?x=1" "pkg-1.0.tar.gz")
             empty_world); reflexivity. }
  destruct (Hrun "pkg"
              [Entry "https://r/pkg-1.0-py3.whl" "pkg-1.0-py3.whl";
               Entry "https://r/pkg-1.0.tar.gz?x=1" "pkg-1.0.tar.gz";
               Entry "https://r/pkg-1.0.exe" "pkg-1.0.exe"] empty_world
              [Entry "https://r/pkg-1.0-py3.whl" "pkg-1.0-py3.whl"]
              (Entry "https://r/pkg-1.0.tar.gz?x=1" "pkg-1.0.tar.gz") [])
    as (before & own & after & _ & Hev & _).
  - vm_compute. reflexivity.
  - reflexivity.
  - vm_compute. reflexivity.
  - exists before, own, after. exact Hev.
Defined.
